(** * VideoToTextConverter (app.py): the upload / poll / extract / summarize pipeline

    A shallow embedding of [StreamlitVideoExtractor] and [main] of [src/app.py].

    The program talks to four collaborators: the Streamlit toolkit (every
    [st.*] call), the file system ([tempfile], [os]), an HTTP server
    ([requests]) and the Gemini service ([genai]).  A run is modelled as a
    function from a [World] to the result of the call, the world it leaves
    behind and the chronological list of the calls it made to those
    collaborators.  What the collaborators answer is fixed beforehand by the
    world (the [Remote] record), so that "for every run" reads "for every
    world".

    Conventions:
    - An exception is an [exn] carrying the text that [str(e)] returns.  Only
      subclasses of [Exception] are modelled (what [requests], [genai] and
      the OS raise); [KeyboardInterrupt] and Streamlit's script-control
      exceptions are outside the model.
    - The progress fraction [wait_time / max_wait_time] is computed over the
      rationals [Q]; Python computes it in binary64, where, for the values
      2, 4, ..., 302 the loop goes through, the comparisons made here ([min]
      against 0.9, order of successive values) have the same outcome.
    - Streamlit calls only record an event; they never raise.

    The file has five parts: the embedding of the program; the projections
    that read a run's events, with sample worlds; the vocabulary of the
    statements; the lemmas and, for each claim of the specification, its
    theorem; further properties of the functions, X1 to X21. *)

From Stdlib Require Import ZArith QArith Qminmax String Ascii List Lia.
From stdpp Require Import base option strings gmap pretty sorting.

Open Scope string_scope.
Open Scope Z_scope.

(** ** Python strings *)

Definition nl : string := String "010" "".
Definition dquote : string := String "034" "".

(** [c * n] for a one-character string [c]. *)
Fixpoint str_mul (c : string) (n : nat) : string :=
  match n with
  | O => ""
  | S n' => c ++ str_mul c n'
  end.

(** [s.replace('\n', '<br>')]. *)
Fixpoint replace_newline (s : string) : string :=
  match s with
  | EmptyString => EmptyString
  | String c s' =>
      if Ascii.eqb c "010" then "<br>" ++ replace_newline s'
      else String c (replace_newline s')
  end.

(** [s.endswith(suf)]. *)
Fixpoint endswith (s suf : string) : bool :=
  if String.eqb s suf then true
  else match s with
       | EmptyString => false
       | String _ s' => endswith s' suf
       end.

(** Truth value of a Python [str]. *)
Definition str_truthy (s : string) : bool := negb (String.eqb s "").

(** Truth value of [None] or a [str]. *)
Definition truthy (o : option string) : bool :=
  match o with
  | None => false
  | Some s => str_truthy s
  end.

(** ** Values exchanged with the collaborators *)

Record exn := Exception { str : string }.

(** A [genai] file: [video_file.name] and [video_file.state.name]. *)
Record File := mkFile { name : string; state_name : string }.

(** What [model.generate_content] is called with: [[video_file, prompt]] in
    [extract_text_from_video], a bare [prompt] in [summarize_text]. *)
Inductive GenRequest :=
| ReqVideo (video_file : File) (prompt : string)
| ReqText (prompt : string).

(** A generation response; reading [response.text] raises when the response
    carries no usable part. *)
Record GenResponse := mkGenResponse { text : exn + string }.

(** A [requests] response opened with [stream=True]: the status code, the
    [content-length] header already read as an integer (absent when the
    server sends none), the chunks [iter_content] yields and the fault, if
    any, that interrupts the stream after them. *)
Record Response := mkResponse {
  status_code : Z;
  content_length : option Z;
  iter_content : list (list Byte.byte);
  stream_fault : option exn
}.

(** The value of [st.file_uploader]: the file's name, its extension and its
    bytes. *)
Record UploadedFile := mkUploadedFile {
  uploaded_name : string;
  uploaded_type : string;
  getvalue : list Byte.byte
}.

(** The allow-list given to [st.file_uploader]. *)
Definition accepted_types : list string :=
  ["mp4"; "mov"; "avi"; "webm"; "mpg"; "mpeg"; "wmv"; "flv"].

(** The answers of the remote collaborators.  [get_file_reply k] and
    [generate_content_reply k] answer the [k]-th call (counted from 0) of
    the run; [unlink_fault path] is the error [os.unlink path] runs into,
    if any. *)
Record Remote := mkRemote {
  requests_get_reply : string -> exn + Response;
  upload_file_reply : string -> exn + File;
  get_file_reply : nat -> string -> exn + File;
  generate_content_reply : nat -> GenRequest -> exn + GenResponse;
  unlink_fault : string -> option exn
}.

Record World := mkWorld {
  files : gmap string (list Byte.byte);
  tmp_names : list string;
  remote : Remote;
  get_file_count : nat;
  generate_count : nat
}.

(** ** Events: the calls a run makes *)

Inductive Widget :=
| Spinner | Success | Error | Info | Warning | Header | Subheader | Markdown.

Inductive Event :=
| EvSt (widget : Widget) (body : string)
| EvProgressNew (value : Q)
| EvProgress (value : Q)
| EvStatusNew
| EvStatusText (body : string)
| EvStatusEmpty
| EvDownloadButton (label data file_name mime : string)
| EvSleep (secs : Z)
| EvRequestsGet (url : string) (reply : exn + Response)
| EvUploadFile (path : string) (reply : exn + File)
| EvGetFile (file : string) (reply : exn + File)
| EvGenerate (request : GenRequest) (reply : exn + GenResponse)
| EvUnlink (path : string).

(** ** The monad of runs *)

Inductive Result (A : Type) :=
| Ok (a : A)
| Raise (e : exn)
| OutOfFuel.
Arguments Ok {A} a.
Arguments Raise {A} e.
Arguments OutOfFuel {A}.

Record Run (A : Type) := mkRun {
  result : Result A;
  final : World;
  events : list Event
}.
Arguments mkRun {A} result final events.
Arguments result {A} r.
Arguments final {A} r.
Arguments events {A} r.

Definition M (A : Type) : Type := World -> Run A.

Definition ret {A} (a : A) : M A := fun w => mkRun (Ok a) w [].

Definition bind {A B} (m : M A) (k : A -> M B) : M B := fun w =>
  match m w with
  | mkRun (Ok a) w1 evs1 =>
      match k a w1 with
      | mkRun r w2 evs2 => mkRun r w2 (evs1 ++ evs2)
      end
  | mkRun (Raise e) w1 evs1 => mkRun (Raise e) w1 evs1
  | mkRun OutOfFuel w1 evs1 => mkRun OutOfFuel w1 evs1
  end.

Definition raise {A} (e : exn) : M A := fun w => mkRun (Raise e) w [].

Definition out_of_fuel {A} : M A := fun w => mkRun OutOfFuel w [].

(** [try: m  except Exception as e: handler e]. *)
Definition try_except {A} (m : M A) (handler : exn -> M A) : M A := fun w =>
  match m w with
  | mkRun (Raise e) w1 evs1 =>
      match handler e w1 with
      | mkRun r w2 evs2 => mkRun r w2 (evs1 ++ evs2)
      end
  | r => r
  end.

Definition emit (e : Event) : M unit := fun w => mkRun (Ok tt) w [e].

Declare Scope run_scope.
Delimit Scope run_scope with run.
Notation "x <- m ;; k" := (bind m (fun x => k))
  (at level 100, m at next level, right associativity) : run_scope.
Notation "m ;; k" := (bind m (fun _ => k))
  (at level 100, right associativity) : run_scope.
Open Scope run_scope.

(** A [while] loop whose body may [return]: the body yields either the next
    loop state or the function's return value. *)
Inductive LoopCtl (S R : Type) :=
| Continue (s : S)
| Return (r : R).
Arguments Continue {S R} s.
Arguments Return {S R} r.

Fixpoint while {S R} (fuel : nat) (cond : S -> bool)
    (body : S -> M (LoopCtl S R)) (s : S) : M (LoopCtl S R) :=
  if cond s then
    match fuel with
    | O => out_of_fuel
    | Datatypes.S fuel' =>
        c <- body s ;;
        match c with
        | Continue s' => while fuel' cond body s'
        | Return r => ret (Return r)
        end
    end
  else ret (Continue s).

(** A [for] loop over a list. *)
Fixpoint for_each {A S} (l : list A) (body : A -> S -> M S) (s : S) : M S :=
  match l with
  | [] => ret s
  | x :: l' => s' <- body x s ;; for_each l' body s'
  end.

(** ** The collaborators *)

(** *** Streamlit and [time] *)

Definition st (widget : Widget) (body : string) : M unit :=
  emit (EvSt widget body).
Definition st_progress (value : Q) : M unit := emit (EvProgressNew value).
Definition progress_bar_progress (value : Q) : M unit :=
  emit (EvProgress value).
Definition st_empty : M unit := emit EvStatusNew.
Definition status_text_text (body : string) : M unit :=
  emit (EvStatusText body).
Definition status_text_empty : M unit := emit EvStatusEmpty.
Definition st_download_button (label data file_name mime : string) : M unit :=
  emit (EvDownloadButton label data file_name mime).
Definition time_sleep (secs : Z) : M unit := emit (EvSleep secs).

(** *** The file system *)

Definition set_files (fs : gmap string (list Byte.byte)) (w : World) : World :=
  mkWorld fs (tmp_names w) (remote w) (get_file_count w) (generate_count w).
Definition set_tmp_names (l : list string) (w : World) : World :=
  mkWorld (files w) l (remote w) (get_file_count w) (generate_count w).
Definition set_get_file_count (n : nat) (w : World) : World :=
  mkWorld (files w) (tmp_names w) (remote w) n (generate_count w).
Definition set_generate_count (n : nat) (w : World) : World :=
  mkWorld (files w) (tmp_names w) (remote w) (get_file_count w) n.

(** [tempfile] draws candidate names until one does not exist yet (the file
    is opened with [O_EXCL]); the candidates it would draw are the world's
    [tmp_names], each a directory, the prefix [tmp] and random characters. *)
Fixpoint mkstemp (candidates : list string) (suffix : string)
    (fs : gmap string (list Byte.byte)) : option (string * list string) :=
  match candidates with
  | [] => None
  | c :: rest =>
      match fs !! (c ++ suffix) with
      | Some _ => mkstemp rest suffix fs
      | None => Some (c ++ suffix, rest)
      end
  end.

(** [tempfile.NamedTemporaryFile(delete=False, suffix=suffix)]: creates the
    file, empty, and yields its name. *)
Definition NamedTemporaryFile (suffix : string) : M string := fun w =>
  match mkstemp (tmp_names w) suffix (files w) with
  | Some (path, rest) =>
      mkRun (Ok path) (set_tmp_names rest (set_files (<[path := []]> (files w)) w)) []
  | None =>
      mkRun (Raise (Exception "[Errno 17] No usable temporary file name found"))
        (set_tmp_names [] w) []
  end.

(** [temp_file.write(chunk)]: appends to the file. *)
Definition file_write (path : string) (chunk : list Byte.byte) : M unit := fun w =>
  mkRun (Ok tt)
    (set_files (<[path := (default [] (files w !! path) ++ chunk)%list]> (files w)) w) [].

Definition os_path_exists (path : string) : M bool := fun w =>
  mkRun (Ok (bool_decide (is_Some (files w !! path)))) w [].

Definition os_unlink (path : string) : M unit := fun w =>
  match unlink_fault (remote w) path with
  | Some e => mkRun (Raise e) w [EvUnlink path]
  | None =>
      match files w !! path with
      | Some _ => mkRun (Ok tt) (set_files (delete path (files w)) w) [EvUnlink path]
      | None =>
          mkRun (Raise (Exception "[Errno 2] No such file or directory"))
            w [EvUnlink path]
      end
  end.

(** *** [requests] *)

Definition reply_result {A} (reply : exn + A) : Result A :=
  match reply with
  | inl e => Raise e
  | inr a => Ok a
  end.

Definition requests_get (url : string) : M Response := fun w =>
  let reply := requests_get_reply (remote w) url in
  mkRun (reply_result reply) w [EvRequestsGet url reply].

(** [response.raise_for_status()]. *)
Definition raise_for_status (response : Response) : M unit :=
  if (400 <=? status_code response) && (status_code response <? 600)
  then raise (Exception (pretty (status_code response) ++ " Error"))
  else ret tt.

(** *** [genai] *)

Definition genai_upload_file (path : string) : M File := fun w =>
  let reply := upload_file_reply (remote w) path in
  mkRun (reply_result reply) w [EvUploadFile path reply].

Definition genai_get_file (file : string) : M File := fun w =>
  let reply := get_file_reply (remote w) (get_file_count w) file in
  mkRun (reply_result reply) (set_get_file_count (S (get_file_count w)) w)
    [EvGetFile file reply].

Definition generate_content (request : GenRequest) : M GenResponse := fun w =>
  let reply := generate_content_reply (remote w) (generate_count w) request in
  mkRun (reply_result reply) (set_generate_count (S (generate_count w)) w)
    [EvGenerate request reply].

(** [response.text]. *)
Definition response_text (response : GenResponse) : M string :=
  match text response with
  | inl e => raise e
  | inr s => ret s
  end.

(** ** StreamlitVideoExtractor *)

(** Fuel for the polling loop; [upload_video_to_gemini_total] shows that it
    is never used up. *)
Definition fuel : nat := 1000.

(** [download_video], lines 60-88; [temp_file.close()] changes nothing that
    is modelled. *)
Definition download_video (video_url : string) : M (option string) :=
  try_except
    (st Spinner "📥 Downloading video..." ;;
     response <- requests_get video_url ;;
     raise_for_status response ;;
     temp_file <- NamedTemporaryFile ".mp4" ;;
     let total_size := default 0 (content_length response) in
     let downloaded := 0 in
     (if total_size >? 0 then st_progress 0 else ret tt) ;;
     for_each (iter_content response)
       (fun chunk downloaded =>
          file_write temp_file chunk ;;
          if total_size >? 0 then
            let downloaded := downloaded + Z.of_nat (length chunk) in
            progress_bar_progress (inject_Z downloaded / inject_Z total_size) ;;
            ret downloaded
          else ret downloaded)
       downloaded ;;
     match stream_fault response with
     | Some e => raise e
     | None => ret tt
     end ;;
     st Success "✅ Video downloaded successfully!" ;;
     ret (Some temp_file))
    (fun e =>
       st Error ("❌ Error downloading video: " ++ str e) ;;
       ret None).

Definition max_wait_time : Z := 300.

(** The body of the [while] loop of [upload_video_to_gemini], lines 107-118,
    over the loop's variables [wait_time] and [video_file]. *)
Definition poll_body (s : Z * File) : M (LoopCtl (Z * File) (option File)) :=
  let '(wait_time, video_file) := s in
  let wait_time := wait_time + 2 in
  let progress := Qmin (inject_Z wait_time / inject_Z max_wait_time) (9 # 10) in
  progress_bar_progress progress ;;
  status_text_text ("Processing... (" ++ pretty wait_time ++ "s) - Status: "
                    ++ state_name video_file) ;;
  if wait_time >? max_wait_time then
    st Error "⏰ Processing timeout. Please try with a shorter video." ;;
    ret (Return None)
  else
    time_sleep 2 ;;
    video_file <- genai_get_file (name video_file) ;;
    ret (Continue (wait_time, video_file)).

Definition poll_cond (s : Z * File) : bool :=
  String.eqb (state_name (snd s)) "PROCESSING".

(** [upload_video_to_gemini], lines 90-135. *)
Definition upload_video_to_gemini (video_path : string) : M (option File) :=
  try_except
    (st Spinner "☁️ Uploading video to Gemini..." ;;
     video_file <- genai_upload_file video_path ;;
     st Success "✅ Video uploaded to Gemini!" ;;
     st Info "⏳ Waiting for video to be processed by Gemini (this may take a few minutes)..." ;;
     st_progress 0 ;;
     st_empty ;;
     let wait_time := 0 in
     c <- while fuel poll_cond poll_body (wait_time, video_file) ;;
     match c with
     | Return r => ret r
     | Continue (wait_time, video_file) =>
         progress_bar_progress 1 ;;
         status_text_empty ;;
         if String.eqb (state_name video_file) "FAILED" then
           st Error "❌ Video processing failed! Please try with a different video." ;;
           ret None
         else if String.eqb (state_name video_file) "ACTIVE" then
           st Success "✅ Video is ready for analysis!" ;;
           ret (Some video_file)
         else
           st Warning ("⚠️ Unexpected file state: " ++ state_name video_file) ;;
           ret None
     end)
    (fun e =>
       st Error ("❌ Error uploading video: " ++ str e) ;;
       ret None).

Definition extract_prompt : string :=
  nl ++ "                Please extract ALL text content from this video including:" ++ nl ++ "                1. All spoken dialogue and narration (transcribe speech to text)" ++ nl ++ "                2. Any text that appears on screen (titles, captions, signs, etc.)" ++ nl ++ "                3. Any other textual information visible in the video" ++ nl ++ "                " ++ nl ++ "                Provide the complete transcript in chronological order." ++ nl ++ "                If there are multiple speakers, indicate speaker changes." ++ nl ++ "                ".

(** [extract_text_from_video], lines 137-157. *)
Definition extract_text_from_video (video_file : File) : M (option string) :=
  try_except
    (st Spinner "🔍 Extracting text from video..." ;;
     let prompt := extract_prompt in
     response <- generate_content (ReqVideo video_file prompt) ;;
     st Success "✅ Text extraction completed!" ;;
     t <- response_text response ;;
     ret (Some t))
    (fun e =>
       st Error ("❌ Error extracting text: " ++ str e) ;;
       ret None).

Definition summary_prompt (extracted_text : string) : string :=
  nl ++ "                Please create a comprehensive summary of the following text extracted from a video:" ++ nl ++ nl ++ "                " ++ extracted_text ++ nl ++ nl ++ "                Provide:" ++ nl ++ "                1. A brief overview (2-3 sentences)" ++ nl ++ "                2. Key points and main topics discussed" ++ nl ++ "                3. Important details or conclusions" ++ nl ++ "                4. Any notable quotes or statements" ++ nl ++ nl ++ "                Make the summary clear, concise, and well-organized." ++ nl ++ "                ".

(** [summarize_text], lines 159-183. *)
Definition summarize_text (extracted_text : string) : M (option string) :=
  try_except
    (st Spinner "📝 Creating summary..." ;;
     let prompt := summary_prompt extracted_text in
     response <- generate_content (ReqText prompt) ;;
     st Success "✅ Summary created!" ;;
     t <- response_text response ;;
     ret (Some t))
    (fun e =>
       st Error ("❌ Error creating summary: " ++ str e) ;;
       ret None).

(** ** main *)

(** Which of the two buttons, if any, triggered this run of the script:
    Streamlit reruns the script on each interaction, and [st.button]
    returns [True] only in the run its own click started. *)
Inductive Clicked :=
| NoButton
| ProcessUrl
| ProcessUploaded.

(** The values the input widgets return in this run. *)
Record UserInput := mkUserInput {
  api_key : string;
  video_url : string;
  uploaded_file : option UploadedFile;
  clicked : Clicked
}.

(** Lines 265-309: both texts on screen and the three download buttons. *)
Definition show_results (extracted_text summary : string) : M unit :=
  st Header "📊 Results" ;;
  st Subheader "📝 Extracted Text" ;;
  st Markdown (nl ++ "                            <div class=" ++ dquote ++ "result-box" ++ dquote ++ ">" ++ nl ++ "                                " ++ replace_newline extracted_text ++ nl ++ "                            </div>" ++ nl ++ "                            ") ;;
  st_download_button "📥 Download Extracted Text" extracted_text
    "extracted_text.txt" "text/plain" ;;
  st Subheader "📋 Summary" ;;
  st Markdown (nl ++ "                            <div class=" ++ dquote ++ "summary-box" ++ dquote ++ ">" ++ nl ++ "                                " ++ replace_newline summary ++ nl ++ "                            </div>" ++ nl ++ "                            ") ;;
  st_download_button "📥 Download Summary" summary
    "video_summary.txt" "text/plain" ;;
  let combined_text :=
    "EXTRACTED TEXT:" ++ nl ++ str_mul "-" 50 ++ nl ++ extracted_text
    ++ nl ++ nl ++ nl ++ "SUMMARY:" ++ nl ++ str_mul "-" 50 ++ nl ++ summary in
  st_download_button "📥 Download Complete Report" combined_text
    "video_analysis_report.txt" "text/plain".

(** Lines 256-309: what runs once the asset is ready; summarization is
    behind the truth value of the extracted text, the results behind that of
    the summary. *)
Definition extract_and_summarize (video_file : File) : M unit :=
  extracted_text <- extract_text_from_video video_file ;;
  if truthy extracted_text then
    summary <- summarize_text (default "" extracted_text) ;;
    if truthy summary then
      show_results (default "" extracted_text) (default "" summary)
    else ret tt
  else ret tt.

(** Lines 253-309: the stages, behind the truth value of the handle. *)
Definition run_stages (video_path : string) : M unit :=
  video_file <- upload_video_to_gemini video_path ;;
  match video_file with
  | Some video_file => extract_and_summarize video_file
  | None => ret tt
  end.

(** Lines 311-316: the cleanup, under a bare [except: pass]. *)
Definition cleanup (video_path : string) : M unit :=
  try_except
    (present <- os_path_exists video_path ;;
     if present then os_unlink video_path else ret tt)
    (fun _ => ret tt).

(** Lines 212-224, the URL tab. *)
Definition url_tab (inp : UserInput) : M (option string) :=
  st Subheader "Enter Video URL" ;;
  match clicked inp with
  | ProcessUrl =>
      if str_truthy (video_url inp) then download_video (video_url inp)
      else (st Error "Please enter a video URL" ;; ret None)
  | _ => ret None
  end.

(** Lines 226-242, the upload tab; [video_path] is what the URL tab left. *)
Definition upload_tab (inp : UserInput) (video_path : option string)
  : M (option string) :=
  st Subheader "Upload Video File" ;;
  match clicked inp with
  | ProcessUploaded =>
      match uploaded_file inp with
      | Some uploaded =>
          tmp_file <- NamedTemporaryFile ".mp4" ;;
          file_write tmp_file (getvalue uploaded) ;;
          st Success "✅ File uploaded successfully!" ;;
          ret (Some tmp_file)
      | None => st Error "Please upload a video file" ;; ret video_path
      end
  | _ => ret video_path
  end.

(** Lines 210-242, the resolver: [video_path] after both tabs. *)
Definition resolve (inp : UserInput) : M (option string) :=
  video_path <- url_tab inp ;;
  upload_tab inp video_path.

(** [main], lines 185-337; the sidebar's fixed texts are left out. *)
Definition main (inp : UserInput) : M unit :=
  if negb (str_truthy (api_key inp)) then
    st Warning "⚠️ Please enter your Google Gemini API key in the sidebar to get started." ;;
    st Info "💡 Get your free API key from [Google AI Studio](https://aistudio.google.com/)"
  else
    st Header "📤 Upload or Provide Video" ;;
    video_path <- resolve inp ;;
    if truthy video_path then
      let video_path := default "" video_path in
      st Header "🔄 Processing" ;;
      run_stages video_path ;;
      cleanup video_path
    else ret tt.

(** ** Reading a run's events *)

(** The values shown on a progress bar, the bar's initial value included. *)
Definition progress_values : list Event -> list Q :=
  omap (fun ev => match ev with
                  | EvProgressNew v | EvProgress v => Some v
                  | _ => None
                  end).

(** What each query of the asset's state came back with: the reply of
    [genai.upload_file], then of every [genai.get_file]. *)
Definition observations : list Event -> list (exn + File) :=
  omap (fun ev => match ev with
                  | EvUploadFile _ reply | EvGetFile _ reply => Some reply
                  | _ => None
                  end).

(** The state names of the replies that carried a file. *)
Definition observed_states (evs : list Event) : list string :=
  omap (fun o => match o with
                 | inr f => Some (state_name f)
                 | inl _ => None
                 end) (observations evs).

(** The names [genai.get_file] was called with. *)
Definition get_file_calls : list Event -> list string :=
  omap (fun ev => match ev with EvGetFile file _ => Some file | _ => None end).

Definition sleeps : list Event -> list Z :=
  omap (fun ev => match ev with EvSleep secs => Some secs | _ => None end).

Definition status_texts : list Event -> list string :=
  omap (fun ev => match ev with EvStatusText body => Some body | _ => None end).

(** The texts given to [st.error]. *)
Definition errors : list Event -> list string :=
  omap (fun ev => match ev with EvSt Error body => Some body | _ => None end).

(** The texts given to [st.success]. *)
Definition successes : list Event -> list string :=
  omap (fun ev => match ev with EvSt Success body => Some body | _ => None end).

(** What [generate_content] was called with. *)
Definition generate_requests : list Event -> list GenRequest :=
  omap (fun ev => match ev with EvGenerate request _ => Some request | _ => None end).

(** The calls made by [extract_text_from_video]: the files submitted. *)
Definition extract_calls : list Event -> list File :=
  omap (fun ev => match ev with
                  | EvGenerate (ReqVideo f _) _ => Some f
                  | _ => None
                  end).

(** The calls made by [summarize_text]: the prompts submitted. *)
Definition summarize_calls : list Event -> list string :=
  omap (fun ev => match ev with
                  | EvGenerate (ReqText p) _ => Some p
                  | _ => None
                  end).

(** The texts the extraction calls returned. *)
Definition extracted_texts : list Event -> list string :=
  omap (fun ev => match ev with
                  | EvGenerate (ReqVideo _ _) (inr (mkGenResponse (inr t))) => Some t
                  | _ => None
                  end).

(** The texts the summarization calls returned. *)
Definition summary_texts : list Event -> list string :=
  omap (fun ev => match ev with
                  | EvGenerate (ReqText _) (inr (mkGenResponse (inr t))) => Some t
                  | _ => None
                  end).

(** The download buttons: file name and data. *)
Definition downloads : list Event -> list (string * string) :=
  omap (fun ev => match ev with
                  | EvDownloadButton _ data file_name _ => Some (file_name, data)
                  | _ => None
                  end).

Definition unlinks : list Event -> list string :=
  omap (fun ev => match ev with EvUnlink path => Some path | _ => None end).

(** ** Sample worlds *)

Module Samples.

Definition processing : File := mkFile "files/abc" "PROCESSING".
Definition active : File := mkFile "files/abc" "ACTIVE".
Definition failed : File := mkFile "files/abc" "FAILED".

(** The asset turns [ACTIVE] at the [n]-th re-query. *)
Definition active_after (n : nat) (k : nat) (_ : string) : exn + File :=
  if (k <? n)%nat then inr processing else inr active.

(** The generation service answers the [k]-th call with [answers !! k]. *)
Definition scripted (answers : list string) (k : nat) (_ : GenRequest)
  : exn + GenResponse :=
  match answers !! k with
  | Some t => inr (mkGenResponse (inr t))
  | None => inl (Exception "429 quota exceeded")
  end.

Definition remote_ok (n : nat) (answers : list string) : Remote :=
  mkRemote (fun _ => inr (mkResponse 200 (Some 3) [[Byte.x01; Byte.x02]; [Byte.x03]] None))
           (fun _ => inr (if (n =? 0)%nat then active else processing))
           (active_after (n - 1))
           (scripted answers)
           (fun _ => None).

Definition world (r : Remote) : World :=
  mkWorld ∅ ["/tmp/tmpa1b2c3d4"; "/tmp/tmpe5f6g7h8"] r 0 0.

(** The asset is [ACTIVE] at once; extraction and summary succeed. *)
Definition ready_world : World :=
  world (remote_ok 0 ["Speaker 1: Hello."; "A greeting."]).

(** The asset turns [ACTIVE] at the second re-query. *)
Definition slow_world : World :=
  world (remote_ok 2 ["Speaker 1: Hello."; "A greeting."]).

(** The asset never leaves [PROCESSING]. *)
Definition stuck_world : World := world (remote_ok 1000 []).

(** The service reports [FAILED] in its reply to the upload. *)
Definition failed_world : World :=
  world (mkRemote (fun _ => inl (Exception "connection refused"))
                  (fun _ => inr failed)
                  (fun _ _ => inr failed)
                  (scripted [])
                  (fun _ => None)).

(** Extraction answers with an empty text. *)
Definition silent_world : World := world (remote_ok 0 [""]).

(** As [ready_world], but [os.unlink] is refused. *)
Definition locked_world : World :=
  world (mkRemote (fun _ => inl (Exception "connection refused"))
                  (fun _ => inr active)
                  (fun _ _ => inr active)
                  (scripted ["Speaker 1: Hello."; "A greeting."])
                  (fun _ => Some (Exception "[Errno 13] Permission denied"))).

(** The download breaks off after the first chunk. *)
Definition broken_stream_world : World :=
  world (mkRemote (fun _ => inr (mkResponse 200 (Some 3) [[Byte.x01; Byte.x02]]
                                   (Some (Exception "Connection broken"))))
                  (fun _ => inr active)
                  (fun _ _ => inr active)
                  (scripted ["Speaker 1: Hello."; "A greeting."])
                  (fun _ => None)).

Definition upload_mov : UserInput :=
  mkUserInput "key" "" (Some (mkUploadedFile "clip.mov" "mov" [Byte.x00; Byte.x01])) ProcessUploaded.

Definition from_url : UserInput :=
  mkUserInput "key" "https://example.com/video.mp4" None ProcessUrl.

(** The server refuses the connection. *)
Definition refused_world : World :=
  world (mkRemote (fun _ => inl (Exception "connection refused"))
                  (fun _ => inr active)
                  (fun _ _ => inr active)
                  (scripted ["Speaker 1: Hello."; "A greeting."])
                  (fun _ => None)).

(** The server answers 404. *)
Definition not_found_world : World :=
  world (mkRemote (fun _ => inr (mkResponse 404 None [] None))
                  (fun _ => inr active)
                  (fun _ _ => inr active)
                  (scripted ["Speaker 1: Hello."; "A greeting."])
                  (fun _ => None)).


(** The generation service answers with responses whose text cannot be
    read. *)
Definition unreadable_world : World :=
  world (mkRemote (fun _ => inl (Exception "connection refused"))
                  (fun _ => inr active)
                  (fun _ _ => inr active)
                  (fun _ _ => inr (mkGenResponse (inl (Exception "response has no valid part"))))
                  (fun _ => None)).

(** The asset ends in a state the program does not know. *)
Definition odd_state_world : World :=
  world (mkRemote (fun _ => inl (Exception "connection refused"))
                  (fun _ => inr (mkFile "files/abc" "STATE_UNSPECIFIED"))
                  (fun _ _ => inr active)
                  (scripted [])
                  (fun _ => None)).


(** The service renames the file at the first re-query. *)
Definition renaming_world : World :=
  world (mkRemote (fun _ => inl (Exception "connection refused"))
                  (fun _ => inr processing)
                  (fun k _ => if (k =? 0)%nat then inr (mkFile "files/xyz" "PROCESSING")
                              else inr (mkFile "files/xyz" "ACTIVE"))
                  (scripted [])
                  (fun _ => None)).

(** A file is already there. *)
Definition busy_world : World :=
  mkWorld {[ "/home/user/notes.txt" := [Byte.x41] ]}
    ["/tmp/tmpa1b2c3d4"; "/tmp/tmpe5f6g7h8"]
    (remote_ok 0 ["Speaker 1: Hello."; "A greeting."]) 0 0.

Definition no_key : UserInput :=
  mkUserInput "" "https://example.com/video.mp4"
    (Some (mkUploadedFile "clip.mov" "mov" [Byte.x00; Byte.x01])) ProcessUrl.

Definition idle : UserInput :=
  mkUserInput "key" "https://example.com/video.mp4" None NoButton.

Definition empty_url : UserInput := mkUserInput "key" "" None ProcessUrl.

Definition no_upload : UserInput := mkUserInput "key" "" None ProcessUploaded.

End Samples.

(** * Vocabulary of the statements *)

(** From here on [++] is the append of lists; strings are appended with
    [+:+]. *)
Open Scope list_scope.

(** ** Loops and frames *)

(** What the rule for [while] asks of one run of the loop body: the
    invariant [Inv] again, with a smaller [measure], or the postcondition of
    the way the body left the function. *)
Definition body_post {St Rt : Type}
    (Inv : St -> World -> list Event -> Prop)
    (PostReturn : Rt -> World -> list Event -> Prop)
    (PostRaise : exn -> World -> list Event -> Prop)
    (measure : St -> nat)
    (s : St) (evs : list Event) (r : Run (LoopCtl St Rt)) : Prop :=
  match result r with
  | Ok (Continue s') =>
      Inv s' (final r) (evs ++ events r) /\ (measure s' < measure s)%nat
  | Ok (Return x) => PostReturn x (final r) (evs ++ events r)
  | Raise e => PostRaise e (final r) (evs ++ events r)
  | OutOfFuel => False
  end.

(** What the rule gives of a run of the whole loop. *)
Definition loop_post {St Rt : Type} (cond : St -> bool)
    (Inv : St -> World -> list Event -> Prop)
    (PostReturn : Rt -> World -> list Event -> Prop)
    (PostRaise : exn -> World -> list Event -> Prop)
    (evs : list Event) (r : Run (LoopCtl St Rt)) : Prop :=
  match result r with
  | Ok (Continue s') => Inv s' (final r) (evs ++ events r) /\ cond s' = false
  | Ok (Return x) => PostReturn x (final r) (evs ++ events r)
  | Raise e => PostRaise e (final r) (evs ++ events r)
  | OutOfFuel => False
  end.

(** A frame: a relation between the world before, the events and the world
    after that holds of the empty run and of two runs in sequence. *)
Class Frame (F : World -> list Event -> World -> Prop) : Prop := {
  frame_refl : forall w, F w [] w;
  frame_trans : forall w1 e1 w2 e2 w3,
      F w1 e1 w2 -> F w2 e2 w3 -> F w1 (e1 ++ e2) w3
}.

(** Every run of [m] is in the relation [F]. *)
Definition respects {A} (F : World -> list Event -> World -> Prop) (m : M A) : Prop :=
  forall w, F w (events (m w)) (final (m w)).

(** The frame of runs that leave a component [f] of the world unchanged. *)
Definition keeps {B} (f : World -> B) : World -> list Event -> World -> Prop :=
  fun w _ w' => f w' = f w.

(** The collaborator an event is addressed to. *)
Inductive Kind := Ui | Artifact | Clock | Http | Asset | Generation | Fs.

(** Streamlit's download buttons are kept apart from its other widgets. *)
Definition kind (ev : Event) : Kind :=
  match ev with
  | EvSt _ _ | EvProgressNew _ | EvProgress _ | EvStatusNew
  | EvStatusText _ | EvStatusEmpty => Ui
  | EvDownloadButton _ _ _ _ => Artifact
  | EvSleep _ => Clock
  | EvRequestsGet _ _ => Http
  | EvUploadFile _ _ | EvGetFile _ _ => Asset
  | EvGenerate _ _ => Generation
  | EvUnlink _ => Fs
  end.

#[global] Instance Kind_eq_dec : EqDecision Kind.
Proof. solve_decision. Defined.

(** The frame of runs that only call the collaborators in [ks]. *)
Definition only (ks : list Kind) : World -> list Event -> World -> Prop :=
  fun _ evs _ => forallb (fun ev => bool_decide (kind ev ∈ ks)) evs = true.

(** [f] reads only the events addressed to the collaborators in [rs]. *)
Definition reads {B} (f : Event -> option B) (rs : list Kind) : Prop :=
  forall ev, kind ev ∉ rs -> f ev = None.

(** ** The poller *)

(** The fraction shown in the iteration that raises [wait_time] to [t]. *)
Definition progress_of (t : Z) : Q :=
  Qmin (inject_Z t / inject_Z max_wait_time) (9 # 10).

(** The status line of that iteration. *)
Definition status_line (t : Z) (state : string) : string :=
  "Processing... (" +:+ pretty t +:+ "s) - Status: " +:+ state.

(** The fractions and status lines of the first [n] iterations. *)
Definition loop_progress (n : nat) : list Q :=
  map (fun k => progress_of (2 * Z.of_nat k)) (seq 1 n).

Definition loop_status (n : nat) : list string :=
  map (fun k => status_line (2 * Z.of_nat k) "PROCESSING") (seq 1 n).

(** The state on which the loop goes on. *)
Definition is_processing (f : File) : Prop := state_name f = "PROCESSING".

(** The texts of the poller's error reports, lines 114, 124 and 134. *)
Definition timeout_message : string :=
  "⏰ Processing timeout. Please try with a shorter video.".

Definition failed_message : string :=
  "❌ Video processing failed! Please try with a different video.".

Definition upload_error_message (e : exn) : string :=
  "❌ Error uploading video: " +:+ str e.

(** What the function does once the loop is over. *)
Definition verdict (vf : File) : option File * list Event :=
  if String.eqb (state_name vf) "FAILED" then
    (None, [EvSt Error failed_message])
  else if String.eqb (state_name vf) "ACTIVE" then
    (Some vf, [EvSt Success "✅ Video is ready for analysis!"])
  else
    (None, [EvSt Warning ("⚠️ Unexpected file state: " +:+ state_name vf)]).

(** The events before the loop, after an upload answered with [vf0]. *)
Definition prelude (path : string) (vf0 : File) : list Event :=
  [EvSt Spinner "☁️ Uploading video to Gemini...";
   EvUploadFile path (inr vf0);
   EvSt Success "✅ Video uploaded to Gemini!";
   EvSt Info "⏳ Waiting for video to be processed by Gemini (this may take a few minutes)...";
   EvProgressNew 0; EvStatusNew].

(** What a run of the poller shows, in terms of the number of loop
    iterations and of re-queries: the replies observed, the values on the
    progress bar ([full] when the final 1.0 is among them), the status lines,
    the sleeps, the calls of [genai.get_file] and the errors reported. *)
Record PollFacts (evs : list Event) (obs : list (exn + File))
    (iterations requeries : nat) (errs : list string) (full : bool) : Prop := {
  pf_observations : observations evs = obs;
  pf_progress :
    progress_values evs
    = (0%Q :: loop_progress iterations) ++ (if full then [1%Q] else []);
  pf_status : status_texts evs = loop_status iterations;
  pf_sleeps : sleeps evs = repeat 2 requeries;
  pf_get_files : length (get_file_calls evs) = requeries;
  pf_errors : errors evs = errs
}.

(** The replies observed are the service's: the first is the reply to the
    upload, the one after the [k]-th re-query is the service's [k]-th reply
    counted from [c0]. *)
Definition from_oracle (rm : Remote) (path : string) (c0 : nat)
    (obs : list (exn + File)) : Prop :=
  forall k o, obs !! k = Some o ->
    match k with
    | O => o = upload_file_reply rm path
    | S k' => exists file, o = get_file_reply rm (c0 + k') file
    end.

(** After [length prev] iterations: the files seen so far are [prev], all
    [PROCESSING], then the current one. *)
Definition poll_inv (path : string) (w0 : World)
    (s : Z * File) (w : World) (evs : list Event) : Prop :=
  exists prev : list File,
    fst s = 2 * Z.of_nat (length prev) /\
    (length prev <= 150)%nat /\
    Forall is_processing prev /\
    PollFacts evs (map inr (prev ++ [snd s])) (length prev) (length prev) [] false /\
    remote w = remote w0 /\
    get_file_count w = (get_file_count w0 + length prev)%nat /\
    from_oracle (remote w0) path (get_file_count w0) (map inr (prev ++ [snd s])).

(** Leaving through [return None]: 151 files seen, all [PROCESSING]. *)
Definition poll_timed_out (path : string) (w0 : World)
    (x : option File) (w : World) (evs : list Event) : Prop :=
  x = None /\
  exists prev : list File,
    length prev = 151%nat /\
    Forall is_processing prev /\
    PollFacts evs (map inr prev) 151 150 [timeout_message] false /\
    from_oracle (remote w0) path (get_file_count w0) (map inr prev).

(** Leaving through an exception of [genai.get_file]. *)
Definition poll_faulted (path : string) (w0 : World)
    (e : exn) (w : World) (evs : list Event) : Prop :=
  exists prev : list File,
    (1 <= length prev <= 150)%nat /\
    Forall is_processing prev /\
    PollFacts evs (map inr prev ++ [inl e]) (length prev) (length prev) [] false /\
    from_oracle (remote w0) path (get_file_count w0) (map inr prev ++ [inl e]).

(** What decreases at each iteration. *)
Definition poll_measure (s : Z * File) : nat := Z.to_nat (max_wait_time - fst s).

(** The four ways a run [r] of [upload_video_to_gemini path] from [w] ends:
    the upload raised; a state other than [PROCESSING] came back, with the
    upload or after some re-queries; the wait ran over the ceiling; a
    re-query raised. *)
Inductive PollOutcome (path : string) (w : World) (r : Run (option File)) : Prop :=
| upload_faulted (e : exn) :
    upload_file_reply (remote w) path = inl e ->
    result r = Ok None ->
    events r = [EvSt Spinner "☁️ Uploading video to Gemini...";
                EvUploadFile path (inl e);
                EvSt Error (upload_error_message e)] ->
    PollOutcome path w r
| settled (prev : list File) (vf : File) :
    Forall is_processing prev ->
    (length prev <= 150)%nat ->
    state_name vf <> "PROCESSING" ->
    PollFacts (events r) (map inr (prev ++ [vf])) (length prev) (length prev)
      (if String.eqb (state_name vf) "FAILED" then [failed_message] else []) true ->
    from_oracle (remote w) path (get_file_count w) (map inr (prev ++ [vf])) ->
    result r = Ok (if String.eqb (state_name vf) "ACTIVE" then Some vf else None) ->
    PollOutcome path w r
| timed_out (prev : list File) :
    Forall is_processing prev ->
    length prev = 151%nat ->
    PollFacts (events r) (map inr prev) 151 150 [timeout_message] false ->
    from_oracle (remote w) path (get_file_count w) (map inr prev) ->
    result r = Ok None ->
    PollOutcome path w r
| query_faulted (prev : list File) (e : exn) :
    Forall is_processing prev ->
    (1 <= length prev <= 150)%nat ->
    PollFacts (events r) (map inr prev ++ [inl e]) (length prev) (length prev)
      [upload_error_message e] false ->
    from_oracle (remote w) path (get_file_count w) (map inr prev ++ [inl e]) ->
    result r = Ok None ->
    PollOutcome path w r.

(** ** Extraction, summarization and results *)

(** The texts of the error reports of lines 156 and 182. *)
Definition extract_error_message (e : exn) : string :=
  "❌ Error extracting text: " +:+ str e.

Definition summary_error_message (e : exn) : string :=
  "❌ Error creating summary: " +:+ str e.

(** The text a generation call hands back to its caller, if any. *)
Definition reply_text (reply : exn + GenResponse) : option string :=
  match reply with
  | inr (mkGenResponse (inr t)) => Some t
  | _ => None
  end.

(** The exception a generation call ends in, if any: the service's, or the
    one raised on reading [response.text]. *)
Definition reply_fault (reply : exn + GenResponse) : option exn :=
  match reply with
  | inl e => Some e
  | inr (mkGenResponse (inl e)) => Some e
  | inr (mkGenResponse (inr _)) => None
  end.

(** The report of line 303. *)
Definition combined_text (extracted_text summary : string) : string :=
  "EXTRACTED TEXT:" +:+ nl +:+ str_mul "-" 50 +:+ nl +:+ extracted_text
  +:+ nl +:+ nl +:+ nl +:+ "SUMMARY:" +:+ nl +:+ str_mul "-" 50 +:+ nl +:+ summary.

(** ** What a run observed *)

(** The last reply observed carried a file in state [ACTIVE]. *)
Definition ended_active (evs : list Event) : Prop :=
  exists f, last (observations evs) = Some (inr f) /\ state_name f = "ACTIVE".

(** The last reply observed carried a file in a state other than
    [PROCESSING]: the loop was left through its condition. *)
Definition settled_state (evs : list Event) : Prop :=
  exists f, last (observations evs) = Some (inr f) /\ state_name f <> "PROCESSING".

(** Every reply observed carried a file in state [PROCESSING]. *)
Definition all_processing (obs : list (exn + File)) : Prop :=
  Forall (fun o => exists f, o = inr f /\ is_processing f) obs.

(** C3 as the specification words it: as long as no [ACTIVE] state has been
    observed, no value above 0.9 is shown. *)
Definition capped_until_active (evs : list Event) : Prop :=
  ~ In "ACTIVE" (observed_states evs) ->
  Forall (fun p => (p <= 9 # 10)%Q) (progress_values evs).

(** ** The pipeline *)

(** The two headers of [main], lines 205 and 246. *)
Definition upload_header : Event := EvSt Header "📤 Upload or Provide Video".

Definition processing_header : Event := EvSt Header "🔄 Processing".

(** The service answers the upload of [path] and the first 150 re-queries
    with state [PROCESSING]. *)
Definition stays_processing (path : string) (w : World) : Prop :=
  (exists f, upload_file_reply (remote w) path = inr f /\ is_processing f) /\
  (forall k file, (k < 150)%nat ->
     exists f, get_file_reply (remote w) (get_file_count w + k) file = inr f /\
               is_processing f).

(** The three downloads of a run that extracted and summarized. *)
Definition artifacts (extracted_text summary : string) : list (string * string) :=
  [("extracted_text.txt", extracted_text);
   ("video_summary.txt", summary);
   ("video_analysis_report.txt", combined_text extracted_text summary)].

(** The bytes the input designates: the body served at the URL, or the
    content of the uploaded file. *)
Definition source_bytes (inp : UserInput) (w : World) : option (list Byte.byte) :=
  match clicked inp with
  | NoButton => None
  | ProcessUrl =>
      match requests_get_reply (remote w) (video_url inp) with
      | inr response => Some (concat (iter_content response))
      | inl _ => None
      end
  | ProcessUploaded => getvalue <$> uploaded_file inp
  end.

(** C7 as the specification words it: the suffix of the transient file is
    the one of the media type. *)
Definition suffix_matches_type (media_type path : string) : Prop :=
  endswith path ("." +:+ media_type) = true.

(** C5 as the specification words it: whatever path the resolver returned
    does not exist when the pipeline ends. *)
Definition removed_at_end (inp : UserInput) (w : World) : Prop :=
  forall path,
    result (resolve inp w) = Ok (Some path) ->
    files (final (main inp w)) !! path = None.

(** C6 as the specification words it: extraction does not return the empty
    string. *)
Definition never_empty_text (vf : File) (w : World) : Prop :=
  result (extract_text_from_video vf w) <> Ok (Some "").

(** ** Further vocabulary *)

(** The texts given to [st.warning]. *)
Definition warnings : list Event -> list string :=
  omap (fun ev => match ev with EvSt Warning body => Some body | _ => None end).

(** The files of the replies that carried one. *)
Definition observed_files (evs : list Event) : list File :=
  omap (fun o => match o with
                 | inr f => Some f
                 | inl _ => None
                 end) (observations evs).

(** The frame of runs all of whose events satisfy [p]. *)
Definition every (p : Event -> bool) : World -> list Event -> World -> Prop :=
  fun _ evs _ => forallb p evs = true.

(** The test of [raise_for_status]. *)
Definition bad_status (response : Response) : bool :=
  (400 <=? status_code response) && (status_code response <? 600).

(** The exception of [raise_for_status]. *)
Definition status_error (response : Response) : exn :=
  Exception (pretty (status_code response) +:+ " Error").

(** The text of the error report of line 87. *)
Definition download_error_message (e : exn) : string :=
  "❌ Error downloading video: " +:+ str e.

(** The exception of [tempfile] when every candidate name is taken. *)
Definition no_name_error : exn :=
  Exception "[Errno 17] No usable temporary file name found".

(** The values [downloaded] takes in the loop of [download_video], from
    [downloaded] on, one per chunk. *)
Fixpoint cumulative (chunks : list (list Byte.byte)) (downloaded : Z) : list Z :=
  match chunks with
  | [] => []
  | chunk :: chunks' =>
      (downloaded + Z.of_nat (length chunk))
      :: cumulative chunks' (downloaded + Z.of_nat (length chunk))
  end.

(** The events of that loop. *)
Definition download_loop_events (total_size : Z) (chunks : list (list Byte.byte))
    (downloaded : Z) : list Event :=
  if total_size >? 0 then
    map (fun d => EvProgress (inject_Z d / inject_Z total_size))
      (cumulative chunks downloaded)
  else [].

(** The input designates no video: no button was clicked, or the URL is
    empty, or no file was uploaded. *)
Definition no_source (inp : UserInput) : Prop :=
  match clicked inp with
  | NoButton => True
  | ProcessUrl => video_url inp = ""
  | ProcessUploaded => uploaded_file inp = None
  end.

(** The error [main] reports itself when a button was clicked without its
    input. *)
Definition no_source_errors (inp : UserInput) : list string :=
  match clicked inp with
  | NoButton => []
  | ProcessUrl => ["Please enter a video URL"]
  | ProcessUploaded => ["Please upload a video file"]
  end.

(** The exception [download_video] runs into before it creates its file, if
    any: the one of [requests.get], or the one of [raise_for_status]. *)
Definition request_fault (reply : exn + Response) : option exn :=
  match reply with
  | inl e => Some e
  | inr response => if bad_status response then Some (status_error response) else None
  end.

(** The bytes announced by the [content-length] header, 0 without one. *)
Definition announced (response : Response) : Z :=
  default 0 (content_length response).

(** The bytes the stream delivers. *)
Definition delivered (response : Response) : Z :=
  Z.of_nat (length (concat (iter_content response))).





(** Neither [st.success] nor [st.warning]. *)
Definition quiet (ev : Event) : bool :=
  match ev with
  | EvSt Success _ | EvSt Warning _ => false
  | _ => true
  end.

(** The frame of runs that advance the counter of [genai.get_file] by the
    number of their calls of it. *)
Definition counts_get_file : World -> list Event -> World -> Prop :=
  fun w evs w' =>
    get_file_count w' = (get_file_count w + length (get_file_calls evs))%nat.

(** The URLs given to [requests.get]. *)
Definition requests : list Event -> list string :=
  omap (fun ev => match ev with EvRequestsGet url _ => Some url | _ => None end).


(** The two subheaders of the tabs, lines 213 and 227. *)
Definition url_subheader : Event := EvSt Subheader "Enter Video URL".

Definition upload_subheader : Event := EvSt Subheader "Upload Video File".

(** The warning of line 197. *)
Definition key_warning : string :=
  "⚠️ Please enter your Google Gemini API key in the sidebar to get started.".


(** A download is asked for: a key, the URL button and a URL. *)
Definition download_requested (inp : UserInput) : bool :=
  str_truthy (api_key inp)
  && match clicked inp with
     | ProcessUrl => str_truthy (video_url inp)
     | _ => false
     end.



(** The stream delivers no more than the response announced.  Every value
    [download_video] gives to its progress bar is then a fraction between 0
    and 1, which is what [st.progress] accepts. *)
Definition within_announced (response : Response) : Prop :=
  announced response <= 0 \/ delivered response <= announced response.

(** * Reasoning about runs *)

Lemma bind_ok {A B} (m : M A) (k : A -> M B) w a :
  result (m w) = Ok a ->
  bind m k w = mkRun (result (k a (final (m w)))) (final (k a (final (m w))))
                 (events (m w) ++ events (k a (final (m w)))).
Proof.
  unfold bind. destruct (m w) as [r w1 evs1]. cbn. intros ->.
  destruct (k a w1). reflexivity.
Qed.

Lemma bind_raise {A B} (m : M A) (k : A -> M B) w e :
  result (m w) = Raise e ->
  bind m k w = mkRun (Raise e) (final (m w)) (events (m w)).
Proof. unfold bind. destruct (m w) as [r w1 evs1]. cbn. intros ->. reflexivity. Qed.

(** [bind] in terms of the projections of the two runs. *)
Lemma bind_run {A B} (m : M A) (k : A -> M B) w :
  bind m k w =
  match result (m w) with
  | Ok a =>
      mkRun (result (k a (final (m w)))) (final (k a (final (m w))))
        (events (m w) ++ events (k a (final (m w))))
  | Raise e => mkRun (Raise e) (final (m w)) (events (m w))
  | OutOfFuel => mkRun OutOfFuel (final (m w)) (events (m w))
  end.
Proof.
  unfold bind. destruct (m w) as [[a|e|] w1 evs1]; cbn; try reflexivity.
  destruct (k a w1). reflexivity.
Qed.

(** ** A rule for [while]

    [Inv s w evs] relates the loop state, the world and the events emitted
    so far; the body keeps it while lowering [measure], and each way out of
    the loop has its own postcondition.  With fuel above the measure the
    loop does not run out of fuel. *)
Section While_rule.
Context {St Rt : Type}.
Variable cond : St -> bool.
Variable body : St -> M (LoopCtl St Rt).
Variable Inv : St -> World -> list Event -> Prop.
Variable PostReturn : Rt -> World -> list Event -> Prop.
Variable PostRaise : exn -> World -> list Event -> Prop.
Variable measure : St -> nat.

Hypothesis body_ok :
  forall s w evs,
    Inv s w evs -> cond s = true ->
    body_post Inv PostReturn PostRaise measure s evs (body s w).

Lemma while_rule (n : nat) :
  forall s w evs,
    Inv s w evs -> (measure s < n)%nat ->
    loop_post cond Inv PostReturn PostRaise evs (while n cond body s w).
Proof.
  induction n as [|n IH]; intros s w evs HI Hm; [lia|].
  cbn [while]. destruct (cond s) eqn:Hc.
  - specialize (body_ok s w evs HI Hc). unfold body_post in body_ok.
    unfold loop_post.
    destruct (result (body s w)) as [[s'|x]|e|] eqn:Hr.
    + rewrite (bind_ok _ _ _ _ Hr). cbn [result final events].
      destruct body_ok as [HI' Hm'].
      specialize (IH s' (final (body s w)) (evs ++ events (body s w)) HI').
      unfold loop_post in IH. rewrite <- app_assoc in IH.
      apply IH. lia.
    + rewrite (bind_ok _ _ _ _ Hr). cbn. rewrite app_nil_r. exact body_ok.
    + rewrite (bind_raise _ _ _ _ Hr). cbn. exact body_ok.
    + contradiction.
  - unfold loop_post. cbn. rewrite app_nil_r. auto.
Qed.
End While_rule.

(** ** Frames: what a run leaves alone

    A frame is a relation between the world before, the events and the world
    after that holds of the empty run and of two runs in sequence.  A
    computation respects a frame when every run of it is in the relation. *)

Section Frame_rules.
Context (F : World -> list Event -> World -> Prop) `{!Frame F}.

Lemma respects_ret {A} (a : A) : respects F (ret a).
Proof. intros w. apply frame_refl. Qed.

Lemma respects_raise {A} (e : exn) : respects F (@raise A e).
Proof. intros w. apply frame_refl. Qed.

Lemma respects_bind {A B} (m : M A) (k : A -> M B) :
  respects F m -> (forall a, respects F (k a)) -> respects F (bind m k).
Proof.
  intros Hm Hk w. unfold bind. specialize (Hm w).
  destruct (m w) as [[a|e|] w1 evs1]; cbn in *; auto.
  specialize (Hk a w1). destruct (k a w1) as [r w2 evs2]; cbn in *.
  eapply frame_trans; eassumption.
Qed.

Lemma respects_try_except {A} (m : M A) (h : exn -> M A) :
  respects F m -> (forall e, respects F (h e)) -> respects F (try_except m h).
Proof.
  intros Hm Hh w. unfold try_except. specialize (Hm w).
  destruct (m w) as [[a|e|] w1 evs1]; cbn in *; auto.
  specialize (Hh e w1). destruct (h e w1) as [r w2 evs2]; cbn in *.
  eapply frame_trans; eassumption.
Qed.

Lemma respects_while {St Rt} n cond (body : St -> M (LoopCtl St Rt)) :
  (forall s, respects F (body s)) -> forall s, respects F (while n cond body s).
Proof.
  intros Hb. induction n as [|n IH]; intros s; cbn [while];
    destruct (cond s); try apply respects_ret.
  - intros w. apply frame_refl.
  - apply respects_bind; [apply Hb|]. intros [s'|x]; [apply IH | apply respects_ret].
Qed.

Lemma respects_for_each {A St} (l : list A) (body : A -> St -> M St) :
  (forall x s, respects F (body x s)) -> forall s, respects F (for_each l body s).
Proof.
  intros Hb. induction l as [|x l IH]; intros s; cbn [for_each].
  - apply respects_ret.
  - apply respects_bind; [apply Hb | apply IH].
Qed.
End Frame_rules.

#[global] Instance keeps_frame {B} (f : World -> B) : Frame (keeps f).
Proof. split; unfold keeps; [reflexivity | congruence]. Qed.

#[global] Instance only_frame (ks : list Kind) : Frame (only ks).
Proof.
  split; unfold only; [reflexivity|].
  intros _ e1 _ e2 _ H1 H2. rewrite forallb_app, H1, H2. reflexivity.
Qed.

(** A projection shows nothing of a run that addresses none of the
    collaborators it reads. *)
Lemma omap_reads {B} (f : Event -> option B) (rs ks : list Kind) w evs w' :
  reads f rs -> Forall (fun k => k ∉ ks) rs -> only ks w evs w' -> omap f evs = [].
Proof.
  intros Hf Hdisj Hon. unfold only in Hon.
  induction evs as [|ev evs IH]; [reflexivity|].
  cbn in Hon. apply andb_prop in Hon as [Hev Hevs].
  apply bool_decide_eq_true in Hev.
  cbn. rewrite Hf, IH; [reflexivity | assumption |].
  intros Hin. rewrite Forall_forall in Hdisj. exact (Hdisj _ Hin Hev).
Qed.

Ltac primitive_frame :=
  let w := fresh "w" in
  intros w; unfold keeps, only;
  cbv [st st_progress progress_bar_progress st_empty status_text_text
       status_text_empty st_download_button time_sleep emit
       NamedTemporaryFile file_write os_path_exists os_unlink
       requests_get raise_for_status genai_upload_file genai_get_file
       generate_content response_text ret raise
       set_files set_tmp_names set_get_file_count set_generate_count];
  repeat case_match; reflexivity.

Ltac frame :=
  repeat match goal with
    | |- respects ?F (ret _) => apply (respects_ret F)
    | |- respects ?F (raise _) => apply (respects_raise F)
    | |- respects ?F (bind _ _) => apply (respects_bind F); [|intros ?]
    | |- respects ?F (try_except _ _) => apply (respects_try_except F); [|intros ?]
    | |- respects ?F (while _ _ _ _) => apply (respects_while F); intros ?
    | |- respects ?F (for_each _ _ _) => apply (respects_for_each F); intros ? ?
    | |- respects _ (match ?x with _ => _ end) => destruct x
    | |- respects _ _ => solve [primitive_frame]
    end.

(** ** Footprints of the stages *)

Lemma upload_video_to_gemini_only path :
  respects (only [Ui; Clock; Asset]) (upload_video_to_gemini path).
Proof. unfold upload_video_to_gemini, poll_body. frame. Qed.

Lemma extract_and_summarize_only vf :
  respects (only [Ui; Artifact; Generation]) (extract_and_summarize vf).
Proof.
  unfold extract_and_summarize, extract_text_from_video, summarize_text, show_results.
  frame.
Qed.

Lemma run_stages_only path :
  respects (only [Ui; Artifact; Clock; Asset; Generation]) (run_stages path).
Proof.
  unfold run_stages, extract_and_summarize, upload_video_to_gemini, poll_body,
    extract_text_from_video, summarize_text, show_results.
  frame.
Qed.

Lemma run_stages_keeps_files path : respects (keeps files) (run_stages path).
Proof.
  unfold run_stages, extract_and_summarize, upload_video_to_gemini, poll_body,
    extract_text_from_video, summarize_text, show_results.
  frame.
Qed.

Lemma run_stages_keeps_remote path : respects (keeps remote) (run_stages path).
Proof.
  unfold run_stages, extract_and_summarize, upload_video_to_gemini, poll_body,
    extract_text_from_video, summarize_text, show_results.
  frame.
Qed.

Lemma cleanup_only path : respects (only [Fs]) (cleanup path).
Proof. unfold cleanup. frame. Qed.

Lemma resolve_only inp : respects (only [Ui; Http]) (resolve inp).
Proof. unfold resolve, url_tab, upload_tab, download_video. frame. Qed.

Lemma resolve_keeps_remote inp : respects (keeps remote) (resolve inp).
Proof. unfold resolve, url_tab, upload_tab, download_video. frame. Qed.

Lemma resolve_keeps_get_file_count inp :
  respects (keeps get_file_count) (resolve inp).
Proof. unfold resolve, url_tab, upload_tab, download_video. frame. Qed.

(** ** The polling loop *)

(** One iteration of the loop, as an equation. *)
Lemma poll_body_run wait_time vf w :
  poll_body (wait_time, vf) w =
  let t := wait_time + 2 in
  let shown := [EvProgress (progress_of t);
                EvStatusText (status_line t (state_name vf))] in
  if t >? max_wait_time then
    mkRun (Ok (Return None)) w (shown ++ [EvSt Error timeout_message])
  else
    let reply := get_file_reply (remote w) (get_file_count w) (name vf) in
    mkRun (match reply with
           | inl e => Raise e
           | inr f => Ok (Continue (t, f))
           end)
          (set_get_file_count (S (get_file_count w)) w)
          (shown ++ [EvSleep 2; EvGetFile (name vf) reply]).
Proof.
  unfold poll_body. cbv zeta.
  destruct (wait_time + 2 >? max_wait_time) eqn:Ht.
  - reflexivity.
  - unfold bind, genai_get_file, reply_result; cbn.
    destruct (get_file_reply (remote w) (get_file_count w) (name vf)); reflexivity.
Qed.

(** [upload_video_to_gemini] around its loop, as an equation. *)
Lemma upload_video_to_gemini_run path w :
  upload_video_to_gemini path w =
  match upload_file_reply (remote w) path with
  | inl e =>
      mkRun (Ok None) w
        [EvSt Spinner "☁️ Uploading video to Gemini...";
         EvUploadFile path (inl e);
         EvSt Error (upload_error_message e)]
  | inr vf0 =>
      let l := while fuel poll_cond poll_body (0, vf0) w in
      match result l with
      | Ok (Continue (_, vf)) =>
          mkRun (Ok (fst (verdict vf))) (final l)
            (prelude path vf0 ++ events l
             ++ EvProgress 1 :: EvStatusEmpty :: snd (verdict vf))
      | Ok (Return x) => mkRun (Ok x) (final l) (prelude path vf0 ++ events l)
      | Raise e =>
          mkRun (Ok None) (final l)
            (prelude path vf0 ++ events l ++ [EvSt Error (upload_error_message e)])
      | OutOfFuel => mkRun OutOfFuel (final l) (prelude path vf0 ++ events l)
      end
  end.
Proof.
  unfold upload_video_to_gemini, try_except, bind, genai_upload_file, reply_result.
  cbn -[while fuel].
  destruct (upload_file_reply (remote w) path) as [e|vf0]; cbn -[while fuel];
    [reflexivity|].
  destruct (while fuel poll_cond poll_body (0, vf0) w) as [[[[t vf]|x]|e|] wl evl];
    cbn; try reflexivity.
  - unfold verdict.
    destruct (String.eqb (state_name vf) "FAILED"); cbn;
      [|destruct (String.eqb (state_name vf) "ACTIVE"); cbn];
      rewrite ?app_nil_r; reflexivity.
  - rewrite app_nil_r. reflexivity.
Qed.

Lemma loop_progress_S n :
  loop_progress (S n) = loop_progress n ++ [progress_of (2 * Z.of_nat (S n))].
Proof. unfold loop_progress. rewrite seq_S, map_app. reflexivity. Qed.

Lemma loop_status_S n :
  loop_status (S n)
  = loop_status n ++ [status_line (2 * Z.of_nat (S n)) "PROCESSING"].
Proof. unfold loop_status. rewrite seq_S, map_app. reflexivity. Qed.

Lemma repeat_S_snoc {A} (a : A) n : repeat a (S n) = repeat a n ++ [a].
Proof. induction n as [|n IH]; cbn in *; [reflexivity | rewrite <- IH; reflexivity]. Qed.

Ltac projections :=
  unfold observations, progress_values, status_texts, sleeps, get_file_calls,
    errors in *;
  rewrite ?omap_app; cbn [omap list_omap].

(** Extends the facts of a run by the events of one more step. *)
Ltac poll_facts H :=
  let Ho := fresh "Ho" in
  let Hp := fresh "Hp" in
  let Hs := fresh "Hs" in
  let Hz := fresh "Hz" in
  let Hg := fresh "Hg" in
  let He := fresh "He" in
  destruct H as [Ho Hp Hs Hz Hg He];
  split; projections;
  rewrite ?length_app, ?Ho, ?Hp, ?Hs, ?Hz, ?Hg, ?He, ?loop_progress_S,
    ?loop_status_S, ?repeat_S_snoc, ?app_nil_r;
  cbn [length app]; try reflexivity; try lia.

Lemma PollFacts_requery evs obs n file reply :
  PollFacts evs obs n n [] false ->
  PollFacts
    (evs ++ [EvProgress (progress_of (2 * Z.of_nat (S n)));
             EvStatusText (status_line (2 * Z.of_nat (S n)) "PROCESSING");
             EvSleep 2; EvGetFile file reply])
    (obs ++ [reply]) (S n) (S n) [] false.
Proof. intros H. poll_facts H. Qed.

Lemma PollFacts_timeout evs obs n :
  PollFacts evs obs n n [] false ->
  PollFacts
    (evs ++ [EvProgress (progress_of (2 * Z.of_nat (S n)));
             EvStatusText (status_line (2 * Z.of_nat (S n)) "PROCESSING");
             EvSt Error timeout_message])
    obs (S n) n [timeout_message] false.
Proof. intros H. poll_facts H. Qed.

Lemma PollFacts_fault evs obs n e :
  PollFacts evs obs n n [] false ->
  PollFacts (evs ++ [EvSt Error (upload_error_message e)])
    obs n n [upload_error_message e] false.
Proof. intros H. poll_facts H. Qed.

Lemma PollFacts_verdict evs obs n vf :
  PollFacts evs obs n n [] false ->
  PollFacts (evs ++ EvProgress 1 :: EvStatusEmpty :: snd (verdict vf))
    obs n n
    (if String.eqb (state_name vf) "FAILED" then [failed_message] else [])
    true.
Proof.
  intros H. unfold verdict.
  destruct (String.eqb (state_name vf) "FAILED");
    [|destruct (String.eqb (state_name vf) "ACTIVE")]; cbn [snd];
    poll_facts H.
Qed.

Lemma from_oracle_snoc rm path c0 obs n file :
  from_oracle rm path c0 obs -> length obs = S n ->
  from_oracle rm path c0 (obs ++ [get_file_reply rm (c0 + n) file]).
Proof.
  intros Hobs Hlen k o Hk.
  destruct (decide (k < length obs)%nat) as [Hlt|Hge].
  - rewrite lookup_app_l in Hk by assumption. apply Hobs, Hk.
  - rewrite lookup_app_r in Hk by lia.
    destruct (k - length obs)%nat as [|d] eqn:Hd; cbn in Hk; [|discriminate].
    injection Hk as <-. assert (k = S n) as -> by lia. eauto.
Qed.

Lemma poll_cond_true wait_time vf :
  poll_cond (wait_time, vf) = true <-> is_processing vf.
Proof. unfold poll_cond, is_processing. cbn. apply String.eqb_eq. Qed.

Lemma poll_cond_false wait_time vf :
  poll_cond (wait_time, vf) = false <-> state_name vf <> "PROCESSING".
Proof. unfold poll_cond. cbn. apply String.eqb_neq. Qed.

Section Poll_loop.
Variable path : string.
Variable w0 : World.
Variable vf0 : File.
Hypothesis uploaded : upload_file_reply (remote w0) path = inr vf0.

Lemma poll_inv_init : poll_inv path w0 (0, vf0) w0 (prelude path vf0).
Proof.
  exists []. cbn [length fst snd app]. split_and!; try reflexivity; try lia; auto.
  - split; reflexivity.
  - intros [|k] o Hk; cbn in Hk; [|discriminate].
    injection Hk as <-. symmetry. exact uploaded.
Qed.

Lemma poll_body_ok s w evs :
  poll_inv path w0 s w evs -> poll_cond s = true ->
  body_post (poll_inv path w0) (poll_timed_out path w0) (poll_faulted path w0)
    poll_measure s evs (poll_body s w).
Proof.
  destruct s as [wait_time vf].
  intros (prev & Hw & Hn & Hprev & Hfacts & Hrm & Hc & Horacle) Hcond.
  apply poll_cond_true in Hcond. cbn [fst snd] in *.
  assert (Hall : Forall is_processing (prev ++ [vf]))
    by (apply Forall_app; split; [assumption | repeat constructor; assumption]).
  assert (Hlen : length (prev ++ [vf]) = S (length prev))
    by (rewrite length_app; cbn; lia).
  assert (Ht : wait_time + 2 = 2 * Z.of_nat (S (length prev))) by lia.
  unfold body_post. rewrite poll_body_run. cbv zeta.
  rewrite Ht, Hcond. unfold max_wait_time.
  destruct (2 * Z.of_nat (S (length prev)) >? 300) eqn:Hgt.
  - (* the ceiling is exceeded *)
    apply Z.gtb_lt in Hgt. assert (Hn' : length prev = 150%nat) by lia.
    cbn [result final events]. split; [reflexivity|].
    exists (prev ++ [vf]). split_and!; try assumption; try lia.
    replace 151%nat with (S (length prev)) by lia.
    replace 150%nat with (length prev) by lia.
    apply (PollFacts_timeout _ _ _ Hfacts).
  - (* sleep and re-query *)
    assert (Hle : (S (length prev) <= 150)%nat).
    { destruct (Z.gtb_spec (2 * Z.of_nat (S (length prev))) 300); [discriminate | lia]. }
    rewrite Hrm, Hc.
    pose proof (from_oracle_snoc _ _ _ _ (length prev) (name vf) Horacle) as Hnext.
    rewrite length_map in Hnext. specialize (Hnext Hlen).
    pose proof (PollFacts_requery _ _ _ (name vf)
                  (get_file_reply (remote w0) (get_file_count w0 + length prev) (name vf))
                  Hfacts) as Hfacts'.
    destruct (get_file_reply (remote w0) (get_file_count w0 + length prev) (name vf))
      as [e|f] eqn:Hreply; cbn [result final events].
    + exists (prev ++ [vf]). rewrite Hlen. split_and!; try assumption; lia.
    + split.
      * exists (prev ++ [vf]). cbn [fst snd]. rewrite Hlen, map_app.
        split_and!; try assumption; try lia.
        cbn. lia.
      * unfold poll_measure, max_wait_time. cbn [fst]. lia.
Qed.

(** The loop of [upload_video_to_gemini], started after a successful
    upload: it ends, in one of three ways. *)
Lemma poll_loop_post :
  loop_post poll_cond (poll_inv path w0) (poll_timed_out path w0)
    (poll_faulted path w0) (prelude path vf0)
    (while fuel poll_cond poll_body (0, vf0) w0).
Proof.
  apply (while_rule poll_cond poll_body (poll_inv path w0) (poll_timed_out path w0)
           (poll_faulted path w0) poll_measure poll_body_ok).
  - apply poll_inv_init.
  - unfold poll_measure, max_wait_time, fuel. cbn. lia.
Qed.
End Poll_loop.

(** ** The four ways [upload_video_to_gemini] ends *)

Lemma verdict_result vf :
  fst (verdict vf) = if String.eqb (state_name vf) "ACTIVE" then Some vf else None.
Proof.
  unfold verdict.
  destruct (String.eqb (state_name vf) "FAILED") eqn:Hf.
  - apply String.eqb_eq in Hf. rewrite Hf. reflexivity.
  - destruct (String.eqb (state_name vf) "ACTIVE"); reflexivity.
Qed.

Lemma upload_video_to_gemini_outcome path w :
  PollOutcome path w (upload_video_to_gemini path w).
Proof.
  rewrite upload_video_to_gemini_run.
  destruct (upload_file_reply (remote w) path) as [e|vf0] eqn:Hup.
  - eapply upload_faulted; [exact Hup | reflexivity | reflexivity].
  - pose proof (poll_loop_post path w vf0 Hup) as Hloop.
    unfold loop_post in Hloop. cbv zeta.
    destruct (result (while fuel poll_cond poll_body (0, vf0) w))
      as [[[t vf]|x]|e|].
    + destruct Hloop as [(prev & _ & Hn & Hprev & Hfacts & _ & _ & Horacle) Hcond].
      apply poll_cond_false in Hcond. cbn [snd] in *.
      apply (settled _ _ _ prev vf); cbn [result events]; try assumption.
      * rewrite app_assoc. apply PollFacts_verdict, Hfacts.
      * rewrite verdict_result. reflexivity.
    + destruct Hloop as [-> (prev & Hn & Hprev & Hfacts & Horacle)].
      apply (timed_out _ _ _ prev); cbn [result events]; try assumption. reflexivity.
    + destruct Hloop as (prev & Hn & Hprev & Hfacts & Horacle).
      apply (query_faulted _ _ _ prev e); cbn [result events]; try assumption;
        [|reflexivity].
      rewrite app_assoc. apply PollFacts_fault, Hfacts.
    + contradiction.
Qed.

(** The poller always returns: it neither raises nor runs out of fuel. *)
Lemma upload_video_to_gemini_total path w :
  exists x, result (upload_video_to_gemini path w) = Ok x.
Proof. destruct (upload_video_to_gemini_outcome path w); eauto. Qed.

(** ** The inference stages and the cleanup, as equations *)

Lemma extract_text_from_video_run vf w :
  extract_text_from_video vf w =
  let reply := generate_content_reply (remote w) (generate_count w)
                 (ReqVideo vf extract_prompt) in
  mkRun (Ok (reply_text reply))
    (set_generate_count (S (generate_count w)) w)
    ([EvSt Spinner "🔍 Extracting text from video...";
      EvGenerate (ReqVideo vf extract_prompt) reply]
     ++ match reply with
        | inl e => [EvSt Error (extract_error_message e)]
        | inr response =>
            EvSt Success "✅ Text extraction completed!"
            :: match text response with
               | inl e => [EvSt Error (extract_error_message e)]
               | inr _ => []
               end
        end).
Proof.
  unfold extract_text_from_video, try_except, bind, generate_content, reply_result,
    response_text.
  cbn.
  destruct (generate_content_reply (remote w) (generate_count w)
              (ReqVideo vf extract_prompt)) as [e|[[e|t]]]; reflexivity.
Qed.

Lemma summarize_text_run t w :
  summarize_text t w =
  let reply := generate_content_reply (remote w) (generate_count w)
                 (ReqText (summary_prompt t)) in
  mkRun (Ok (reply_text reply))
    (set_generate_count (S (generate_count w)) w)
    ([EvSt Spinner "📝 Creating summary...";
      EvGenerate (ReqText (summary_prompt t)) reply]
     ++ match reply with
        | inl e => [EvSt Error (summary_error_message e)]
        | inr response =>
            EvSt Success "✅ Summary created!"
            :: match text response with
               | inl e => [EvSt Error (summary_error_message e)]
               | inr _ => []
               end
        end).
Proof.
  unfold summarize_text, try_except, bind, generate_content, reply_result,
    response_text.
  cbn.
  destruct (generate_content_reply (remote w) (generate_count w)
              (ReqText (summary_prompt t))) as [e|[[e|s]]]; reflexivity.
Qed.

Lemma extract_text_from_video_result vf w :
  result (extract_text_from_video vf w)
  = Ok (reply_text (generate_content_reply (remote w) (generate_count w)
                      (ReqVideo vf extract_prompt))).
Proof. rewrite extract_text_from_video_run. reflexivity. Qed.

Lemma summarize_text_result t w :
  result (summarize_text t w)
  = Ok (reply_text (generate_content_reply (remote w) (generate_count w)
                      (ReqText (summary_prompt t)))).
Proof. rewrite summarize_text_run. reflexivity. Qed.

Lemma show_results_run t s w :
  result (show_results t s w) = Ok tt /\
  final (show_results t s w) = w /\
  downloads (events (show_results t s w))
  = [("extracted_text.txt", t); ("video_summary.txt", s);
     ("video_analysis_report.txt", combined_text t s)] /\
  generate_requests (events (show_results t s w)) = [].
Proof. repeat split. Qed.

Lemma cleanup_run path w :
  cleanup path w =
  match files w !! path with
  | None => mkRun (Ok tt) w []
  | Some _ =>
      match unlink_fault (remote w) path with
      | Some e => mkRun (Ok tt) w [EvUnlink path]
      | None => mkRun (Ok tt) (set_files (delete path (files w)) w) [EvUnlink path]
      end
  end.
Proof.
  unfold cleanup, try_except, bind, os_path_exists, os_unlink, ret.
  destruct (files w !! path) as [content|] eqn:Hp.
  - rewrite bool_decide_eq_true_2 by eauto. cbn.
    destruct (unlink_fault (remote w) path); [reflexivity|].
    rewrite Hp. reflexivity.
  - rewrite bool_decide_eq_false_2 by (intros [? ?]; discriminate). reflexivity.
Qed.

(** [extract_and_summarize] in terms of the service's two replies. *)
Lemma extract_and_summarize_run vf w :
  let r1 := extract_text_from_video vf w in
  extract_and_summarize vf w =
  match result r1 with
  | Ok (Some t) =>
      if str_truthy t then
        let r2 := summarize_text t (final r1) in
        match result r2 with
        | Ok (Some s) =>
            if str_truthy s then
              mkRun (Ok tt) (final r2)
                (events r1 ++ events r2 ++ events (show_results t s (final r2)))
            else mkRun (Ok tt) (final r2) (events r1 ++ events r2)
        | _ => mkRun (Ok tt) (final r2) (events r1 ++ events r2)
        end
      else mkRun (Ok tt) (final r1) (events r1)
  | _ => mkRun (Ok tt) (final r1) (events r1)
  end.
Proof.
  cbv zeta. unfold extract_and_summarize. rewrite bind_run.
  rewrite !extract_text_from_video_result.
  destruct (reply_text _) as [t|]; cbn [truthy default from_option id ret result final events];
    [|rewrite app_nil_r; reflexivity].
  destruct (str_truthy t); cbn [ret result final events];
    [|rewrite app_nil_r; reflexivity].
  rewrite bind_run. rewrite !summarize_text_result.
  destruct (reply_text _) as [s|]; cbn [truthy default from_option id ret result final events];
    [|rewrite app_nil_r; reflexivity].
  destruct (str_truthy s); cbn [ret result final events];
    [|rewrite app_nil_r; reflexivity].
  destruct (show_results_run t s (final (summarize_text t (final (extract_text_from_video vf w)))))
    as (-> & -> & _).
  reflexivity.
Qed.

(** ** The progress fraction *)

Lemma progress_of_cap t : (progress_of t <= 9 # 10)%Q.
Proof. unfold progress_of. apply Q.le_min_r. Qed.

Lemma progress_of_mono a b : a <= b -> (progress_of a <= progress_of b)%Q.
Proof.
  intros Hab. unfold progress_of. apply Q.min_le_compat_r.
  unfold Qdiv. apply Qmult_le_compat_r.
  - rewrite <- Zle_Qle. exact Hab.
  - unfold max_wait_time. discriminate.
Qed.

Lemma progress_of_nonneg t : 0 <= t -> (0 <= progress_of t)%Q.
Proof.
  intros Ht. unfold progress_of. apply Q.min_glb; [|discriminate].
  unfold Qdiv. apply Qmult_le_0_compat.
  - change 0%Q with (inject_Z 0). rewrite <- Zle_Qle. exact Ht.
  - unfold max_wait_time. discriminate.
Qed.

Lemma loop_progress_cap n : Forall (fun p => (p <= 9 # 10)%Q) (loop_progress n).
Proof.
  unfold loop_progress. apply Forall_forall. intros p Hp.
  apply list_elem_of_In, in_map_iff in Hp as (k & <- & _). apply progress_of_cap.
Qed.

Lemma loop_progress_nonneg n : Forall (fun p => (0 <= p)%Q) (loop_progress n).
Proof.
  unfold loop_progress. apply Forall_forall. intros p Hp.
  apply list_elem_of_In, in_map_iff in Hp as (k & <- & _). apply progress_of_nonneg. lia.
Qed.

Lemma seq_sorted a n : StronglySorted le (seq a n).
Proof.
  revert a. induction n as [|n IH]; intros a; cbn; constructor; [apply IH|].
  apply Forall_forall. intros k Hk. apply list_elem_of_In, in_seq in Hk. lia.
Qed.

Lemma loop_progress_sorted n : StronglySorted Qle (loop_progress n).
Proof.
  unfold loop_progress.
  change (StronglySorted Qle ((fun k => progress_of (2 * Z.of_nat k)) <$> seq 1 n)).
  apply (StronglySorted_fmap _ le); [|apply seq_sorted].
  intros x y Hxy. apply progress_of_mono. lia.
Qed.

(** The values shown by a run that made [n] iterations are in
    non-decreasing order, with or without the final 1.0. *)
Lemma shown_sorted n (full : bool) :
  StronglySorted Qle ((0%Q :: loop_progress n) ++ (if full then [1%Q] else [])).
Proof.
  apply StronglySorted_app_2.
  - intros p q Hp Hq. destruct full; [|inversion Hq].
    apply list_elem_of_singleton in Hq as ->.
    apply elem_of_cons in Hp as [->|Hp]; [discriminate|].
    apply Qle_trans with (9 # 10)%Q; [|discriminate].
    pose proof (loop_progress_cap n) as Hcap.
    rewrite Forall_forall in Hcap. apply Hcap, Hp.
  - constructor; [apply loop_progress_sorted | apply loop_progress_nonneg].
  - destruct full; repeat constructor.
Qed.

(** ** What the observations tell *)

Lemma last_map_inr (prev : list File) (f : File) :
  last (map (@inr exn File) prev) = Some (inr f) -> f ∈ prev.
Proof.
  change (map (@inr exn File) prev) with ((@inr exn File) <$> prev).
  rewrite fmap_last. destruct (last prev) as [g|] eqn:Hlast; [|discriminate].
  cbn. intros [= ->]. apply last_Some_elem_of, Hlast.
Qed.

Lemma last_map_inr_snoc (prev : list File) (vf : File) :
  last (map (@inr exn File) (prev ++ [vf])) = Some (inr vf).
Proof. rewrite map_app. cbn [map]. apply last_snoc. Qed.

Lemma all_processing_map_inr (prev : list File) :
  all_processing (map inr prev) <-> Forall is_processing prev.
Proof.
  unfold all_processing. rewrite Forall_map. apply Forall_iff.
  intros f. split; [intros (g & [= ->] & Hg); exact Hg | eauto].
Qed.

Lemma processing_not_active f : is_processing f -> state_name f <> "ACTIVE".
Proof. unfold is_processing. intros -> ?. discriminate. Qed.

(** The handle is returned exactly when the last state observed is
    [ACTIVE]. *)
Lemma upload_result_iff path w f :
  let r := upload_video_to_gemini path w in
  result r = Ok (Some f) <->
  last (observations (events r)) = Some (inr f) /\ state_name f = "ACTIVE".
Proof.
  cbv zeta.
  destruct (upload_video_to_gemini_outcome path w)
    as [e Hup Hres Hev | prev vf Hprev Hn Hvf [Hobs _ _ _ _ _] _ Hres
        | prev Hprev Hn [Hobs _ _ _ _ _] _ Hres
        | prev e Hprev Hn [Hobs _ _ _ _ _] _ Hres];
    rewrite Hres.
  - rewrite Hev. cbn. split; [discriminate | intros [[=] _]].
  - rewrite Hobs, last_map_inr_snoc.
    destruct (String.eqb (state_name vf) "ACTIVE") eqn:Hact.
    + apply String.eqb_eq in Hact. split; [intros [= <-] | intros [[= <-] _]]; auto.
    + apply String.eqb_neq in Hact.
      split; [discriminate | intros [[= <-] ?]; contradiction].
  - rewrite Hobs. split; [discriminate|]. intros [Hlast Hact].
    apply last_map_inr in Hlast. rewrite Forall_forall in Hprev.
    exfalso. exact (processing_not_active f (Hprev f Hlast) Hact).
  - rewrite Hobs, last_snoc. split; [discriminate | intros [[=] _]].
Qed.

(** The timeout is reported exactly on 151 observations, all
    [PROCESSING]. *)
Lemma timeout_iff path w :
  let evs := events (upload_video_to_gemini path w) in
  In timeout_message (errors evs) <->
  length (observations evs) = 151%nat /\ all_processing (observations evs).
Proof.
  cbv zeta.
  destruct (upload_video_to_gemini_outcome path w)
    as [e Hup Hres Hev | prev vf Hprev Hn Hvf [Hobs _ _ _ _ Herr] _ Hres
        | prev Hprev Hn [Hobs _ _ _ _ Herr] _ Hres
        | prev e Hprev Hn [Hobs _ _ _ _ Herr] _ Hres].
  - rewrite Hev. cbn. split; [intros [[=]|[]] | intros [[=] _]].
  - rewrite Herr, Hobs. split.
    + destruct (String.eqb (state_name vf) "FAILED"); [intros [[=]|[]] | intros []].
    + intros [_ Hall]. apply all_processing_map_inr, Forall_app in Hall as [_ Hlast].
      inversion Hlast; subst. contradiction.
  - rewrite Herr, Hobs, length_map. split; [|left; reflexivity].
    intros _. split; [assumption | apply all_processing_map_inr, Hprev].
  - rewrite Herr, Hobs. split; [intros [[=]|[]]|].
    intros [_ Hall]. apply Forall_app in Hall as [_ Hlast].
    inversion Hlast as [|? ? (g & Hg & _)]. discriminate Hg.
Qed.

(** The replies a run of the poller observes are the service's. *)
Lemma observations_from_oracle path w :
  from_oracle (remote w) path (get_file_count w)
    (observations (events (upload_video_to_gemini path w))).
Proof.
  destruct (upload_video_to_gemini_outcome path w)
    as [e Hup Hres Hev | prev vf Hprev Hn Hvf [Hobs _ _ _ _ _] Hor Hres
        | prev Hprev Hn [Hobs _ _ _ _ _] Hor Hres
        | prev e Hprev Hn [Hobs _ _ _ _ _] Hor Hres];
    try (rewrite Hobs; exact Hor).
  rewrite Hev. intros [|k] o Hk; cbn in Hk; [|discriminate].
  injection Hk as <-. symmetry. exact Hup.
Qed.

(** The first reply observed is the reply to the upload. *)
Lemma first_observation path w o obs :
  observations (events (upload_video_to_gemini path w)) = o :: obs ->
  o = upload_file_reply (remote w) path.
Proof.
  intros Hobs. pose proof (observations_from_oracle path w) as Hor.
  rewrite Hobs in Hor. exact (Hor 0%nat o eq_refl).
Qed.

(** After an upload that was answered with a file, the files observed
    start with that file. *)
Lemma first_file path w vf0 (files : list File) (rest : list (exn + File)) :
  upload_file_reply (remote w) path = inr vf0 ->
  observations (events (upload_video_to_gemini path w)) = map inr files ++ rest ->
  files = [] \/ exists tl, files = vf0 :: tl.
Proof.
  intros Hup Hobs. destruct files as [|f tl]; [left; reflexivity | right].
  cbn in Hobs. apply first_observation in Hobs. rewrite Hup in Hobs.
  injection Hobs as ->. eauto.
Qed.

(** * The poller: claims C9, C10 and C3 *)

(** C9.  When the reply to the upload already carries state [ACTIVE], the
    poller makes no iteration: it neither sleeps nor calls [genai.get_file],
    shows no status line, sets the progress bar to 1.0 right after creating
    it at 0 and returns the handle it was given. *)
Theorem active_on_first_query path w vf :
  upload_file_reply (remote w) path = inr vf ->
  state_name vf = "ACTIVE" ->
  let r := upload_video_to_gemini path w in
  result r = Ok (Some vf) /\
  get_file_calls (events r) = [] /\
  sleeps (events r) = [] /\
  status_texts (events r) = [] /\
  progress_values (events r) = [0%Q; 1%Q] /\
  observations (events r) = [inr vf].
Proof.
  intros Hup Hact. cbv zeta.
  assert (Hnp : ~ is_processing vf) by (intros Hp; exact (processing_not_active vf Hp Hact)).
  destruct (upload_video_to_gemini_outcome path w)
    as [e Hup' Hres Hev | prev vf' Hprev Hn Hvf Hfacts _ Hres
        | prev Hprev Hn Hfacts _ Hres
        | prev e Hprev Hn Hfacts _ Hres].
  - rewrite Hup in Hup'. discriminate.
  - destruct Hfacts as [Hobs Hp Hs Hz Hg He].
    destruct prev as [|p tl].
    + cbn in Hobs. pose proof (first_observation _ _ _ _ Hobs) as Hfirst.
      rewrite Hup in Hfirst. injection Hfirst as ->.
      apply String.eqb_eq in Hact. rewrite Hact in Hres.
      cbn in Hg. apply nil_length_inv in Hg.
      split_and!; assumption.
    + rewrite <- (app_nil_r (map inr ((p :: tl) ++ [vf']))) in Hobs.
      destruct (first_file _ _ _ _ _ Hup Hobs) as [[=]|(tl' & [= -> _])].
      inversion Hprev; subst. contradiction.
  - destruct Hfacts as [Hobs _ _ _ _ _].
    rewrite <- (app_nil_r (map inr prev)) in Hobs.
    destruct (first_file _ _ _ _ _ Hup Hobs) as [->|(tl' & ->)]; [discriminate|].
    inversion Hprev; subst. contradiction.
  - destruct Hfacts as [Hobs _ _ _ _ _].
    destruct (first_file _ _ _ _ _ Hup Hobs) as [->|(tl' & ->)]; [cbn in Hn; lia|].
    inversion Hprev; subst. contradiction.
Qed.

Lemma length_loop_status n : length (loop_status n) = n.
Proof. unfold loop_status. rewrite length_map, length_seq. reflexivity. Qed.

Lemma loop_status_lookup n k :
  (k < n)%nat ->
  loop_status n !! k = Some (status_line (2 * Z.of_nat (S k)) "PROCESSING").
Proof.
  intros Hk. unfold loop_status.
  change (map ?f ?l) with (f <$> l). rewrite list_lookup_fmap.
  rewrite lookup_seq_lt by assumption. reflexivity.
Qed.

(** C10.  The [k]-th status line shows a wait of [2 * k]: the counter moves
    in steps of 2.  A run makes at most 151 iterations, and each of the
    first 150 ends in a sleep and a re-query: the iteration that shows 300
    still re-queries.  The timeout is reported exactly by the runs of 151
    iterations, after the status line of 302, and exactly by the runs whose
    151 observations are all [PROCESSING]. *)
Theorem timeout_boundary path w :
  let evs := events (upload_video_to_gemini path w) in
  let n := length (status_texts evs) in
  status_texts evs = loop_status n /\
  (n <= 151)%nat /\
  length (get_file_calls evs) = Nat.min n 150 /\
  sleeps evs = repeat 2 (Nat.min n 150) /\
  ((150 <= n)%nat ->
   status_texts evs !! 149%nat = Some (status_line 300 "PROCESSING") /\
   length (get_file_calls evs) = 150%nat) /\
  (In timeout_message (errors evs) <-> n = 151%nat) /\
  (n = 151%nat -> last (status_texts evs) = Some (status_line 302 "PROCESSING")) /\
  (In timeout_message (errors evs) <->
   length (observations evs) = 151%nat /\ all_processing (observations evs)).
Proof.
  cbv zeta. pose proof (timeout_iff path w) as Hiff. cbv zeta in Hiff.
  assert (Hcore :
    let evs := events (upload_video_to_gemini path w) in
    let n := length (status_texts evs) in
    status_texts evs = loop_status n /\ (n <= 151)%nat /\
    length (get_file_calls evs) = Nat.min n 150 /\
    sleeps evs = repeat 2 (Nat.min n 150) /\
    (In timeout_message (errors evs) <-> n = 151%nat)).
  { cbv zeta.
    destruct (upload_video_to_gemini_outcome path w)
      as [e Hup Hres Hev | prev vf Hprev Hn Hvf [Hobs Hp Hs Hz Hg Herr] _ Hres
          | prev Hprev Hn [Hobs Hp Hs Hz Hg Herr] _ Hres
          | prev e Hprev Hn [Hobs Hp Hs Hz Hg Herr] _ Hres].
    - rewrite Hev. cbn. split_and!; try reflexivity; try lia.
      split; [intros [[=]|[]] | discriminate].
    - rewrite Hs, Hz, Hg, Herr, length_loop_status.
      rewrite Nat.min_l by lia. split_and!; try reflexivity; try lia.
      split; [|lia].
      destruct (String.eqb (state_name vf) "FAILED"); [intros [[=]|[]] | intros []].
    - rewrite Hs, Hz, Hg, Herr, length_loop_status.
      split_and!; try reflexivity; try lia.
      split; [reflexivity | left; reflexivity].
    - rewrite Hs, Hz, Hg, Herr, length_loop_status.
      rewrite Nat.min_l by lia. split_and!; try reflexivity; try lia.
      split; [intros [[=]|[]] | lia]. }
  cbv zeta in Hcore. destruct Hcore as (Hs & Hn & Hg & Hz & Ht).
  split_and!; try assumption.
  - intros H150. split.
    + rewrite Hs. rewrite loop_status_lookup by lia. reflexivity.
    + rewrite Hg. lia.
  - intros H151. rewrite Hs, H151, last_lookup, length_loop_status.
    rewrite loop_status_lookup by (cbn; lia). reflexivity.
Qed.

(** C9 at [Samples.ready_world]. *)
Lemma active_on_first_query_witness :
  upload_file_reply (remote Samples.ready_world) "/tmp/tmpa1b2c3d4.mp4"
  = inr Samples.active /\
  state_name Samples.active = "ACTIVE" /\
  result (upload_video_to_gemini "/tmp/tmpa1b2c3d4.mp4" Samples.ready_world)
  = Ok (Some Samples.active) /\
  get_file_calls
    (events (upload_video_to_gemini "/tmp/tmpa1b2c3d4.mp4" Samples.ready_world)) = [].
Proof.
  split; [reflexivity|]. split; [reflexivity|].
  pose proof (active_on_first_query "/tmp/tmpa1b2c3d4.mp4" Samples.ready_world
                Samples.active eq_refl eq_refl) as H.
  cbv zeta in H. destruct H as (Hres & Hcalls & _). split; assumption.
Defined.

(** C3, counterexample.  The service answers the upload with state [FAILED]:
    the loop is not entered, the bar is set to 1.0 and the failure is
    reported; no [ACTIVE] state was ever observed. *)
Lemma progress_full_on_failed :
  let r := upload_video_to_gemini "/tmp/tmpa1b2c3d4.mp4" Samples.failed_world in
  observed_states (events r) = ["FAILED"] /\
  progress_values (events r) = [0%Q; 1%Q] /\
  result r = Ok None /\
  ~ capped_until_active (events r).
Proof.
  cbv zeta.
  assert (Hobs : observed_states
                   (events (upload_video_to_gemini "/tmp/tmpa1b2c3d4.mp4"
                              Samples.failed_world)) = ["FAILED"])
    by (vm_compute; reflexivity).
  assert (Hpv : progress_values
                  (events (upload_video_to_gemini "/tmp/tmpa1b2c3d4.mp4"
                             Samples.failed_world)) = [0%Q; 1%Q])
    by (vm_compute; reflexivity).
  split_and!; [exact Hobs | exact Hpv | vm_compute; reflexivity |].
  unfold capped_until_active. rewrite Hobs, Hpv. intros Hcap.
  assert (Hno : ~ In "ACTIVE" ["FAILED"]) by (intros [[=]|[]]).
  specialize (Hcap Hno). inversion Hcap as [|? ? _ Htl]; subst.
  inversion Htl as [|? ? Hone _]; subst. vm_compute in Hone. apply Hone. reflexivity.
Qed.

(** C3, amended.  The values shown on the progress bar are in non-decreasing
    order.  When the loop is left because a state other than [PROCESSING]
    was observed, be it [ACTIVE], [FAILED] or an unexpected one, the last
    value shown is 1.0 and all values before it are at most 0.9; in every
    other run (timeout, fault of the service) all values are at most 0.9. *)
Theorem progress_monotone_capped path w :
  let evs := events (upload_video_to_gemini path w) in
  StronglySorted Qle (progress_values evs) /\
  (settled_state evs ->
   exists shown, progress_values evs = shown ++ [1%Q] /\
                 Forall (fun p => (p <= 9 # 10)%Q) shown) /\
  (~ settled_state evs -> Forall (fun p => (p <= 9 # 10)%Q) (progress_values evs)).
Proof.
  cbv zeta. unfold settled_state.
  assert (Hshown : forall n, Forall (fun p => (p <= 9 # 10)%Q) (0%Q :: loop_progress n))
    by (intros n; constructor; [discriminate | apply loop_progress_cap]).
  destruct (upload_video_to_gemini_outcome path w)
    as [e Hup Hres Hev | prev vf Hprev Hn Hvf [Hobs Hp _ _ _ _] _ Hres
        | prev Hprev Hn [Hobs Hp _ _ _ _] _ Hres
        | prev e Hprev Hn [Hobs Hp _ _ _ _] _ Hres].
  - rewrite Hev. cbn. split_and!; [constructor | | constructor].
    intros (f & [=] & _).
  - rewrite Hp, Hobs. split_and!.
    + apply (shown_sorted _ true).
    + intros _. exists (0%Q :: loop_progress (length prev)). split; [reflexivity | apply Hshown].
    + intros Hns. exfalso. apply Hns. exists vf.
      split; [apply last_map_inr_snoc | assumption].
  - rewrite Hp, Hobs. split_and!.
    + apply (shown_sorted _ false).
    + intros (f & Hlast & Hf). apply last_map_inr in Hlast.
      rewrite Forall_forall in Hprev. exfalso. exact (Hf (Hprev f Hlast)).
    + intros _. rewrite app_nil_r. apply Hshown.
  - rewrite Hp, Hobs. split_and!.
    + apply (shown_sorted _ false).
    + rewrite last_snoc. intros (f & [=] & _).
    + intros _. rewrite app_nil_r. apply Hshown.
Qed.

(** * The pipeline: claims C1, C2, C4, C8, C6, C7 and C5 *)

Lemma extract_and_summarize_result vf w :
  result (extract_and_summarize vf w) = Ok tt.
Proof.
  pose proof (extract_and_summarize_run vf w) as Hrun. cbv zeta in Hrun.
  rewrite Hrun, extract_text_from_video_result.
  destruct (reply_text _) as [t|]; [|reflexivity].
  destruct (str_truthy t); [|reflexivity].
  rewrite summarize_text_result.
  destruct (reply_text _) as [s|]; [|reflexivity].
  destruct (str_truthy s); reflexivity.
Qed.

(** [run_stages] in terms of its two parts; it always returns. *)
Lemma run_stages_run path w :
  let r1 := upload_video_to_gemini path w in
  exists x, result r1 = Ok x /\
  run_stages path w =
  match x with
  | Some vf =>
      let r2 := extract_and_summarize vf (final r1) in
      mkRun (Ok tt) (final r2) (events r1 ++ events r2)
  | None => mkRun (Ok tt) (final r1) (events r1)
  end.
Proof.
  cbv zeta. destruct (upload_video_to_gemini_total path w) as [x Hx].
  exists x. split; [exact Hx|].
  unfold run_stages. rewrite bind_run, Hx.
  destruct x as [vf|]; cbn [ret result final events].
  - rewrite extract_and_summarize_result. reflexivity.
  - rewrite app_nil_r. reflexivity.
Qed.

Lemma run_stages_result path w : result (run_stages path w) = Ok tt.
Proof.
  destruct (run_stages_run path w) as (x & _ & ->). destruct x; reflexivity.
Qed.

Lemma cleanup_result path w : result (cleanup path w) = Ok tt.
Proof.
  rewrite cleanup_run. destruct (files w !! path); [|reflexivity].
  destruct (unlink_fault (remote w) path); reflexivity.
Qed.

(** [main], with a key, in terms of the resolver, the stages and the
    cleanup. *)
Lemma main_run inp w :
  str_truthy (api_key inp) = true ->
  let r0 := resolve inp w in
  main inp w =
  match result r0 with
  | Ok video_path =>
      if truthy video_path then
        let path := default "" video_path in
        let r1 := run_stages path (final r0) in
        let r2 := cleanup path (final r1) in
        mkRun (Ok tt) (final r2)
          (upload_header :: events r0 ++ processing_header :: events r1 ++ events r2)
      else mkRun (Ok tt) (final r0) (upload_header :: events r0)
  | Raise e => mkRun (Raise e) (final r0) (upload_header :: events r0)
  | OutOfFuel => mkRun OutOfFuel (final r0) (upload_header :: events r0)
  end.
Proof.
  intros Hkey. cbv zeta. unfold main. rewrite Hkey. cbn [negb].
  rewrite bind_run. cbn [st emit result final events app].
  rewrite bind_run.
  destruct (result (resolve inp w)) as [video_path|e|]; try reflexivity.
  destruct (truthy video_path); cbn [ret result final events];
    [|rewrite app_nil_r; reflexivity].
  rewrite bind_run. cbn [st emit result final events app].
  rewrite bind_run, run_stages_result, cleanup_result. reflexivity.
Qed.

(** Without a key nothing is attempted. *)
Lemma main_without_key inp w :
  str_truthy (api_key inp) = false ->
  final (main inp w) = w /\
  result (main inp w) = Ok tt /\
  Forall (fun ev => kind ev = Ui) (events (main inp w)).
Proof.
  intros Hkey. unfold main. rewrite Hkey. cbn. repeat constructor.
Qed.

(** ** Projections of events of other collaborators *)

Ltac reads_kinds :=
  let ev := fresh "ev" in
  let H := fresh "H" in
  intros ev H; destruct ev; try reflexivity;
  exfalso; apply H; cbn [kind];
  repeat first [apply list_elem_of_here | apply list_elem_of_further].

Ltac disjoint_kinds :=
  repeat constructor;
  let H := fresh "H" in
  intros H;
  repeat (apply elem_of_cons in H as [H|H]; [discriminate H|]);
  inversion H.

Lemma unlinks_reads : reads (B := string)
  (fun ev => match ev with EvUnlink path => Some path | _ => None end) [Fs].
Proof. reads_kinds. Qed.

(** ** The shape of a pipeline run

    Either no stage is reached, and only Streamlit and the HTTP server were
    addressed; or the run is made of the resolver's events, those of the
    poller, those of extraction and summarization when the poller returned
    a handle, and those of the cleanup.  The poller starts in a world with
    the remote service and the query counter of the initial one. *)
Lemma main_stages inp w :
  only [Ui; Http] w (events (main inp w)) w \/
  exists path w1 pre post x,
    only [Ui; Http] w pre w1 /\
    only [Fs] w post w1 /\
    remote w1 = remote w /\
    get_file_count w1 = get_file_count w /\
    result (upload_video_to_gemini path w1) = Ok x /\
    events (main inp w)
    = pre ++ events (upload_video_to_gemini path w1)
      ++ match x with
         | Some vf =>
             events (extract_and_summarize vf (final (upload_video_to_gemini path w1)))
         | None => []
         end
      ++ post.
Proof.
  destruct (str_truthy (api_key inp)) eqn:Hkey.
  2:{ left. unfold main. rewrite Hkey. reflexivity. }
  pose proof (main_run inp w Hkey) as Hrun. cbv zeta in Hrun.
  pose proof (resolve_only inp w) as Hpre.
  destruct (result (resolve inp w)) as [video_path|e|] eqn:Hres;
    try (left; rewrite Hrun; exact Hpre).
  destruct (truthy video_path); [|left; rewrite Hrun; exact Hpre].
  right. set (path := default "" video_path) in *.
  set (w1 := final (resolve inp w)) in *.
  destruct (run_stages_run path w1) as (x & Hx & Hstages). cbv zeta in Hstages.
  exists path, w1, (upload_header :: events (resolve inp w) ++ [processing_header]),
    (events (cleanup path (final (run_stages path w1)))), x.
  split_and!.
  - unfold only in *. cbn [forallb]. rewrite forallb_app, Hpre. reflexivity.
  - apply (cleanup_only path).
  - apply (resolve_keeps_remote inp).
  - apply (resolve_keeps_get_file_count inp).
  - exact Hx.
  - rewrite Hrun. cbn [events]. rewrite Hstages.
    destruct x as [vf|]; cbn [events app]; rewrite <- ?app_assoc; reflexivity.
Qed.

(** The same, read through projections: what is read of the poller's
    collaborators comes from the poller's run, what is read of the
    generation service and of the download buttons comes from the run of
    extraction and summarization, which exists only when the poller returned
    a handle. *)
Lemma main_shape inp w :
  (forall B (f : Event -> option B),
      reads f [Artifact; Clock; Asset; Generation; Fs] ->
      omap f (events (main inp w)) = []) \/
  exists path w1 x,
    remote w1 = remote w /\
    get_file_count w1 = get_file_count w /\
    result (upload_video_to_gemini path w1) = Ok x /\
    (forall B (f : Event -> option B),
        reads f [Clock; Asset] ->
        omap f (events (main inp w))
        = omap f (events (upload_video_to_gemini path w1))) /\
    (forall B (f : Event -> option B),
        reads f [Artifact; Generation] ->
        omap f (events (main inp w))
        = match x with
          | Some vf =>
              omap f (events (extract_and_summarize vf
                                (final (upload_video_to_gemini path w1))))
          | None => []
          end).
Proof.
  destruct (main_stages inp w)
    as [Honly | (path & w1 & pre & post & x & Hpre & Hpost & Hrm & Hc & Hx & Hev)].
  - left. intros B f Hf. eapply omap_reads; [exact Hf | | exact Honly].
    disjoint_kinds.
  - right. exists path, w1, x. split_and!; try assumption.
    + intros B f Hf. rewrite Hev, !omap_app.
      assert (omap f pre = []) as ->
        by (eapply omap_reads; [exact Hf | | exact Hpre]; disjoint_kinds).
      assert (omap f post = []) as ->
        by (eapply omap_reads; [exact Hf | | exact Hpost]; disjoint_kinds).
      destruct x as [vf|]; [|rewrite app_nil_r; reflexivity].
      assert (omap f (events (extract_and_summarize vf
                                (final (upload_video_to_gemini path w1)))) = []) as ->
        by (eapply omap_reads;
            [exact Hf | | apply (extract_and_summarize_only vf)]; disjoint_kinds).
      rewrite !app_nil_r. reflexivity.
    + intros B f Hf. rewrite Hev, !omap_app.
      assert (omap f pre = []) as ->
        by (eapply omap_reads; [exact Hf | | exact Hpre]; disjoint_kinds).
      assert (omap f post = []) as ->
        by (eapply omap_reads; [exact Hf | | exact Hpost]; disjoint_kinds).
      assert (omap f (events (upload_video_to_gemini path w1)) = []) as ->
        by (eapply omap_reads;
            [exact Hf | | apply (upload_video_to_gemini_only path)]; disjoint_kinds).
      destruct x as [vf|]; rewrite ?app_nil_r; reflexivity.
Qed.

(** In a pipeline run, a generation call is made only when the last state
    the poller observed is [ACTIVE]. *)
Lemma generate_requires_active inp w :
  ~ ended_active (events (main inp w)) ->
  generate_requests (events (main inp w)) = [].
Proof.
  intros Hnot. unfold generate_requests.
  destruct (main_shape inp w) as [Hnone | (path & w1 & x & _ & _ & Hx & Hpoll & Hgen)].
  - apply Hnone. reads_kinds.
  - erewrite Hgen by reads_kinds.
    destruct x as [vf|]; [|reflexivity].
    exfalso. apply Hnot. exists vf. unfold observations.
    erewrite Hpoll by reads_kinds.
    apply (upload_result_iff path w1 vf), Hx.
Qed.

(** C1.  The poller always returns, and it returns a handle exactly when the
    last reply it observed carried state [ACTIVE], the handle being the file
    of that reply: after [FAILED], after any other state, after a timeout
    (where the last state observed is [PROCESSING]) and after a fault it
    returns [None].  In a pipeline run whose last observed state is not
    [ACTIVE], [generate_content] is never called: neither extraction nor
    summarization is attempted. *)
Theorem handle_iff_active path inp w :
  let r := upload_video_to_gemini path w in
  (exists x, result r = Ok x) /\
  (forall f, result r = Ok (Some f) <->
             last (observations (events r)) = Some (inr f) /\
             state_name f = "ACTIVE") /\
  (~ ended_active (events (main inp w)) ->
   generate_requests (events (main inp w)) = []).
Proof.
  cbv zeta. split_and!.
  - apply upload_video_to_gemini_total.
  - intros f. apply upload_result_iff.
  - apply generate_requires_active.
Qed.

Lemma observations_length path w :
  (length (observations (events (upload_video_to_gemini path w))) <= 151)%nat.
Proof.
  destruct (upload_video_to_gemini_outcome path w)
    as [e Hup Hres Hev | prev vf Hprev Hn Hvf [Hobs _ _ _ _ _] _ Hres
        | prev Hprev Hn [Hobs _ _ _ _ _] _ Hres
        | prev e Hprev Hn [Hobs _ _ _ _ _] _ Hres];
    [rewrite Hev; cbn; lia | rewrite Hobs ..];
    rewrite ?length_app, ?length_map, ?length_app; cbn; lia.
Qed.

Lemma stays_processing_observed path w :
  stays_processing path w ->
  all_processing (observations (events (upload_video_to_gemini path w))).
Proof.
  intros [(f0 & Hup & Hf0) Hget].
  pose proof (observations_from_oracle path w) as Hor.
  pose proof (observations_length path w) as Hlen.
  apply Forall_lookup. intros k o Hk.
  pose proof (lookup_lt_Some _ _ _ Hk) as Hlt.
  specialize (Hor k o Hk). destruct k as [|k].
  - subst o. eauto.
  - destruct Hor as (file & ->). apply Hget. lia.
Qed.

(** A run that observes nothing but [PROCESSING] ends in the timeout. *)
Lemma stuck_run path w :
  let r := upload_video_to_gemini path w in
  all_processing (observations (events r)) ->
  result r = Ok None /\
  errors (events r) = [timeout_message] /\
  length (observations (events r)) = 151%nat /\
  length (get_file_calls (events r)) = 150%nat.
Proof.
  cbv zeta.
  destruct (upload_video_to_gemini_outcome path w)
    as [e Hup Hres Hev | prev vf Hprev Hn Hvf [Hobs _ _ _ Hg Herr] _ Hres
        | prev Hprev Hn [Hobs _ _ _ Hg Herr] _ Hres
        | prev e Hprev Hn [Hobs _ _ _ Hg Herr] _ Hres].
  - rewrite Hev. cbn. intros Hall. inversion Hall as [|? ? (g & Hg & _)]. discriminate Hg.
  - rewrite Hobs. intros Hall.
    apply all_processing_map_inr, Forall_app in Hall as [_ Hlast].
    inversion Hlast; subst. contradiction.
  - rewrite Hobs, length_map. intros _. split_and!; assumption.
  - rewrite Hobs. intros Hall. apply Forall_app in Hall as [_ Hlast].
    inversion Hlast as [|? ? (g & Hg' & _)]. discriminate Hg'.
Qed.

(** C2.  When the service keeps answering [PROCESSING], the upload and each
    of the 150 re-queries, the poller reports the timeout and returns
    [None], having observed 151 [PROCESSING] states; and a pipeline run in
    such a world never calls [generate_content]. *)
Theorem timeout_aborts inp w :
  (forall path, stays_processing path w) ->
  (forall path,
      let r := upload_video_to_gemini path w in
      result r = Ok None /\
      errors (events r) = [timeout_message] /\
      length (observations (events r)) = 151%nat /\
      length (get_file_calls (events r)) = 150%nat) /\
  generate_requests (events (main inp w)) = [].
Proof.
  intros Hstuck. split.
  - intros path. apply stuck_run, stays_processing_observed, Hstuck.
  - unfold generate_requests.
    destruct (main_shape inp w) as [Hnone | (path & w1 & x & Hrm & Hc & Hx & _ & Hgen)].
    + apply Hnone. reads_kinds.
    + erewrite Hgen by reads_kinds.
      assert (Hstuck1 : stays_processing path w1).
      { unfold stays_processing. rewrite Hrm, Hc. apply Hstuck. }
      apply stays_processing_observed, stuck_run in Hstuck1 as (Hres & _).
      rewrite Hres in Hx. injection Hx as <-. reflexivity.
Qed.

(** C2 at [Samples.stuck_world]. *)
Lemma timeout_aborts_witness :
  (forall path, stays_processing path Samples.stuck_world) /\
  result (upload_video_to_gemini "/tmp/tmpa1b2c3d4.mp4" Samples.stuck_world) = Ok None /\
  generate_requests (events (main Samples.upload_mov Samples.stuck_world)) = [].
Proof.
  assert (Hstuck : forall path, stays_processing path Samples.stuck_world).
  { intros path. split.
    - exists Samples.processing. split; reflexivity.
    - intros k file Hk. exists Samples.processing. split; [|reflexivity].
      cbn. unfold Samples.active_after.
      destruct (Nat.ltb_spec k 999); [reflexivity | lia]. }
  split; [exact Hstuck|].
  destruct (timeout_aborts Samples.upload_mov Samples.stuck_world Hstuck) as [Hpoll Hgen].
  split; [apply (Hpoll "/tmp/tmpa1b2c3d4.mp4") | exact Hgen].
Defined.

(** ** Extraction and summarization *)

(** What a run of [extract_and_summarize] shows: one extraction call, on the
    handle; then one summarization call per extracted text that is not
    empty, on the prompt built from that text; and the three download
    buttons when both texts came back and neither is empty. *)
Lemma inference_calls vf w :
  let evs := events (extract_and_summarize vf w) in
  generate_requests evs
  = map (fun f => ReqVideo f extract_prompt) (extract_calls evs)
    ++ map (fun t => ReqText (summary_prompt t))
         (List.filter str_truthy (extracted_texts evs)) /\
  extract_calls evs = [vf] /\
  (length (extracted_texts evs) <= 1)%nat /\
  summarize_calls evs
  = map summary_prompt (List.filter str_truthy (extracted_texts evs)) /\
  (forall E S,
      extracted_texts evs = [E] -> summary_texts evs = [S] ->
      str_truthy E = true -> str_truthy S = true ->
      downloads evs = artifacts E S).
Proof.
  cbv zeta. pose proof (extract_and_summarize_run vf w) as Hrun.
  cbv zeta in Hrun. rewrite Hrun. clear Hrun.
  rewrite extract_text_from_video_result, !extract_text_from_video_run.
  cbv zeta. cbn [result final events].
  destruct (generate_content_reply (remote w) (generate_count w)
              (ReqVideo vf extract_prompt)) as [e|[[e|t]]]; cbn [reply_text].
  - cbn. split_and!; try reflexivity; try lia. intros E S [=].
  - cbn. split_and!; try reflexivity; try lia. intros E S [=].
  - destruct (str_truthy t) eqn:Ht.
    2:{ cbn. rewrite Ht. split_and!; try reflexivity; try lia.
        intros E S [= <-] _ HE. congruence. }
    rewrite summarize_text_result, !summarize_text_run.
    cbv zeta. cbn [result final events set_generate_count remote generate_count].
    destruct (generate_content_reply (remote w) (S (generate_count w))
                (ReqText (summary_prompt t))) as [e|[[e|s]]]; cbn [reply_text].
    + cbn. rewrite Ht. split_and!; try reflexivity; try lia. intros E S _ [=].
    + cbn. rewrite Ht. split_and!; try reflexivity; try lia. intros E S _ [=].
    + destruct (str_truthy s) eqn:Hs.
      * cbn. rewrite Ht. split_and!; try reflexivity; try lia.
        intros E S [= <-] [= <-] _ _. reflexivity.
      * cbn. rewrite Ht. split_and!; try reflexivity; try lia.
        intros E S [= <-] [= <-] _ HS. congruence.
Qed.

(** C4.  In every pipeline run the calls of [generate_content] are: at most
    one extraction call, then one summarization call for each extracted
    text that is not empty, made with the prompt built from that text.
    Extraction returns a text at most once, so summarization is called once
    after a non-empty extracted text and not at all when extraction failed
    or returned the empty text. *)
Theorem summarize_after_extraction inp w :
  let evs := events (main inp w) in
  generate_requests evs
  = map (fun f => ReqVideo f extract_prompt) (extract_calls evs)
    ++ map (fun t => ReqText (summary_prompt t))
         (List.filter str_truthy (extracted_texts evs)) /\
  (length (extract_calls evs) <= 1)%nat /\
  (length (extracted_texts evs) <= 1)%nat /\
  summarize_calls evs
  = map summary_prompt (List.filter str_truthy (extracted_texts evs)).
Proof.
  cbv zeta.
  unfold generate_requests, extract_calls, extracted_texts, summarize_calls.
  destruct (main_shape inp w) as [Hnone | (path & w1 & x & _ & _ & _ & _ & Hgen)].
  - rewrite !Hnone by reads_kinds. cbn. split_and!; try reflexivity; lia.
  - erewrite !Hgen by reads_kinds.
    destruct x as [vf|]; [|cbn; split_and!; try reflexivity; lia].
    destruct (inference_calls vf (final (upload_video_to_gemini path w1)))
      as (Hreq & Hcalls & Hlen & Hsum & _).
    unfold generate_requests, extract_calls, extracted_texts, summarize_calls in *.
    rewrite Hcalls in *. split_and!; try assumption. cbn. lia.
Qed.

(** The scenario of the specification: extraction returns
    ["Speaker 1: Hello."], and summarization is called once, on the prompt
    built from that text. *)
Example summarize_called_once :
  let evs := events (main Samples.upload_mov Samples.ready_world) in
  extracted_texts evs = ["Speaker 1: Hello."] /\
  summarize_calls evs = [summary_prompt "Speaker 1: Hello."].
Proof. vm_compute. split; reflexivity. Qed.

(** C8.  In a pipeline run where extraction returned [E] and summarization
    returned [S], neither empty, three download buttons are shown, in this
    order: [E] as [extracted_text.txt], [S] as [video_summary.txt], and as
    [video_analysis_report.txt] the text made of the header
    [EXTRACTED TEXT:], a rule of 50 dashes, [E], two empty lines, the header
    [SUMMARY:], a rule of 50 dashes and [S]. *)
Theorem download_artifacts inp w E S :
  let evs := events (main inp w) in
  extracted_texts evs = [E] ->
  summary_texts evs = [S] ->
  str_truthy E = true ->
  str_truthy S = true ->
  downloads evs
  = [("extracted_text.txt", E);
     ("video_summary.txt", S);
     ("video_analysis_report.txt",
      "EXTRACTED TEXT:" +:+ nl +:+ str_mul "-" 50 +:+ nl +:+ E
      +:+ nl +:+ nl +:+ nl +:+ "SUMMARY:" +:+ nl +:+ str_mul "-" 50 +:+ nl +:+ S)].
Proof.
  cbv zeta. unfold extracted_texts, summary_texts, downloads.
  destruct (main_shape inp w) as [Hnone | (path & w1 & x & _ & _ & _ & _ & Hgen)].
  - rewrite !Hnone by reads_kinds. discriminate.
  - erewrite !Hgen by reads_kinds.
    destruct x as [vf|]; [|discriminate].
    destruct (inference_calls vf (final (upload_video_to_gemini path w1)))
      as (_ & _ & _ & _ & Hdl).
    apply Hdl.
Qed.

(** C8 at [Samples.ready_world]. *)
Lemma download_artifacts_witness :
  let evs := events (main Samples.upload_mov Samples.ready_world) in
  extracted_texts evs = ["Speaker 1: Hello."] /\
  summary_texts evs = ["A greeting."] /\
  downloads evs
  = [("extracted_text.txt", "Speaker 1: Hello.");
     ("video_summary.txt", "A greeting.");
     ("video_analysis_report.txt",
      "EXTRACTED TEXT:" +:+ nl +:+ str_mul "-" 50 +:+ nl +:+ "Speaker 1: Hello."
      +:+ nl +:+ nl +:+ nl +:+ "SUMMARY:" +:+ nl +:+ str_mul "-" 50 +:+ nl
      +:+ "A greeting.")].
Proof.
  cbv zeta. split; [vm_compute; reflexivity|]. split; [vm_compute; reflexivity|].
  apply (download_artifacts Samples.upload_mov Samples.ready_world
           "Speaker 1: Hello." "A greeting."); vm_compute; reflexivity.
Defined.

(** C6, counterexample.  The service answers the extraction call with a
    response whose text is the empty string: [extract_text_from_video]
    reports success, reports no error and returns the empty string. *)
Lemma extraction_returns_empty_text :
  let r := extract_text_from_video Samples.active Samples.silent_world in
  result r = Ok (Some "") /\
  errors (events r) = [] /\
  successes (events r) = ["✅ Text extraction completed!"] /\
  ~ never_empty_text Samples.active Samples.silent_world.
Proof.
  cbv zeta.
  assert (H : result (extract_text_from_video Samples.active Samples.silent_world)
              = Ok (Some "")) by (vm_compute; reflexivity).
  split_and!; [exact H | vm_compute; reflexivity | vm_compute; reflexivity |].
  intros Hnever. exact (Hnever H).
Qed.

(** C6, amended.  [extract_text_from_video] returns the text of the
    service's response, whatever it is, and [None] when there is none;
    it reports an error exactly when the call raised or when reading the
    text of the response raised, and these are the cases where it returns
    [None].  When it returns the empty string, the pipeline goes no further:
    no summarization call is made and no download button is shown. *)
Theorem extraction_outcome vf w :
  let reply := generate_content_reply (remote w) (generate_count w)
                 (ReqVideo vf extract_prompt) in
  let r := extract_text_from_video vf w in
  result r = Ok (reply_text reply) /\
  errors (events r)
  = match reply_fault reply with
    | Some e => [extract_error_message e]
    | None => []
    end /\
  (result r = Ok None <-> reply_fault reply <> None) /\
  (result r = Ok (Some "") ->
   summarize_calls (events (extract_and_summarize vf w)) = [] /\
   downloads (events (extract_and_summarize vf w)) = []).
Proof.
  cbv zeta. pose proof (extract_and_summarize_run vf w) as Hrun. cbv zeta in Hrun.
  rewrite Hrun. clear Hrun.
  rewrite extract_text_from_video_result, !extract_text_from_video_run.
  cbv zeta. cbn [result final events].
  destruct (generate_content_reply (remote w) (generate_count w)
              (ReqVideo vf extract_prompt)) as [e|[[e|t]]];
    cbn [reply_text reply_fault].
  - cbn. split_and!; try reflexivity; [split; congruence | discriminate].
  - cbn. split_and!; try reflexivity; [split; congruence | discriminate].
  - split_and!; try reflexivity.
    + split; [discriminate | congruence].
    + intros [= ->]. cbn. split; reflexivity.
Qed.

(** ** The resolver *)

Lemma bind_Ok_inv {A B} (m : M A) (k : A -> M B) w b :
  result (bind m k w) = Ok b ->
  exists a, result (m w) = Ok a /\
            result (k a (final (m w))) = Ok b /\
            final (bind m k w) = final (k a (final (m w))).
Proof.
  rewrite bind_run. destruct (result (m w)) as [a|e|]; cbn; [|discriminate..].
  intros Hk. exists a. auto.
Qed.

Lemma try_except_Ok_inv {A} (m : M A) (h : exn -> M A) w b :
  result (try_except m h w) = Ok b ->
  (result (m w) = Ok b /\ final (try_except m h w) = final (m w)) \/
  (exists e, result (m w) = Raise e /\ result (h e (final (m w))) = Ok b).
Proof.
  unfold try_except. destruct (m w) as [[a|e|] w1 evs1]; cbn; [auto | | discriminate].
  destruct (h e w1) as [r w2 evs2] eqn:Hh; cbn. intros ->. right. exists e.
  rewrite Hh. auto.
Qed.

Lemma mkstemp_Some candidates suffix fs path rest :
  mkstemp candidates suffix fs = Some (path, rest) ->
  fs !! path = None /\
  exists stem, In stem candidates /\ path = stem +:+ suffix.
Proof.
  induction candidates as [|c candidates IH]; cbn; [discriminate|].
  destruct (fs !! (c +:+ suffix)) eqn:Hc.
  - intros H. destruct (IH H) as (Hfresh & stem & Hin & ->). eauto.
  - intros [= <- <-]. eauto.
Qed.

Lemma NamedTemporaryFile_Ok suffix w path :
  result (NamedTemporaryFile suffix w) = Ok path ->
  files w !! path = None /\
  (exists stem, In stem (tmp_names w) /\ path = stem +:+ suffix) /\
  files (final (NamedTemporaryFile suffix w)) = <[path := []]> (files w).
Proof.
  unfold NamedTemporaryFile.
  destruct (mkstemp (tmp_names w) suffix (files w)) as [[p rest]|] eqn:Hmk;
    cbn; [|discriminate].
  intros [= ->]. apply mkstemp_Some in Hmk as [Hfresh Hstem]. auto.
Qed.

(** The loop of [download_video] appends the chunks to the file. *)
Lemma download_chunks (temp_file : string) (total_size : Z) chunks :
  forall downloaded w content,
    files w !! temp_file = Some content ->
    let r :=
      for_each chunks
        (fun chunk downloaded =>
           file_write temp_file chunk ;;
           if total_size >? 0 then
             progress_bar_progress
               (inject_Z (downloaded + Z.of_nat (length chunk))
                / inject_Z total_size) ;;
             ret (downloaded + Z.of_nat (length chunk))
           else ret downloaded)
        downloaded w in
    (exists d, result r = Ok d) /\
    files (final r) = <[temp_file := content ++ concat chunks]> (files w).
Proof.
  induction chunks as [|chunk chunks IH]; intros downloaded w content Hc; cbv zeta.
  - cbn. split; [eauto|]. rewrite app_nil_r. symmetry. apply insert_id, Hc.
  - cbn [for_each]. rewrite bind_run.
    set (w' := set_files (<[temp_file := content ++ chunk]> (files w)) w).
    assert (Hstep : forall d, exists d',
               (file_write temp_file chunk ;;
                if total_size >? 0 then
                  progress_bar_progress
                    (inject_Z (d + Z.of_nat (length chunk)) / inject_Z total_size) ;;
                  ret (d + Z.of_nat (length chunk))
                else ret d) w
               = mkRun (Ok d') w'
                   (if total_size >? 0
                    then [EvProgress (inject_Z (d + Z.of_nat (length chunk))
                                      / inject_Z total_size)]
                    else [])).
    { intros d. unfold bind, file_write. rewrite Hc.
      destruct (total_size >? 0); cbn; eauto. }
    destruct (Hstep downloaded) as (d' & ->). cbn [result final events].
    assert (Hc' : files w' !! temp_file = Some (content ++ chunk))
      by apply lookup_insert_eq.
    destruct (IH d' w' _ Hc') as [Hres Hfiles]. split; [exact Hres|].
    rewrite Hfiles. cbn [files w' set_files]. rewrite insert_insert_eq.
    cbn [concat]. rewrite app_assoc. reflexivity.
Qed.

Lemma raise_for_status_final response w : final (raise_for_status response w) = w.
Proof. unfold raise_for_status. destruct (_ && _); reflexivity. Qed.

Lemma download_video_Some url w path :
  result (download_video url w) = Ok (Some path) ->
  exists response,
    requests_get_reply (remote w) url = inr response /\
    files w !! path = None /\
    (exists stem, In stem (tmp_names w) /\ path = stem +:+ ".mp4") /\
    files (final (download_video url w)) !! path
    = Some (concat (iter_content response)).
Proof.
  unfold download_video. intros H.
  apply try_except_Ok_inv in H as [[Hbody Hfin] | (e & _ & Hh)];
    [|cbn in Hh; discriminate].
  rewrite Hfin. clear Hfin. cbv zeta in *.
  apply bind_Ok_inv in Hbody as ([] & _ & Hbody & ->). cbn [st emit final] in *.
  apply bind_Ok_inv in Hbody as (response & Hget & Hbody & ->).
  cbn [requests_get result final] in *.
  destruct (requests_get_reply (remote w) url) as [e|response'] eqn:Hreply;
    cbn in Hget; [discriminate|]. injection Hget as ->.
  exists response. split; [reflexivity|].
  apply bind_Ok_inv in Hbody as ([] & _ & Hbody & ->).
  rewrite raise_for_status_final in *.
  apply bind_Ok_inv in Hbody as (temp_file & Htmp & Hbody & ->).
  apply NamedTemporaryFile_Ok in Htmp as (Hfresh & Hstem & Hfiles).
  set (w2 := final (NamedTemporaryFile ".mp4" w)) in *.
  apply bind_Ok_inv in Hbody as ([] & _ & Hbody & ->).
  assert (Hw2 : final ((if default 0 (content_length response) >? 0
                        then st_progress 0 else ret ()) w2) = w2)
    by (destruct (_ >? _); reflexivity).
  rewrite Hw2 in *. clear Hw2.
  apply bind_Ok_inv in Hbody as (d & _ & Hbody & ->).
  assert (Hempty : files w2 !! temp_file = Some [])
    by (rewrite Hfiles; apply lookup_insert_eq).
  destruct (download_chunks temp_file (default 0 (content_length response))
              (iter_content response) 0 w2 [] Hempty) as [_ Hloop].
  cbv zeta in Hloop. cbn [app] in Hloop.
  match type of Hloop with files (final ?r) = _ => set (w3 := final r) in * end.
  apply bind_Ok_inv in Hbody as ([] & Hfault & Hbody & ->).
  assert (Hw3 : final (match stream_fault response with
                       | Some e => raise e
                       | None => ret ()
                       end w3) = w3)
    by (destruct (stream_fault response); reflexivity).
  rewrite Hw3 in *. clear Hw3.
  cbn in Hbody. injection Hbody as <-. cbn [bind st emit ret final].
  split_and!; try assumption.
  rewrite Hloop. apply lookup_insert_eq.
Qed.

Lemma resolve_Some inp w path :
  result (resolve inp w) = Ok (Some path) ->
  exists bytes,
    source_bytes inp w = Some bytes /\
    files w !! path = None /\
    (exists stem, In stem (tmp_names w) /\ path = stem +:+ ".mp4") /\
    files (final (resolve inp w)) !! path = Some bytes.
Proof.
  unfold resolve, url_tab, upload_tab, source_bytes. intros H.
  apply bind_Ok_inv in H as (video_path & Hurl & Hup & ->).
  apply bind_Ok_inv in Hurl as ([] & _ & Hurl & Hf1).
  rewrite Hf1 in *. clear Hf1. cbn [st emit final] in *.
  apply bind_Ok_inv in Hup as ([] & _ & Hup & ->). cbn [st emit final] in *.
  destruct (clicked inp).
  - cbn in Hurl. injection Hurl as <-. cbn in Hup. discriminate.
  - cbn [ret result final] in Hup. injection Hup as ->. cbn [ret final].
    destruct (str_truthy (video_url inp)).
    + apply download_video_Some in Hurl
        as (response & -> & Hfresh & Hstem & Hfiles). eauto.
    + cbn in Hurl. discriminate.
  - cbn in Hurl. injection Hurl as <-. cbn [ret final] in *.
    destruct (uploaded_file inp) as [uploaded|]; [|cbn in Hup; discriminate].
    apply bind_Ok_inv in Hup as (tmp_file & Htmp & Hup & ->).
    apply NamedTemporaryFile_Ok in Htmp as (Hfresh & Hstem & Hfiles).
    cbn in Hup. injection Hup as <-.
    exists (getvalue uploaded). split_and!; try assumption; [reflexivity|].
    cbn. rewrite Hfiles, !lookup_insert_eq. reflexivity.
Qed.

Lemma endswith_refl s : endswith s s = true.
Proof. destruct s; cbn [endswith]; rewrite String.eqb_refl; reflexivity. Qed.

Lemma endswith_app stem suffix : endswith (stem +:+ suffix) suffix = true.
Proof.
  induction stem as [|c stem IH].
  - apply endswith_refl.
  - change (endswith (String c stem +:+ suffix) suffix)
      with (if String.eqb (String c (stem +:+ suffix)) suffix then true
            else endswith (stem +:+ suffix) suffix).
    destruct (String.eqb (String c (stem +:+ suffix)) suffix);
      [reflexivity | exact IH].
Qed.

Lemma str_truthy_app stem suffix :
  str_truthy suffix = true -> str_truthy (stem +:+ suffix) = true.
Proof. destruct stem; [auto | reflexivity]. Qed.

(** C7, counterexample.  A [.mov] file, which the uploader accepts, is
    written to a transient file whose name ends in [.mp4], not in [.mov]. *)
Lemma mov_upload_named_mp4 :
  In "mov" accepted_types /\
  uploaded_type <$> uploaded_file Samples.upload_mov = Some "mov" /\
  result (resolve Samples.upload_mov Samples.ready_world)
  = Ok (Some "/tmp/tmpa1b2c3d4.mp4") /\
  ~ suffix_matches_type "mov" "/tmp/tmpa1b2c3d4.mp4".
Proof.
  split_and!; [cbn; tauto | reflexivity | vm_compute; reflexivity |].
  unfold suffix_matches_type. vm_compute. discriminate.
Qed.

(** C7, amended.  For a URL as for an uploaded file of any type, when the
    resolver returns a path, the path names a file that did not exist
    before, is one of the candidate names of [tempfile] followed by [.mp4],
    whatever the media type, and the file holds the bytes of the input. *)
Theorem resolver_persists inp w path :
  result (resolve inp w) = Ok (Some path) ->
  exists bytes,
    source_bytes inp w = Some bytes /\
    files w !! path = None /\
    (exists stem, In stem (tmp_names w) /\ path = stem +:+ ".mp4") /\
    endswith path ".mp4" = true /\
    files (final (resolve inp w)) !! path = Some bytes.
Proof.
  intros H. apply resolve_Some in H as (bytes & Hsrc & Hfresh & Hstem & Hfiles).
  exists bytes. split_and!; try assumption.
  destruct Hstem as (stem & _ & ->). apply endswith_app.
Qed.

(** C7, amended, for a download at [Samples.ready_world]. *)
Lemma resolver_persists_witness :
  result (resolve Samples.from_url Samples.ready_world)
  = Ok (Some "/tmp/tmpa1b2c3d4.mp4") /\
  exists bytes,
    source_bytes Samples.from_url Samples.ready_world = Some bytes /\
    files (final (resolve Samples.from_url Samples.ready_world))
      !! "/tmp/tmpa1b2c3d4.mp4" = Some bytes.
Proof.
  assert (H : result (resolve Samples.from_url Samples.ready_world)
              = Ok (Some "/tmp/tmpa1b2c3d4.mp4")) by (vm_compute; reflexivity).
  split; [exact H|].
  destruct (resolver_persists _ _ _ H) as (bytes & Hsrc & _ & _ & _ & Hfiles).
  exists bytes. split; assumption.
Defined.

(** ** The cleanup *)

(** C5, counterexample.  [os.unlink] is refused: the error is swallowed by
    the bare [except] and the transient file is still there when the
    pipeline ends. *)
Lemma cleanup_failure_leaves_file :
  let inp := Samples.upload_mov in
  let w := Samples.locked_world in
  result (resolve inp w) = Ok (Some "/tmp/tmpa1b2c3d4.mp4") /\
  result (main inp w) = Ok tt /\
  unlinks (events (main inp w)) = ["/tmp/tmpa1b2c3d4.mp4"] /\
  files (final (main inp w)) !! "/tmp/tmpa1b2c3d4.mp4" = Some [Byte.x00; Byte.x01] /\
  ~ removed_at_end inp w.
Proof.
  cbv zeta.
  assert (Hres : result (resolve Samples.upload_mov Samples.locked_world)
                 = Ok (Some "/tmp/tmpa1b2c3d4.mp4")) by (vm_compute; reflexivity).
  assert (Hfile : files (final (main Samples.upload_mov Samples.locked_world))
                    !! "/tmp/tmpa1b2c3d4.mp4" = Some [Byte.x00; Byte.x01])
    by (vm_compute; reflexivity).
  split_and!; [exact Hres | vm_compute; reflexivity | vm_compute; reflexivity
               | exact Hfile |].
  intros Hgone. specialize (Hgone _ Hres). rewrite Hfile in Hgone. discriminate.
Qed.

(** A second way for the transient file to outlive the pipeline, left out
    of the amended claim: the download breaks off after the file was
    created, [download_video] returns [None], and [main], holding no path,
    does not reach the cleanup. *)
Lemma download_fault_leaves_file :
  let inp := Samples.from_url in
  let w := Samples.broken_stream_world in
  result (resolve inp w) = Ok None /\
  unlinks (events (main inp w)) = [] /\
  files (final (main inp w)) !! "/tmp/tmpa1b2c3d4.mp4" = Some [Byte.x01; Byte.x02].
Proof. vm_compute. split_and!; reflexivity. Qed.

(** C5, amended.  In a pipeline run whose resolver returned a path, whatever
    the later stages do, [main] returns, [os.unlink] is called exactly once,
    on that path, and unless that call is refused the path does not exist
    when the pipeline ends; when it is refused the file is left as the
    resolver wrote it. *)
Theorem transient_file_cleanup inp w path :
  str_truthy (api_key inp) = true ->
  result (resolve inp w) = Ok (Some path) ->
  result (main inp w) = Ok tt /\
  unlinks (events (main inp w)) = [path] /\
  (unlink_fault (remote w) path = None ->
   files (final (main inp w)) !! path = None) /\
  (unlink_fault (remote w) path <> None ->
   files (final (main inp w)) !! path = files (final (resolve inp w)) !! path).
Proof.
  intros Hkey Hres.
  pose proof (main_run inp w Hkey) as Hrun. cbv zeta in Hrun.
  destruct (resolve_Some inp w path Hres) as (bytes & _ & _ & (stem & _ & Hname) & Hfile).
  rewrite Hres in Hrun.
  assert (Htruthy : truthy (Some path) = true)
    by (cbn; rewrite Hname; apply str_truthy_app; reflexivity).
  rewrite Htruthy in Hrun. cbn [default from_option id] in Hrun.
  set (w1 := final (resolve inp w)) in *.
  set (w2 := final (run_stages path w1)) in *.
  assert (Hfiles2 : files w2 = files w1) by apply (run_stages_keeps_files path w1).
  assert (Hremote2 : remote w2 = remote w).
  { transitivity (remote w1);
      [apply (run_stages_keeps_remote path w1) | apply (resolve_keeps_remote inp w)]. }
  assert (Hclean : cleanup path w2
                   = match unlink_fault (remote w) path with
                     | Some e => mkRun (Ok tt) w2 [EvUnlink path]
                     | None =>
                         mkRun (Ok tt) (set_files (delete path (files w2)) w2)
                           [EvUnlink path]
                     end).
  { rewrite cleanup_run, Hremote2, Hfiles2, Hfile. reflexivity. }
  assert (Hev0 : unlinks (events (resolve inp w)) = []).
  { unfold unlinks. eapply omap_reads;
      [apply unlinks_reads | | apply (resolve_only inp w)]. disjoint_kinds. }
  assert (Hev1 : unlinks (events (run_stages path w1)) = []).
  { unfold unlinks. eapply omap_reads;
      [apply unlinks_reads | | apply (run_stages_only path w1)]. disjoint_kinds. }
  rewrite Hrun. cbn [result final events]. split; [reflexivity|].
  assert (Hunlinks :
    forall evs, unlinks (upload_header :: events (resolve inp w)
                         ++ processing_header :: events (run_stages path w1) ++ evs)
                = unlinks evs).
  { intros evs. unfold unlinks in *. cbn [omap list_omap upload_header].
    rewrite omap_app, Hev0. cbn [app omap list_omap processing_header].
    rewrite omap_app, Hev1. reflexivity. }
  rewrite Hunlinks, Hclean.
  destruct (unlink_fault (remote w) path) as [e|]; cbn [final events].
  - split_and!; [reflexivity | discriminate |].
    intros _. rewrite Hfiles2. reflexivity.
  - split_and!; [reflexivity | | congruence].
    intros _. cbn. apply lookup_delete_eq.
Qed.

(** C5, amended, at [Samples.ready_world]. *)
Lemma transient_file_cleanup_witness :
  str_truthy (api_key Samples.upload_mov) = true /\
  result (resolve Samples.upload_mov Samples.ready_world)
  = Ok (Some "/tmp/tmpa1b2c3d4.mp4") /\
  unlinks (events (main Samples.upload_mov Samples.ready_world))
  = ["/tmp/tmpa1b2c3d4.mp4"] /\
  files (final (main Samples.upload_mov Samples.ready_world))
    !! "/tmp/tmpa1b2c3d4.mp4" = None.
Proof.
  assert (Hkey : str_truthy (api_key Samples.upload_mov) = true) by reflexivity.
  assert (Hres : result (resolve Samples.upload_mov Samples.ready_world)
                 = Ok (Some "/tmp/tmpa1b2c3d4.mp4")) by (vm_compute; reflexivity).
  destruct (transient_file_cleanup _ _ _ Hkey Hres) as (_ & Hunlinks & Hgone & _).
  split_and!; [exact Hkey | exact Hres | exact Hunlinks | apply Hgone; reflexivity].
Defined.

(** ** Scenarios of the specification *)

(** [PROCESSING], [PROCESSING], then [ACTIVE]: the handle is returned after
    two re-queries; the bar shows 0, 2/300, 4/300 and 1. *)
Example slow_asset_scenario :
  let r := upload_video_to_gemini "/tmp/tmpa1b2c3d4.mp4" Samples.slow_world in
  result r = Ok (Some Samples.active) /\
  observed_states (events r) = ["PROCESSING"; "PROCESSING"; "ACTIVE"] /\
  progress_values (events r) = [0%Q; (2 # 300)%Q; (4 # 300)%Q; 1%Q] /\
  sleeps (events r) = [2; 2].
Proof. vm_compute. split_and!; reflexivity. Qed.

(** The asset never leaves [PROCESSING]: 151 status lines, the last two
    showing 300 and 302, 150 re-queries, then the timeout; the pipeline
    makes no generation call and removes the transient file. *)
Example stuck_asset_scenario :
  let r := upload_video_to_gemini "/tmp/tmpa1b2c3d4.mp4" Samples.stuck_world in
  let evs := events (main Samples.upload_mov Samples.stuck_world) in
  result r = Ok None /\
  length (status_texts (events r)) = 151%nat /\
  status_texts (events r) !! 149%nat = Some "Processing... (300s) - Status: PROCESSING" /\
  status_texts (events r) !! 150%nat = Some "Processing... (302s) - Status: PROCESSING" /\
  length (get_file_calls (events r)) = 150%nat /\
  errors (events r) = [timeout_message] /\
  generate_requests evs = [] /\
  unlinks evs = ["/tmp/tmpa1b2c3d4.mp4"].
Proof. vm_compute. split_and!; reflexivity. Qed.

(** [FAILED] in the reply to the upload: the failure is reported and the
    pipeline makes no generation call. *)
Example failed_asset_scenario :
  let evs := events (main Samples.upload_mov Samples.failed_world) in
  errors evs = [failed_message] /\
  generate_requests evs = [] /\
  downloads evs = [].
Proof. vm_compute. split_and!; reflexivity. Qed.

(** * Further properties *)

(** ** Runs, step by step *)

Lemma bind_eq {A B} (m : M A) (k : A -> M B) w a w1 evs1 r w2 evs2 :
  m w = mkRun (Ok a) w1 evs1 ->
  k a w1 = mkRun r w2 evs2 ->
  bind m k w = mkRun r w2 (evs1 ++ evs2).
Proof. unfold bind. intros -> ->. reflexivity. Qed.

Lemma bind_raise_eq {A B} (m : M A) (k : A -> M B) w e w1 evs1 :
  m w = mkRun (Raise e) w1 evs1 ->
  bind m k w = mkRun (Raise e) w1 evs1.
Proof. unfold bind. intros ->. reflexivity. Qed.

Lemma try_except_passed {A} (m : M A) (h : exn -> M A) w a w1 evs1 :
  m w = mkRun (Ok a) w1 evs1 ->
  try_except m h w = mkRun (Ok a) w1 evs1.
Proof. unfold try_except. intros ->. reflexivity. Qed.

Lemma try_except_caught {A} (m : M A) (h : exn -> M A) w e w1 evs1 r w2 evs2 :
  m w = mkRun (Raise e) w1 evs1 ->
  h e w1 = mkRun r w2 evs2 ->
  try_except m h w = mkRun r w2 (evs1 ++ evs2).
Proof. unfold try_except. intros -> ->. reflexivity. Qed.

#[global] Instance every_frame (p : Event -> bool) : Frame (every p).
Proof.
  split; unfold every; [reflexivity|].
  intros _ e1 _ e2 _ H1 H2. rewrite forallb_app, H1, H2. reflexivity.
Qed.

(** ** [download_video] *)

(** The loop of [download_video]: the run it makes. *)
Lemma download_loop_run (temp_file : string) (total_size : Z) chunks :
  forall downloaded w content,
    files w !! temp_file = Some content ->
    exists d,
      for_each chunks
        (fun chunk downloaded =>
           file_write temp_file chunk ;;
           if total_size >? 0 then
             progress_bar_progress
               (inject_Z (downloaded + Z.of_nat (length chunk))
                / inject_Z total_size) ;;
             ret (downloaded + Z.of_nat (length chunk))
           else ret downloaded)
        downloaded w
      = mkRun (Ok d)
          (set_files (<[temp_file := content ++ concat chunks]> (files w)) w)
          (download_loop_events total_size chunks downloaded).
Proof.
  induction chunks as [|chunk chunks IH]; intros downloaded w content Hc.
  - exists downloaded. cbn [for_each concat]. rewrite app_nil_r, insert_id by exact Hc.
    unfold download_loop_events. destruct w. destruct (total_size >? 0); reflexivity.
  - cbn [for_each].
    set (w' := set_files (<[temp_file := content ++ chunk]> (files w)) w).
    assert (Hc' : files w' !! temp_file = Some (content ++ chunk))
      by apply lookup_insert_eq.
    assert (Hw' : forall fs, set_files fs w' = set_files fs w) by reflexivity.
    assert (Hins : <[temp_file := (content ++ chunk) ++ concat chunks]> (files w')
                   = <[temp_file := content ++ concat (chunk :: chunks)]> (files w)).
    { cbn [files w' set_files concat]. rewrite insert_insert_eq, app_assoc. reflexivity. }
    unfold download_loop_events. cbn [cumulative map].
    destruct (total_size >? 0) eqn:Htotal.
    + destruct (IH (downloaded + Z.of_nat (length chunk)) w' _ Hc') as (d & Hrun).
      exists d. unfold download_loop_events in Hrun. rewrite Htotal, Hins, Hw' in Hrun.
      eapply (bind_eq _ _ _ _ w' [EvProgress _]); [|exact Hrun].
      unfold bind, file_write, progress_bar_progress, emit, ret. rewrite Hc. reflexivity.
    + destruct (IH downloaded w' _ Hc') as (d & Hrun).
      exists d. unfold download_loop_events in Hrun. rewrite Htotal, Hins, Hw' in Hrun.
      eapply (bind_eq _ _ _ _ w' []); [|exact Hrun].
      unfold bind, file_write, ret. rewrite Hc. reflexivity.
Qed.

Lemma raise_for_status_run response w :
  raise_for_status response w
  = if bad_status response then mkRun (Raise (status_error response)) w []
    else mkRun (Ok tt) w [].
Proof.
  unfold raise_for_status, bad_status, status_error.
  destruct (_ && _); reflexivity.
Qed.

(** The connection fails: nothing is created. *)
Lemma download_video_refused url w e :
  requests_get_reply (remote w) url = inl e ->
  download_video url w
  = mkRun (Ok None) w
      [EvSt Spinner "📥 Downloading video...";
       EvRequestsGet url (inl e);
       EvSt Error (download_error_message e)].
Proof.
  intros Hreply. unfold download_video.
  eapply (try_except_caught _ _ _ e w [_; _] _ w [_]); [|reflexivity].
  eapply (bind_eq _ _ _ tt w [_]); [reflexivity|].
  apply bind_raise_eq. unfold requests_get. rewrite Hreply. reflexivity.
Qed.

(** The server answers with an error status: nothing is created. *)
Lemma download_video_bad_status url w response :
  requests_get_reply (remote w) url = inr response ->
  bad_status response = true ->
  download_video url w
  = mkRun (Ok None) w
      [EvSt Spinner "📥 Downloading video...";
       EvRequestsGet url (inr response);
       EvSt Error (download_error_message (status_error response))].
Proof.
  intros Hreply Hbad. unfold download_video.
  eapply (try_except_caught _ _ _ (status_error response) w [_; _] _ w [_]);
    [|reflexivity].
  eapply (bind_eq _ _ _ tt w [_]); [reflexivity|].
  eapply (bind_eq _ _ _ response w [_]);
    [unfold requests_get; rewrite Hreply; reflexivity|].
  apply bind_raise_eq. rewrite raise_for_status_run, Hbad. reflexivity.
Qed.

(** [tempfile] finds no free name: nothing is created. *)
Lemma download_video_no_name url w response :
  requests_get_reply (remote w) url = inr response ->
  bad_status response = false ->
  mkstemp (tmp_names w) ".mp4" (files w) = None ->
  download_video url w
  = mkRun (Ok None) (set_tmp_names [] w)
      [EvSt Spinner "📥 Downloading video...";
       EvRequestsGet url (inr response);
       EvSt Error (download_error_message no_name_error)].
Proof.
  intros Hreply Hbad Hmk. unfold download_video.
  eapply (try_except_caught _ _ _ no_name_error (set_tmp_names [] w) [_; _] _ _ [_]);
    [|reflexivity].
  eapply (bind_eq _ _ _ tt w [_]); [reflexivity|].
  eapply (bind_eq _ _ _ response w [_]);
    [unfold requests_get; rewrite Hreply; reflexivity|].
  eapply (bind_eq _ _ _ tt w []);
    [rewrite raise_for_status_run, Hbad; reflexivity|].
  apply bind_raise_eq. unfold NamedTemporaryFile. rewrite Hmk. reflexivity.
Qed.

(** The file is created: it receives every chunk, and the stream's fault,
    if any, is reported after them. *)
Lemma download_video_stream url w response path rest :
  requests_get_reply (remote w) url = inr response ->
  bad_status response = false ->
  mkstemp (tmp_names w) ".mp4" (files w) = Some (path, rest) ->
  let total_size := default 0 (content_length response) in
  download_video url w
  = mkRun
      (Ok (match stream_fault response with
           | Some _ => None
           | None => Some path
           end))
      (set_files (<[path := concat (iter_content response)]> (files w))
         (set_tmp_names rest w))
      ([EvSt Spinner "📥 Downloading video...";
        EvRequestsGet url (inr response)]
       ++ (if total_size >? 0 then [EvProgressNew 0] else [])
       ++ download_loop_events total_size (iter_content response) 0
       ++ match stream_fault response with
          | Some e => [EvSt Error (download_error_message e)]
          | None => [EvSt Success "✅ Video downloaded successfully!"]
          end).
Proof.
  intros Hreply Hbad Hmk. cbv zeta.
  set (total_size := default 0 (content_length response)).
  set (w2 := set_tmp_names rest (set_files (<[path := []]> (files w)) w)).
  assert (Hempty : files w2 !! path = Some []) by apply lookup_insert_eq.
  destruct (download_loop_run path total_size (iter_content response) 0 w2 [] Hempty)
    as (d & Hloop).
  cbn [app] in Hloop.
  assert (Hw3 : set_files (<[path := concat (iter_content response)]> (files w2)) w2
                = set_files (<[path := concat (iter_content response)]> (files w))
                    (set_tmp_names rest w)).
  { unfold w2, set_files, set_tmp_names. cbn. rewrite insert_insert_eq. reflexivity. }
  rewrite Hw3 in Hloop. clear Hw3.
  set (w3 := set_files (<[path := concat (iter_content response)]> (files w))
               (set_tmp_names rest w)) in *.
  assert (Hbody :
    forall (k : Response -> string -> M (option string)) r evs,
      k response path w3 = mkRun r w3 evs ->
      (st Spinner "📥 Downloading video..." ;;
       response <- requests_get url ;;
       raise_for_status response ;;
       temp_file <- NamedTemporaryFile ".mp4" ;;
       (if default 0 (content_length response) >? 0 then st_progress 0 else ret tt) ;;
       for_each (iter_content response)
         (fun chunk downloaded =>
            file_write temp_file chunk ;;
            if default 0 (content_length response) >? 0 then
              progress_bar_progress
                (inject_Z (downloaded + Z.of_nat (length chunk))
                 / inject_Z (default 0 (content_length response))) ;;
              ret (downloaded + Z.of_nat (length chunk))
            else ret downloaded)
         0 ;;
       k response temp_file) w
      = mkRun r w3
          ([EvSt Spinner "📥 Downloading video..."; EvRequestsGet url (inr response)]
           ++ (if total_size >? 0 then [EvProgressNew 0] else [])
           ++ download_loop_events total_size (iter_content response) 0 ++ evs)).
  { intros k r evs Hk.
    eapply (bind_eq _ _ _ tt w [_]); [reflexivity|].
    eapply (bind_eq _ _ _ response w [_]);
      [unfold requests_get; rewrite Hreply; reflexivity|].
    eapply (bind_eq _ _ _ tt w []);
      [rewrite raise_for_status_run, Hbad; reflexivity|].
    eapply (bind_eq _ _ _ path w2 []);
      [unfold NamedTemporaryFile; rewrite Hmk; reflexivity|].
    eapply (bind_eq _ _ _ tt w2 (if total_size >? 0 then [EvProgressNew 0] else []));
      [fold total_size; destruct (total_size >? 0); reflexivity|].
    eapply (bind_eq _ _ _ d w3); [exact Hloop | exact Hk]. }
  specialize (Hbody (fun response temp_file =>
                       match stream_fault response with
                       | Some e => raise e
                       | None => ret tt
                       end ;;
                       st Success "✅ Video downloaded successfully!" ;;
                       ret (Some temp_file))).
  cbv beta in Hbody. unfold download_video. cbv zeta.
  destruct (stream_fault response) as [e|].
  - specialize (Hbody (Raise e) [] (bind_raise_eq _ _ _ e w3 [] eq_refl)).
    etransitivity;
      [exact (try_except_caught _ _ w e w3 _ (Ok None) w3
                [EvSt Error (download_error_message e)] Hbody eq_refl)|].
    rewrite app_nil_r, <- !app_assoc. reflexivity.
  - apply try_except_passed. apply Hbody.
    eapply (bind_eq _ _ _ tt w3 []); [reflexivity|].
    eapply (bind_eq _ _ _ tt w3 [_]); reflexivity.
Qed.

(** The loop of [download_video] only moves the progress bar. *)
Lemma download_loop_silent {B} (f : Event -> option B) total_size chunks downloaded :
  (forall v, f (EvProgress v) = None) ->
  omap f (download_loop_events total_size chunks downloaded) = [].
Proof.
  intros Hf. unfold download_loop_events. destruct (total_size >? 0); [|reflexivity].
  induction (cumulative chunks downloaded) as [|d l IH]; [reflexivity|].
  cbn [map omap list_omap]. rewrite Hf. exact IH.
Qed.

(** X1. [download_video] (lines 60-88) always returns, and tells how it
    ended: with a path it shows its success message once and no error; with
    [None] it shows exactly one error, which carries the text of the
    exception, and no success message. *)
Theorem download_video_reports url w :
  let r := download_video url w in
  (exists path,
      result r = Ok (Some path) /\
      errors (events r) = [] /\
      successes (events r) = ["✅ Video downloaded successfully!"]) \/
  (exists e,
      result r = Ok None /\
      errors (events r) = [download_error_message e] /\
      successes (events r) = []).
Proof.
  cbv zeta.
  destruct (requests_get_reply (remote w) url) as [e|response] eqn:Hreply.
  { right. exists e. rewrite (download_video_refused _ _ _ Hreply).
    split_and!; reflexivity. }
  destruct (bad_status response) eqn:Hbad.
  { right. exists (status_error response).
    rewrite (download_video_bad_status _ _ _ Hreply Hbad). split_and!; reflexivity. }
  destruct (mkstemp (tmp_names w) ".mp4" (files w)) as [[path rest]|] eqn:Hmk.
  2: { right. exists no_name_error.
       rewrite (download_video_no_name _ _ _ Hreply Hbad Hmk). split_and!; reflexivity. }
  pose proof (download_video_stream _ _ _ _ _ Hreply Hbad Hmk) as Hrun.
  cbv zeta in Hrun. rewrite Hrun. cbn [result events]. unfold errors, successes.
  rewrite !omap_app, !download_loop_silent by reflexivity.
  destruct (stream_fault response) as [e|]; [right; exists e | left; exists path];
    destruct (_ >? 0); split_and!; reflexivity.
Qed.

(** X2. When the request fails, or the server answers with a status from 400
    to 599, [download_video] (lines 64-65, 86-88) returns [None] and reports
    that exception; it has created no file and drawn no temporary name: the
    world is as it was, and no progress bar was shown. *)
Theorem download_video_rejected url w e :
  request_fault (requests_get_reply (remote w) url) = Some e ->
  let r := download_video url w in
  result r = Ok None /\
  final r = w /\
  errors (events r) = [download_error_message e] /\
  progress_values (events r) = [].
Proof.
  unfold request_fault. cbv zeta.
  destruct (requests_get_reply (remote w) url) as [e'|response] eqn:Hreply.
  - intros [= ->]. rewrite (download_video_refused _ _ _ Hreply).
    split_and!; reflexivity.
  - destruct (bad_status response) eqn:Hbad; [|discriminate].
    intros [= <-]. rewrite (download_video_bad_status _ _ _ Hreply Hbad).
    split_and!; reflexivity.
Qed.

Lemma download_video_rejected_witness :
  request_fault (requests_get_reply (remote Samples.not_found_world)
                   "https://example.com/video.mp4")
  = Some (Exception "404 Error") /\
  result (download_video "https://example.com/video.mp4" Samples.not_found_world)
  = Ok None /\
  final (download_video "https://example.com/video.mp4" Samples.not_found_world)
  = Samples.not_found_world.
Proof.
  assert (H : request_fault (requests_get_reply (remote Samples.not_found_world)
                               "https://example.com/video.mp4")
              = Some (Exception "404 Error")) by reflexivity.
  destruct (download_video_rejected _ _ _ H) as (Hres & Hfin & _).
  split_and!; [exact H | exact Hres | exact Hfin].
Defined.

(** The resolver when the URL button was clicked with a URL typed in. *)
Lemma resolve_from_url inp w x w1 evs :
  clicked inp = ProcessUrl ->
  str_truthy (video_url inp) = true ->
  download_video (video_url inp) w = mkRun (Ok x) w1 evs ->
  resolve inp w
  = mkRun (Ok x) w1
      (EvSt Subheader "Enter Video URL" :: evs ++ [EvSt Subheader "Upload Video File"]).
Proof.
  intros Hclicked Hurl Hrun. unfold resolve, url_tab, upload_tab.
  rewrite Hclicked, Hurl.
  eapply (bind_eq _ _ _ x w1 (_ :: evs)).
  - eapply (bind_eq _ _ _ tt w [_]); [reflexivity | exact Hrun].
  - eapply (bind_eq _ _ _ tt w1 [_]); reflexivity.
Qed.

(** X3. When the stream breaks off after [download_video] has created its
    file (lines 67-82), the function returns [None] and reports the
    exception, and the file stays behind with the chunks received: [main],
    which gets no path, calls [os.unlink] on nothing (lines 245, 311-316),
    and the file is still there when it returns.  (For a stream within the
    length announced.) *)
Theorem interrupted_download_leaves_file inp w response path rest e :
  str_truthy (api_key inp) = true ->
  clicked inp = ProcessUrl ->
  str_truthy (video_url inp) = true ->
  requests_get_reply (remote w) (video_url inp) = inr response ->
  bad_status response = false ->
  within_announced response ->
  mkstemp (tmp_names w) ".mp4" (files w) = Some (path, rest) ->
  stream_fault response = Some e ->
  result (download_video (video_url inp) w) = Ok None /\
  errors (events (download_video (video_url inp) w)) = [download_error_message e] /\
  files w !! path = None /\
  result (main inp w) = Ok tt /\
  unlinks (events (main inp w)) = [] /\
  files (final (main inp w)) !! path = Some (concat (iter_content response)).
Proof.
  intros Hkey Hclicked Hurl Hreply Hbad _ Hmk Hfault.
  pose proof (download_video_stream _ _ _ _ _ Hreply Hbad Hmk) as Hrun.
  cbv zeta in Hrun. rewrite Hfault in Hrun.
  pose proof (resolve_from_url _ _ _ _ _ Hclicked Hurl Hrun) as Hresolve.
  pose proof (main_run inp w Hkey) as Hmain. cbv zeta in Hmain.
  rewrite Hresolve in Hmain. cbn [result final events truthy] in Hmain.
  rewrite Hmain, Hrun. cbn [result final events files set_files].
  split_and!.
  - reflexivity.
  - unfold errors. rewrite !omap_app, download_loop_silent by reflexivity.
    destruct (_ >? 0); reflexivity.
  - apply (mkstemp_Some _ _ _ _ _ Hmk).
  - reflexivity.
  - unfold unlinks, upload_header. cbn [omap list_omap].
    rewrite !omap_app, download_loop_silent by reflexivity.
    destruct (_ >? 0); reflexivity.
  - apply lookup_insert_eq.
Qed.

Lemma interrupted_download_leaves_file_witness :
  requests_get_reply (remote Samples.broken_stream_world) (video_url Samples.from_url)
  = inr (mkResponse 200 (Some 3) [[Byte.x01; Byte.x02]]
           (Some (Exception "Connection broken"))) /\
  mkstemp (tmp_names Samples.broken_stream_world) ".mp4"
    (files Samples.broken_stream_world)
  = Some ("/tmp/tmpa1b2c3d4.mp4", ["/tmp/tmpe5f6g7h8"]) /\
  unlinks (events (main Samples.from_url Samples.broken_stream_world)) = [] /\
  files (final (main Samples.from_url Samples.broken_stream_world))
    !! "/tmp/tmpa1b2c3d4.mp4" = Some [Byte.x01; Byte.x02].
Proof.
  assert (Hreply :
            requests_get_reply (remote Samples.broken_stream_world)
              (video_url Samples.from_url)
            = inr (mkResponse 200 (Some 3) [[Byte.x01; Byte.x02]]
                     (Some (Exception "Connection broken")))) by reflexivity.
  assert (Hmk : mkstemp (tmp_names Samples.broken_stream_world) ".mp4"
                  (files Samples.broken_stream_world)
                = Some ("/tmp/tmpa1b2c3d4.mp4", ["/tmp/tmpe5f6g7h8"]))
    by (vm_compute; reflexivity).
  assert (Hwithin :
            within_announced (mkResponse 200 (Some 3) [[Byte.x01; Byte.x02]]
                                (Some (Exception "Connection broken"))))
    by (right; unfold delivered, announced; cbn; lia).
  destruct (interrupted_download_leaves_file Samples.from_url
              Samples.broken_stream_world _ _ _ (Exception "Connection broken")
              eq_refl eq_refl eq_refl Hreply eq_refl Hwithin Hmk eq_refl)
    as (_ & _ & _ & _ & Hunlinks & Hfile).
  split_and!; [exact Hreply | exact Hmk | exact Hunlinks | exact Hfile].
Defined.

(** The running total of the bytes written grows with every chunk, up to
    the length of the whole body. *)
Lemma cumulative_facts chunks :
  forall d,
    StronglySorted Z.le (cumulative chunks d) /\
    Forall (fun x => d <= x <= d + Z.of_nat (length (concat chunks)))
      (cumulative chunks d) /\
    (chunks <> [] ->
     last (cumulative chunks d) = Some (d + Z.of_nat (length (concat chunks)))).
Proof.
  induction chunks as [|chunk chunks IH]; intros d; cbn [cumulative concat].
  - split_and!; [constructor | constructor | congruence].
  - destruct (IH (d + Z.of_nat (length chunk))) as (Hsorted & Hbound & Hlast).
    rewrite length_app, Nat2Z.inj_add.
    split_and!.
    + constructor; [exact Hsorted|].
      eapply Forall_impl; [exact Hbound|]. cbn. intros x ?. lia.
    + constructor; [lia|].
      eapply Forall_impl; [exact Hbound|]. cbn. intros x ?. lia.
    + intros _. rewrite last_cons. destruct chunks as [|chunk' chunks].
      * cbn. f_equal. lia.
      * rewrite Hlast by discriminate. f_equal. lia.
Qed.

Lemma fraction_mono a b t :
  0 < t -> a <= b -> (inject_Z a / inject_Z t <= inject_Z b / inject_Z t)%Q.
Proof.
  intros Ht Hab. unfold Qdiv. apply Qmult_le_compat_r.
  - rewrite <- Zle_Qle. exact Hab.
  - apply Qinv_le_0_compat. change 0%Q with (inject_Z 0). rewrite <- Zle_Qle. lia.
Qed.

Lemma fraction_nonneg d t :
  0 < t -> 0 <= d -> (0 <= inject_Z d / inject_Z t)%Q.
Proof.
  intros Ht Hd. apply Qle_shift_div_l.
  - change 0%Q with (inject_Z 0). rewrite <- Zlt_Qlt. exact Ht.
  - rewrite Qmult_0_l. change 0%Q with (inject_Z 0). rewrite <- Zle_Qle. exact Hd.
Qed.

Lemma fraction_unit d t :
  0 < t -> 0 <= d <= t -> (0 <= inject_Z d / inject_Z t <= 1)%Q.
Proof.
  intros Ht [Hd Hdt].
  assert (Hpos : (0 < inject_Z t)%Q)
    by (change 0%Q with (inject_Z 0); rewrite <- Zlt_Qlt; exact Ht).
  split.
  - apply Qle_shift_div_l; [exact Hpos|]. rewrite Qmult_0_l.
    change 0%Q with (inject_Z 0). rewrite <- Zle_Qle. exact Hd.
  - apply Qle_shift_div_r; [exact Hpos|]. rewrite Qmult_1_l.
    rewrite <- Zle_Qle. exact Hdt.
Qed.

(** X4. The progress bar of [download_video] (lines 70-80), for a stream
    within the length announced.  Once the file is created, a bar is shown
    exactly when the response announces a positive length; its values are 0,
    then after each chunk the bytes written so far over the announced length;
    they are in non-decreasing order and between 0 and 1; the last one is the
    fraction delivered.  (The fractions are taken over [Q]; Python divides in
    binary64, with correct rounding, which keeps this order and these
    bounds.) *)
Theorem download_progress url w response path rest :
  requests_get_reply (remote w) url = inr response ->
  bad_status response = false ->
  within_announced response ->
  mkstemp (tmp_names w) ".mp4" (files w) = Some (path, rest) ->
  let shown := progress_values (events (download_video url w)) in
  shown
  = (if announced response >? 0 then
       0%Q :: map (fun d => (inject_Z d / inject_Z (announced response))%Q)
                (cumulative (iter_content response) 0)
     else []) /\
  StronglySorted Qle shown /\
  (0 < announced response -> iter_content response <> [] ->
   last shown = Some (inject_Z (delivered response) / inject_Z (announced response))%Q) /\
  Forall (fun p => (0 <= p <= 1)%Q) shown.
Proof.
  intros Hreply Hbad Hwithin Hmk. cbv zeta.
  pose proof (download_video_stream _ _ _ _ _ Hreply Hbad Hmk) as Hrun.
  cbv zeta in Hrun. rewrite Hrun. cbn [events]. clear Hrun.
  fold (announced response).
  assert (Hshown :
    progress_values
      ([EvSt Spinner "📥 Downloading video..."; EvRequestsGet url (inr response)]
       ++ (if announced response >? 0 then [EvProgressNew 0] else [])
       ++ download_loop_events (announced response) (iter_content response) 0
       ++ match stream_fault response with
          | Some e => [EvSt Error (download_error_message e)]
          | None => [EvSt Success "✅ Video downloaded successfully!"]
          end)
    = if announced response >? 0 then
        0%Q :: map (fun d => (inject_Z d / inject_Z (announced response))%Q)
                 (cumulative (iter_content response) 0)
      else []).
  { unfold progress_values, download_loop_events. rewrite !omap_app.
    destruct (announced response >? 0).
    - cbn [omap list_omap app]. f_equal.
      assert (Htail : omap (fun ev => match ev with
                                      | EvProgressNew v | EvProgress v => Some v
                                      | _ => None
                                      end)
                        match stream_fault response with
                        | Some e => [EvSt Error (download_error_message e)]
                        | None => [EvSt Success "✅ Video downloaded successfully!"]
                        end = []) by (destruct (stream_fault response); reflexivity).
      rewrite Htail, app_nil_r.
      induction (cumulative (iter_content response) 0) as [|d l IH]; [reflexivity|].
      cbn [map omap list_omap]. f_equal. exact IH.
    - destruct (stream_fault response); reflexivity. }
  rewrite Hshown. clear Hshown. split; [reflexivity|].
  destruct (cumulative_facts (iter_content response) 0) as (Hsorted & Hbound & Hlast).
  destruct (announced response >? 0) eqn:Htotal.
  - apply Z.gtb_lt in Htotal. split_and!.
    + constructor.
      * apply (StronglySorted_fmap _ Z.le); [|exact Hsorted].
        intros a b Hab. apply fraction_mono; assumption.
      * apply Forall_map. eapply Forall_impl; [exact Hbound|]. cbn.
        intros d Hd. apply fraction_nonneg; lia.
    + intros _ Hchunks. rewrite last_cons.
      change (map ?f ?l) with (f <$> l). rewrite fmap_last, (Hlast Hchunks).
      reflexivity.
    + assert (Hhonest : delivered response <= announced response)
        by (destruct Hwithin; [lia | assumption]).
      unfold delivered in Hhonest. constructor.
      * split; discriminate.
      * apply Forall_map. eapply Forall_impl; [exact Hbound|]. cbn.
        intros d Hd. apply fraction_unit; lia.
  - rewrite Z.gtb_ltb in Htotal. apply Z.ltb_ge in Htotal. split_and!.
    + constructor.
    + lia.
    + constructor.
Qed.

Lemma download_progress_witness :
  requests_get_reply (remote Samples.ready_world) "https://example.com/video.mp4"
  = inr (mkResponse 200 (Some 3) [[Byte.x01; Byte.x02]; [Byte.x03]] None) /\
  mkstemp (tmp_names Samples.ready_world) ".mp4" (files Samples.ready_world)
  = Some ("/tmp/tmpa1b2c3d4.mp4", ["/tmp/tmpe5f6g7h8"]) /\
  progress_values
    (events (download_video "https://example.com/video.mp4" Samples.ready_world))
  = [0; inject_Z 2 / inject_Z 3; inject_Z 3 / inject_Z 3]%Q.
Proof.
  assert (Hreply :
            requests_get_reply (remote Samples.ready_world) "https://example.com/video.mp4"
            = inr (mkResponse 200 (Some 3) [[Byte.x01; Byte.x02]; [Byte.x03]] None))
    by reflexivity.
  assert (Hmk : mkstemp (tmp_names Samples.ready_world) ".mp4" (files Samples.ready_world)
                = Some ("/tmp/tmpa1b2c3d4.mp4", ["/tmp/tmpe5f6g7h8"]))
    by (vm_compute; reflexivity).
  assert (Hwithin :
            within_announced
              (mkResponse 200 (Some 3) [[Byte.x01; Byte.x02]; [Byte.x03]] None))
    by (right; unfold delivered, announced; cbn; lia).
  destruct (download_progress "https://example.com/video.mp4" Samples.ready_world
              _ _ _ Hreply eq_refl Hwithin Hmk) as (Hshown & _).
  split_and!; [exact Hreply | exact Hmk | exact Hshown].
Defined.



(** ** [upload_video_to_gemini] *)

Lemma omap_every {B} (f : Event -> option B) (p : Event -> bool) w evs w' :
  (forall ev, p ev = true -> f ev = None) -> every p w evs w' -> omap f evs = [].
Proof.
  intros Hf. unfold every. induction evs as [|ev evs IH]; [reflexivity|].
  cbn [forallb]. intros [Hev Hevs]%andb_prop.
  cbn [omap list_omap]. rewrite (Hf ev Hev). exact (IH Hevs).
Qed.

(** The loop shows neither a success message nor a warning. *)
Lemma poll_loop_quiet n s : respects (every quiet) (while n poll_cond poll_body s).
Proof.
  apply (respects_while (every quiet)). clear s. intros [wait_time vf] w.
  rewrite poll_body_run. cbv zeta. destruct (_ >? _); reflexivity.
Qed.


Lemma warnings_quiet w evs w' : every quiet w evs w' -> warnings evs = [].
Proof.
  apply omap_every. intros ev Hev.
  destruct ev; try reflexivity; destruct widget; try reflexivity; discriminate.
Qed.








(** The events of a run of the poller whose upload was answered: those
    before the loop, the loop's, and some that only address Streamlit. *)
Lemma upload_video_to_gemini_events path w vf0 :
  upload_file_reply (remote w) path = inr vf0 ->
  exists tail,
    events (upload_video_to_gemini path w)
    = prelude path vf0 ++ events (while fuel poll_cond poll_body (0, vf0) w) ++ tail /\
    only [Ui] w tail w.
Proof.
  intros Hup. rewrite upload_video_to_gemini_run, Hup. cbv zeta.
  destruct (result (while fuel poll_cond poll_body (0, vf0) w)) as [[[t vf]|x]|e|];
    cbn [events].
  - eexists. split; [reflexivity|]. unfold verdict. repeat case_match; reflexivity.
  - exists []. rewrite app_nil_r. split; reflexivity.
  - eexists. split; reflexivity.
  - exists []. rewrite app_nil_r. split; reflexivity.
Qed.

Lemma get_file_calls_reads : reads (B := string)
  (fun ev => match ev with EvGetFile file _ => Some file | _ => None end) [Asset].
Proof. reads_kinds. Qed.

Lemma observations_reads : reads (B := exn + File)
  (fun ev => match ev with
             | EvUploadFile _ reply | EvGetFile _ reply => Some reply
             | _ => None
             end) [Asset].
Proof. reads_kinds. Qed.

(** In the loop, each call of [genai.get_file] asks for the name carried by
    the file in hand: the one the loop started with, then the one of each
    reply. *)
Lemma poll_loop_names n :
  forall s w,
    let evs := events (while n poll_cond poll_body s w) in
    get_file_calls evs
    = map name (take (length (get_file_calls evs)) (snd s :: observed_files evs)).
Proof.
  induction n as [|n IH]; intros [t vf] w; cbn [while].
  - destruct (poll_cond (t, vf)); reflexivity.
  - destruct (poll_cond (t, vf)); [|reflexivity].
    rewrite bind_run, poll_body_run. cbv zeta.
    destruct (t + 2 >? max_wait_time); cbn [result final events]; [reflexivity|].
    destruct (get_file_reply (remote w) (get_file_count w) (name vf)) as [e|f];
      cbn [result final events]; [reflexivity|].
    specialize (IH (t + 2, f) (set_get_file_count (S (get_file_count w)) w)).
    cbv zeta in IH. cbn [snd] in *.
    match goal with |- context [events ?l] => set (evs := events l) in * end.
    unfold observed_files, observations, get_file_calls in *.
    rewrite !omap_app. cbn [omap list_omap app length take map].
    f_equal. exact IH.
Qed.

(** X8. Each call of [genai.get_file] asks for the name carried by the
    latest reply (line 118): the name in the reply to the upload for the
    first call, the name in the reply to the [k]-th call for the next. *)
Theorem requery_by_latest_name path w :
  let evs := events (upload_video_to_gemini path w) in
  get_file_calls evs
  = map name (take (length (get_file_calls evs)) (observed_files evs)).
Proof.
  cbv zeta.
  destruct (upload_file_reply (remote w) path) as [e|vf0] eqn:Hup.
  { rewrite upload_video_to_gemini_run, Hup. reflexivity. }
  destruct (upload_video_to_gemini_events path w vf0 Hup) as (tail & -> & Htail).
  pose proof (poll_loop_names fuel (0, vf0) w) as Hloop. cbv zeta in Hloop.
  cbn [snd] in Hloop.
  assert (Hcalls : get_file_calls tail = [])
    by (eapply omap_reads; [exact get_file_calls_reads | | exact Htail];
        disjoint_kinds).
  assert (Hobs : observations tail = [])
    by (eapply omap_reads; [exact observations_reads | | exact Htail];
        disjoint_kinds).
  set (l := events (while fuel poll_cond poll_body (0, vf0) w)) in *.
  assert (Hc : get_file_calls (prelude path vf0 ++ l ++ tail) = get_file_calls l).
  { unfold get_file_calls in *. rewrite !omap_app, Hcalls, app_nil_r. reflexivity. }
  assert (Ho : observed_files (prelude path vf0 ++ l ++ tail) = vf0 :: observed_files l).
  { unfold observed_files, observations in *.
    rewrite !omap_app, Hobs, app_nil_r. reflexivity. }
  rewrite Hc, Ho. exact Hloop.
Qed.

(** ** What the poller leaves alone *)

#[global] Instance counts_get_file_frame : Frame counts_get_file.
Proof.
  split; unfold counts_get_file.
  - intros w. cbn. lia.
  - intros w1 e1 w2 e2 w3 H1 H2. unfold get_file_calls. rewrite omap_app, length_app.
    fold (get_file_calls e1) (get_file_calls e2). lia.
Qed.

Lemma upload_video_to_gemini_counts path :
  respects counts_get_file (upload_video_to_gemini path).
Proof.
  unfold upload_video_to_gemini, poll_body. frame.
  all: intros w'; unfold counts_get_file;
    cbv [st st_progress progress_bar_progress st_empty status_text_text
         status_text_empty time_sleep emit genai_upload_file genai_get_file
         set_get_file_count];
    cbn; lia.
Qed.

Lemma only_Forall ks w evs w' :
  only ks w evs w' -> Forall (fun ev => kind ev ∈ ks) evs.
Proof.
  unfold only. intros H. apply Forall_forall. intros ev Hev.
  rewrite forallb_forall in H. apply list_elem_of_In in Hev.
  exact (bool_decide_eq_true_1 _ (H ev Hev)).
Qed.

(** X9. What the poller leaves alone (lines 90-135): it addresses only
    Streamlit, the clock and the asset service, so it makes no HTTP request,
    no generation call and removes nothing; the files, the temporary names
    and the generation counter are as before; and the asset service was
    queried once per call of [genai.get_file]. *)
Theorem poller_footprint path w :
  let r := upload_video_to_gemini path w in
  Forall (fun ev => kind ev ∈ [Ui; Clock; Asset]) (events r) /\
  files (final r) = files w /\
  tmp_names (final r) = tmp_names w /\
  remote (final r) = remote w /\
  generate_count (final r) = generate_count w /\
  get_file_count (final r)
  = (get_file_count w + length (get_file_calls (events r)))%nat.
Proof.
  cbv zeta. split_and!.
  - apply (only_Forall _ w _ (final (upload_video_to_gemini path w))).
    apply upload_video_to_gemini_only.
  - assert (H : respects (keeps files) (upload_video_to_gemini path))
      by (unfold upload_video_to_gemini, poll_body; frame).
    apply H.
  - assert (H : respects (keeps tmp_names) (upload_video_to_gemini path))
      by (unfold upload_video_to_gemini, poll_body; frame).
    apply H.
  - assert (H : respects (keeps remote) (upload_video_to_gemini path))
      by (unfold upload_video_to_gemini, poll_body; frame).
    apply H.
  - assert (H : respects (keeps generate_count) (upload_video_to_gemini path))
      by (unfold upload_video_to_gemini, poll_body; frame).
    apply H.
  - apply upload_video_to_gemini_counts.
Qed.

Lemma requery_by_latest_name_witness :
  get_file_calls
    (events (upload_video_to_gemini "/tmp/tmpa1b2c3d4.mp4" Samples.renaming_world))
  = ["files/abc"; "files/xyz"].
Proof.
  rewrite (requery_by_latest_name "/tmp/tmpa1b2c3d4.mp4" Samples.renaming_world).
  vm_compute. reflexivity.
Defined.

(** ** [extract_text_from_video] and [summarize_text] *)

(** X10. [extract_text_from_video] shows its success message before it
    reads [response.text] (lines 151-153).  When the service answers with a
    response whose text cannot be read, the user is shown the success message
    and then the error, the function returns [None], and the pipeline
    summarizes nothing and offers no download. *)
Theorem success_shown_before_text_is_read vf w response e :
  generate_content_reply (remote w) (generate_count w) (ReqVideo vf extract_prompt)
  = inr response ->
  text response = inl e ->
  let r := extract_text_from_video vf w in
  result r = Ok None /\
  successes (events r) = ["✅ Text extraction completed!"] /\
  errors (events r) = [extract_error_message e] /\
  summarize_calls (events (extract_and_summarize vf w)) = [] /\
  downloads (events (extract_and_summarize vf w)) = [].
Proof.
  intros Hreply Htext. cbv zeta.
  pose proof (extract_and_summarize_run vf w) as Hstages. cbv zeta in Hstages.
  rewrite Hstages. clear Hstages.
  rewrite extract_text_from_video_run. cbv zeta. rewrite Hreply.
  destruct response as [t]. cbn in Htext. subst t.
  cbn [result events reply_text]. split_and!; reflexivity.
Qed.

Lemma success_shown_before_text_is_read_witness :
  let r := extract_text_from_video Samples.active Samples.unreadable_world in
  result r = Ok None /\
  successes (events r) = ["✅ Text extraction completed!"] /\
  errors (events r)
  = [extract_error_message (Exception "response has no valid part")].
Proof.
  destruct (success_shown_before_text_is_read Samples.active Samples.unreadable_world
              (mkGenResponse (inl (Exception "response has no valid part")))
              (Exception "response has no valid part") eq_refl eq_refl)
    as (Hres & Hsucc & Herr & _).
  split_and!; [exact Hres | exact Hsucc | exact Herr].
Defined.

(** X11. [summarize_text] (lines 159-183) always returns.  It makes one
    generation call, with the prompt built around the text it was given; it
    returns the text of the answer when there is one, and [None] exactly
    when the call or the reading of [response.text] raised, reporting that
    exception; its success message is shown whenever the service answered.
    Only the counter of generation calls changes. *)
Theorem summarize_text_outcome t w :
  let reply := generate_content_reply (remote w) (generate_count w)
                 (ReqText (summary_prompt t)) in
  let r := summarize_text t w in
  result r = Ok (reply_text reply) /\
  generate_requests (events r) = [ReqText (summary_prompt t)] /\
  errors (events r)
  = match reply_fault reply with
    | Some e => [summary_error_message e]
    | None => []
    end /\
  successes (events r)
  = match reply with
    | inr _ => ["✅ Summary created!"]
    | inl _ => []
    end /\
  (result r = Ok None <-> reply_fault reply <> None) /\
  final r = set_generate_count (S (generate_count w)) w.
Proof.
  cbv zeta. rewrite summarize_text_run. cbv zeta. cbn [result final events].
  destruct (generate_content_reply (remote w) (generate_count w)
              (ReqText (summary_prompt t))) as [e|[[e|s]]];
    cbn; split_and!; try reflexivity; split; congruence.
Qed.

(** ** The resolver, case by case *)

Lemma input_cases inp :
  no_source inp \/
  (clicked inp = ProcessUrl /\ str_truthy (video_url inp) = true) \/
  (clicked inp = ProcessUploaded /\ exists uploaded, uploaded_file inp = Some uploaded).
Proof.
  unfold no_source. destruct (clicked inp).
  - left. exact I.
  - destruct (video_url inp) as [|c s]; [left; reflexivity | right; left].
    split; reflexivity.
  - destruct (uploaded_file inp) as [uploaded|]; [right; right | left; reflexivity].
    eauto.
Qed.

(** No button clicked, or a button without its input. *)
Lemma resolve_no_source inp w :
  no_source inp ->
  resolve inp w
  = mkRun (Ok None) w
      ([url_subheader]
       ++ match clicked inp with
          | ProcessUrl => [EvSt Error "Please enter a video URL"]
          | _ => []
          end
       ++ [upload_subheader]
       ++ match clicked inp with
          | ProcessUploaded => [EvSt Error "Please upload a video file"]
          | _ => []
          end).
Proof.
  unfold no_source, resolve, url_tab, upload_tab.
  destruct (clicked inp); intros H; try rewrite H; reflexivity.
Qed.

(** The upload button clicked with a file chosen. *)
Lemma resolve_from_upload inp w uploaded :
  clicked inp = ProcessUploaded ->
  uploaded_file inp = Some uploaded ->
  resolve inp w
  = match mkstemp (tmp_names w) ".mp4" (files w) with
    | Some (path, rest) =>
        mkRun (Ok (Some path))
          (set_files (<[path := getvalue uploaded]> (files w)) (set_tmp_names rest w))
          [url_subheader; upload_subheader; EvSt Success "✅ File uploaded successfully!"]
    | None =>
        mkRun (Raise no_name_error) (set_tmp_names [] w)
          [url_subheader; upload_subheader]
    end.
Proof.
  intros Hclicked Huploaded. unfold resolve, url_tab, upload_tab.
  rewrite Hclicked, Huploaded.
  unfold bind, st, emit, ret, NamedTemporaryFile, file_write.
  destruct (mkstemp (tmp_names w) ".mp4" (files w)) as [[path rest]|]; [|reflexivity].
  cbn. unfold set_files, set_tmp_names. cbn.
  rewrite lookup_insert_eq, insert_insert_eq. reflexivity.
Qed.

Lemma mkstemp_truthy candidates fs path rest :
  mkstemp candidates ".mp4" fs = Some (path, rest) -> str_truthy path = true.
Proof.
  intros (_ & stem & _ & ->)%mkstemp_Some. apply str_truthy_app. reflexivity.
Qed.

(** The four ways the resolver ends: nothing was created; [tempfile] failed
    in the upload tab, which has no handler; the download broke off and left
    its file; a file was created and its path returned. *)
Lemma resolve_outcome inp w :
  let r := resolve inp w in
  (result r = Ok None /\ files (final r) = files w) \/
  (result r = Raise no_name_error /\ files (final r) = files w /\
   clicked inp = ProcessUploaded /\ uploaded_file inp <> None /\
   mkstemp (tmp_names w) ".mp4" (files w) = None) \/
  (exists response e path,
      result r = Ok None /\
      clicked inp = ProcessUrl /\
      requests_get_reply (remote w) (video_url inp) = inr response /\
      stream_fault response = Some e /\
      files w !! path = None /\
      files (final r) = <[path := concat (iter_content response)]> (files w)) \/
  (exists path bytes,
      result r = Ok (Some path) /\
      str_truthy path = true /\
      files w !! path = None /\
      files (final r) = <[path := bytes]> (files w)).
Proof.
  cbv zeta.
  destruct (input_cases inp) as [Hnone | [[Hclicked Hurl] | [Hclicked [uploaded Hup]]]].
  - rewrite (resolve_no_source _ _ Hnone). left. split; reflexivity.
  - destruct (requests_get_reply (remote w) (video_url inp)) as [e|response] eqn:Hreply.
    { rewrite (resolve_from_url _ _ _ _ _ Hclicked Hurl
                 (download_video_refused _ _ _ Hreply)).
      left. split; reflexivity. }
    destruct (bad_status response) eqn:Hbad.
    { rewrite (resolve_from_url _ _ _ _ _ Hclicked Hurl
                 (download_video_bad_status _ _ _ Hreply Hbad)).
      left. split; reflexivity. }
    destruct (mkstemp (tmp_names w) ".mp4" (files w)) as [[path rest]|] eqn:Hmk.
    2: { rewrite (resolve_from_url _ _ _ _ _ Hclicked Hurl
                    (download_video_no_name _ _ _ Hreply Hbad Hmk)).
         left. split; reflexivity. }
    pose proof (download_video_stream _ _ _ _ _ Hreply Hbad Hmk) as Hrun.
    cbv zeta in Hrun.
    rewrite (resolve_from_url _ _ _ _ _ Hclicked Hurl Hrun). cbn [result final].
    pose proof (mkstemp_Some _ _ _ _ _ Hmk) as [Hfresh _].
    destruct (stream_fault response) as [e|] eqn:Hfault.
    + right. right. left. exists response, e, path. split_and!; auto.
    + right. right. right. exists path, (concat (iter_content response)).
      split_and!; auto. exact (mkstemp_truthy _ _ _ _ Hmk).
  - rewrite (resolve_from_upload _ _ _ Hclicked Hup).
    destruct (mkstemp (tmp_names w) ".mp4" (files w)) as [[path rest]|] eqn:Hmk.
    + right. right. right. exists path, (getvalue uploaded). cbn [result final].
      pose proof (mkstemp_Some _ _ _ _ _ Hmk) as [Hfresh _].
      split_and!; auto. exact (mkstemp_truthy _ _ _ _ Hmk).
    + right. left. cbn [result final]. split_and!; auto. congruence.
Qed.

(** [main] once the resolver has returned a path: the stages run on it, then
    [os.unlink] is called on it. *)
Lemma main_processed inp w path :
  str_truthy (api_key inp) = true ->
  result (resolve inp w) = Ok (Some path) ->
  let w1 := final (resolve inp w) in
  let r1 := run_stages path w1 in
  main inp w
  = mkRun (Ok tt)
      (match unlink_fault (remote w) path with
       | Some _ => final r1
       | None => set_files (delete path (files w1)) (final r1)
       end)
      (upload_header :: events (resolve inp w)
       ++ processing_header :: events r1 ++ [EvUnlink path]).
Proof.
  intros Hkey Hres. cbv zeta.
  destruct (resolve_Some _ _ _ Hres) as (bytes & _ & Hfresh & (stem & _ & Hname) & Hfile).
  pose proof (main_run inp w Hkey) as Hrun. cbv zeta in Hrun. rewrite Hres in Hrun.
  assert (Htruthy : truthy (Some path) = true)
    by (cbn; rewrite Hname; apply str_truthy_app; reflexivity).
  rewrite Htruthy in Hrun. cbn [default from_option id] in Hrun.
  rewrite Hrun. clear Hrun.
  set (w1 := final (resolve inp w)) in *.
  set (w2 := final (run_stages path w1)) in *.
  assert (Hfiles2 : files w2 = files w1) by apply (run_stages_keeps_files path w1).
  assert (Hremote2 : remote w2 = remote w).
  { transitivity (remote w1);
      [apply (run_stages_keeps_remote path w1) | apply (resolve_keeps_remote inp w)]. }
  rewrite cleanup_run, Hremote2, Hfiles2, Hfile.
  destruct (unlink_fault (remote w) path); reflexivity.
Qed.

(** The files after [main]: those before, or those before and one more,
    left by a download that broke off or by a refused [os.unlink]. *)
Lemma main_files inp w :
  files (final (main inp w)) = files w \/
  exists path bytes,
    files w !! path = None /\
    files (final (main inp w)) = <[path := bytes]> (files w) /\
    ((exists response e,
         clicked inp = ProcessUrl /\
         requests_get_reply (remote w) (video_url inp) = inr response /\
         stream_fault response = Some e) \/
     (exists e, unlink_fault (remote w) path = Some e)).
Proof.
  destruct (str_truthy (api_key inp)) eqn:Hkey.
  2: { left. destruct (main_without_key inp w Hkey) as [-> _]. reflexivity. }
  pose proof (main_run inp w Hkey) as Hrun. cbv zeta in Hrun.
  destruct (resolve_outcome inp w)
    as [[Hres Hfiles]
       | [(Hres & Hfiles & _)
         | [(response & e & path & Hres & Hclicked & Hreply & Hfault & Hfresh & Hfiles)
           | (path & bytes & Hres & Htruthy & Hfresh & Hfiles)]]].
  - left. rewrite Hrun, Hres. exact Hfiles.
  - left. rewrite Hrun, Hres. exact Hfiles.
  - right. exists path, (concat (iter_content response)).
    rewrite Hrun, Hres. split_and!; [exact Hfresh | exact Hfiles |].
    left. exists response, e. auto.
  - clear Hrun. rewrite (main_processed inp w path Hkey Hres).
    pose proof (run_stages_keeps_files path (final (resolve inp w))) as Hkeeps.
    unfold keeps in Hkeeps.
    destruct (unlink_fault (remote w) path) as [e|] eqn:Hunlink; cbn [final].
    + right. exists path, bytes. rewrite Hkeeps, Hfiles.
      split_and!; [exact Hfresh | reflexivity |]. right. eauto.
    + left. cbn [files set_files]. rewrite Hfiles. apply delete_insert_id, Hfresh.
Qed.

(** ** [main] *)

(** X12. Without a key, or with a key but no source (no button clicked, the
    URL button with an empty URL, the upload button with no file), [main]
    (lines 196-199, 220-224, 234-242, 245) attempts nothing: it returns, the
    world is as it was, and it has addressed only Streamlit.  Without a key it
    shows the warning about the key and no error, whatever was clicked; with
    one, the error of the button clicked. *)
Theorem nothing_attempted_without_source inp w :
  str_truthy (api_key inp) = false \/ no_source inp ->
  let r := main inp w in
  result r = Ok tt /\
  final r = w /\
  Forall (fun ev => kind ev = Ui) (events r) /\
  warnings (events r) = (if str_truthy (api_key inp) then [] else [key_warning]) /\
  errors (events r) = (if str_truthy (api_key inp) then no_source_errors inp else []).
Proof.
  intros H. cbv zeta. destruct (str_truthy (api_key inp)) eqn:Hkey.
  - destruct H as [H|Hnone]; [discriminate|].
    pose proof (main_run inp w Hkey) as Hrun. cbv zeta in Hrun.
    rewrite (resolve_no_source _ _ Hnone) in Hrun. cbn [result final events truthy] in Hrun.
    rewrite Hrun. cbn [result final events]. unfold no_source_errors.
    destruct (clicked inp); split_and!; try reflexivity; repeat constructor.
  - unfold main. rewrite Hkey. cbn. split_and!; try reflexivity; repeat constructor.
Qed.

Lemma nothing_attempted_without_source_witness :
  (str_truthy (api_key Samples.empty_url) = false \/ no_source Samples.empty_url) /\
  final (main Samples.empty_url Samples.ready_world) = Samples.ready_world /\
  errors (events (main Samples.empty_url Samples.ready_world))
  = ["Please enter a video URL"].
Proof.
  assert (H : str_truthy (api_key Samples.empty_url) = false
              \/ no_source Samples.empty_url) by (right; reflexivity).
  destruct (nothing_attempted_without_source Samples.empty_url Samples.ready_world H)
    as (_ & Hfinal & _ & _ & Herrors).
  split_and!; [exact H | exact Hfinal | exact Herrors].
Defined.

(** X13. [main] never touches a file that was there before it ran
    (lines 67, 77, 237-238, 313-314): whatever the input and the answers of
    the collaborators, each such file is there afterwards with the same
    content. *)
Theorem existing_files_untouched inp w p content :
  files w !! p = Some content ->
  files (final (main inp w)) !! p = Some content.
Proof.
  intros Hp.
  destruct (main_files inp w) as [-> | (path & bytes & Hfresh & -> & _)]; [exact Hp|].
  rewrite lookup_insert_ne; [exact Hp | congruence].
Qed.

Lemma existing_files_untouched_witness :
  files Samples.busy_world !! "/home/user/notes.txt" = Some [Byte.x41] /\
  files (final (main Samples.upload_mov Samples.busy_world)) !! "/home/user/notes.txt"
  = Some [Byte.x41].
Proof.
  assert (H : files Samples.busy_world !! "/home/user/notes.txt" = Some [Byte.x41])
    by (vm_compute; reflexivity).
  split; [exact H|].
  exact (existing_files_untouched Samples.upload_mov Samples.busy_world _ _ H).
Defined.





Lemma requests_reads : reads (B := string)
  (fun ev => match ev with EvRequestsGet url _ => Some url | _ => None end) [Http].
Proof. reads_kinds. Qed.


(** [download_video] returns, after exactly one request. *)
Lemma download_video_returns url w :
  exists x w1 evs,
    download_video url w = mkRun (Ok x) w1 evs /\ requests evs = [url].
Proof.
  destruct (requests_get_reply (remote w) url) as [e|response] eqn:Hreply.
  { do 3 eexists. split; [exact (download_video_refused _ _ _ Hreply) | reflexivity]. }
  destruct (bad_status response) eqn:Hbad.
  { do 3 eexists.
    split; [exact (download_video_bad_status _ _ _ Hreply Hbad) | reflexivity]. }
  destruct (mkstemp (tmp_names w) ".mp4" (files w)) as [[path rest]|] eqn:Hmk.
  2: { do 3 eexists.
       split; [exact (download_video_no_name _ _ _ Hreply Hbad Hmk) | reflexivity]. }
  do 3 eexists. split; [exact (download_video_stream _ _ _ _ _ Hreply Hbad Hmk)|].
  unfold requests. rewrite !omap_app, download_loop_silent by reflexivity.
  destruct (_ >? 0), (stream_fault response); reflexivity.
Qed.

Lemma resolve_requests inp w :
  requests (events (resolve inp w))
  = match clicked inp with
    | ProcessUrl => if str_truthy (video_url inp) then [video_url inp] else []
    | _ => []
    end.
Proof.
  destruct (input_cases inp) as [Hnone | [[Hclicked Hurl] | [Hclicked [uploaded Hup]]]].
  - rewrite (resolve_no_source _ _ Hnone). unfold no_source in Hnone.
    destruct (clicked inp); try reflexivity. rewrite Hnone. reflexivity.
  - destruct (download_video_returns (video_url inp) w) as (x & w1 & evs & Hrun & Hreq).
    rewrite (resolve_from_url _ _ _ _ _ Hclicked Hurl Hrun), Hclicked, Hurl.
    cbn [events]. unfold requests in *. cbn [omap list_omap].
    rewrite omap_app, Hreq. reflexivity.
  - rewrite (resolve_from_upload _ _ _ Hclicked Hup), Hclicked.
    destruct (mkstemp _ _ _) as [[path rest]|]; reflexivity.
Qed.

(** What [main] asks of the HTTP server is what its resolver asks. *)
Lemma main_reads_http {B} (f : Event -> option B) inp w :
  reads f [Http] ->
  omap f (events (main inp w))
  = if str_truthy (api_key inp) then omap f (events (resolve inp w)) else [].
Proof.
  intros Hf. destruct (str_truthy (api_key inp)) eqn:Hkey.
  2: { unfold main. rewrite Hkey. cbn [negb]. cbn.
       rewrite !Hf by (cbn; intros [=]%list_elem_of_singleton). reflexivity. }
  pose proof (main_run inp w Hkey) as Hrun. cbv zeta in Hrun. rewrite Hrun. clear Hrun.
  assert (Hhead : forall evs, omap f (upload_header :: evs) = omap f evs).
  { intros evs. cbn [omap list_omap].
    rewrite Hf by (cbn; intros [=]%list_elem_of_singleton). reflexivity. }
  destruct (result (resolve inp w)) as [video_path| |]; cbn [events];
    try apply Hhead.
  destruct (truthy video_path); cbn [events]; [|apply Hhead].
  rewrite Hhead, omap_app.
  set (path := default "" video_path).
  set (w1 := final (resolve inp w)).
  assert (H1 : omap f (events (run_stages path w1)) = []).
  { eapply omap_reads; [exact Hf | | apply (run_stages_only path w1)]. disjoint_kinds. }
  assert (H2 : omap f (events (cleanup path (final (run_stages path w1)))) = []).
  { eapply omap_reads; [exact Hf | | apply (cleanup_only path)]. disjoint_kinds. }
  change (processing_header :: ?a ++ ?b) with ([processing_header] ++ a ++ b).
  rewrite !omap_app, H1, H2. cbn [omap list_omap].
  rewrite Hf by (cbn; intros [=]%list_elem_of_singleton).
  rewrite !app_nil_r. reflexivity.
Qed.

(** X16. [main] asks the HTTP server for something only when a key is
    present, the URL button was clicked and a URL typed (lines 196, 220-222),
    and then exactly once, for that URL: the upload button never starts a
    download, whatever the URL field holds. *)
Theorem download_only_when_requested inp w :
  requests (events (main inp w))
  = if download_requested inp then [video_url inp] else [].
Proof.
  unfold requests, download_requested.
  rewrite (main_reads_http _ inp w requests_reads).
  destruct (str_truthy (api_key inp)); [|reflexivity].
  fold (requests (events (resolve inp w))). rewrite resolve_requests. cbn [andb].
  destruct (clicked inp); reflexivity.
Qed.





(** The results are shown in full or not at all. *)
Lemma stage_results vf w :
  let evs := events (extract_and_summarize vf w) in
  downloads evs = [] \/
  (exists E S,
      (extracted_texts evs = [E] /\ summary_texts evs = [S] /\
       str_truthy E = true /\ str_truthy S = true /\
       downloads evs = artifacts E S) /\
      errors evs = [] /\ warnings evs = []).
Proof.
  cbv zeta. pose proof (extract_and_summarize_run vf w) as Hrun.
  cbv zeta in Hrun. rewrite Hrun. clear Hrun.
  rewrite extract_text_from_video_result, !extract_text_from_video_run.
  cbv zeta. cbn [result final events].
  destruct (generate_content_reply (remote w) (generate_count w)
              (ReqVideo vf extract_prompt)) as [e|[[e|t]]]; cbn [reply_text];
    [left; reflexivity..|].
  destruct (str_truthy t) eqn:Ht; [|left; reflexivity].
  rewrite summarize_text_result, !summarize_text_run.
  cbv zeta. cbn [result final events set_generate_count remote generate_count].
  destruct (generate_content_reply (remote w) (S (generate_count w))
              (ReqText (summary_prompt t))) as [e|[[e|s]]]; cbn [reply_text];
    [left; reflexivity..|].
  destruct (str_truthy s) eqn:Hs; [|left; reflexivity].
  right. exists t, s. split_and!; try assumption; reflexivity.
Qed.

(** X18. The results of [main] come in full or not at all (lines 259-309):
    a run offers no download, or it offers the three of them, and then the
    extraction and the summarization each returned one text, neither of them
    empty, and the downloads carry these two texts and their combination. *)
Theorem results_in_full_or_not_at_all inp w :
  let evs := events (main inp w) in
  downloads evs = [] \/
  (exists E S,
      extracted_texts evs = [E] /\ summary_texts evs = [S] /\
      str_truthy E = true /\ str_truthy S = true /\
      downloads evs = artifacts E S).
Proof.
  cbv zeta. unfold extracted_texts, summary_texts, downloads.
  destruct (main_shape inp w) as [Hnone | (path & w1 & x & _ & _ & _ & _ & Hgen)].
  - left. apply Hnone. reads_kinds.
  - erewrite !Hgen by reads_kinds.
    destruct x as [vf|]; [|left; reflexivity].
    destruct (stage_results vf (final (upload_video_to_gemini path w1)))
      as [Hnone | (E & S & Hall & _)]; [left; exact Hnone | right; eauto].
Qed.

(** X19. The file [main] submits for extraction is the one of the last
    reply of the asset service (lines 253-257): extraction is called exactly
    when that reply carries the state [ACTIVE], once, with the file of that
    reply, and not with the one returned by the upload or an earlier
    re-query. *)
Theorem extraction_on_last_observed_file inp w :
  let evs := events (main inp w) in
  extract_calls evs
  = match last (observations evs) with
    | Some (inr f) => if String.eqb (state_name f) "ACTIVE" then [f] else []
    | _ => []
    end.
Proof.
  cbv zeta. unfold extract_calls, observations.
  destruct (main_shape inp w)
    as [Hnone | (path & w1 & x & _ & _ & Hres & Hpoll & Hgen)].
  - rewrite !Hnone by reads_kinds. reflexivity.
  - erewrite Hgen by reads_kinds. erewrite Hpoll by reads_kinds.
    fold (observations (events (upload_video_to_gemini path w1))).
    pose proof (upload_result_iff path w1) as Hiff. cbv zeta in Hiff.
    destruct x as [vf|].
    + apply Hiff in Hres as [-> Hactive]. rewrite Hactive, String.eqb_refl.
      destruct (inference_calls vf (final (upload_video_to_gemini path w1)))
        as (_ & Hcalls & _).
      exact Hcalls.
    + destruct (last (observations (events (upload_video_to_gemini path w1))))
        as [[e|f]|] eqn:Hlast; try reflexivity.
      destruct (String.eqb (state_name f) "ACTIVE") eqn:Hactive; [|reflexivity].
      apply String.eqb_eq in Hactive.
      assert (Hsome : result (upload_video_to_gemini path w1) = Ok (Some f))
        by (apply Hiff; auto).
      congruence.
Qed.

(** A poller that returns a handle has reported no error and no warning. *)
Lemma upload_video_to_gemini_clean path w f :
  result (upload_video_to_gemini path w) = Ok (Some f) ->
  errors (events (upload_video_to_gemini path w)) = [] /\
  warnings (events (upload_video_to_gemini path w)) = [].
Proof.
  rewrite upload_video_to_gemini_run.
  destruct (upload_file_reply (remote w) path) as [e|vf0] eqn:Hup; [discriminate|].
  pose proof (poll_loop_post path w vf0 Hup) as Hloop.
  pose proof (warnings_quiet _ _ _ (poll_loop_quiet fuel (0, vf0) w)) as Hw.
  unfold loop_post in Hloop. cbv zeta.
  destruct (result (while fuel poll_cond poll_body (0, vf0) w)) as [[[t vf]|x]|e|];
    cbn [result events]; try discriminate.
  - destruct Hloop as [(prev & _ & _ & _ & [_ _ _ _ _ Herr] & _) _].
    rewrite verdict_result.
    destruct (String.eqb (state_name vf) "ACTIVE") eqn:Hactive; [|discriminate].
    intros _. apply String.eqb_eq in Hactive.
    assert (Htail : snd (verdict vf) = [EvSt Success "✅ Video is ready for analysis!"])
      by (unfold verdict; rewrite Hactive; reflexivity).
    rewrite Htail. split.
    + rewrite app_assoc. unfold errors in *. rewrite omap_app, Herr. reflexivity.
    + unfold warnings in *. rewrite !omap_app, Hw. reflexivity.
  - destruct Hloop as [-> _]. discriminate.
Qed.

(** A resolver that returns a path has reported no error and no warning. *)
Lemma resolve_clean inp w path :
  result (resolve inp w) = Ok (Some path) ->
  errors (events (resolve inp w)) = [] /\ warnings (events (resolve inp w)) = [].
Proof.
  destruct (input_cases inp) as [Hnone | [[Hclicked Hurl] | [Hclicked [uploaded Hup]]]].
  - rewrite (resolve_no_source _ _ Hnone). discriminate.
  - destruct (requests_get_reply (remote w) (video_url inp)) as [e|response] eqn:Hreply.
    { rewrite (resolve_from_url _ _ _ _ _ Hclicked Hurl
                 (download_video_refused _ _ _ Hreply)). discriminate. }
    destruct (bad_status response) eqn:Hbad.
    { rewrite (resolve_from_url _ _ _ _ _ Hclicked Hurl
                 (download_video_bad_status _ _ _ Hreply Hbad)). discriminate. }
    destruct (mkstemp (tmp_names w) ".mp4" (files w)) as [[path' rest]|] eqn:Hmk.
    2: { rewrite (resolve_from_url _ _ _ _ _ Hclicked Hurl
                    (download_video_no_name _ _ _ Hreply Hbad Hmk)). discriminate. }
    pose proof (download_video_stream _ _ _ _ _ Hreply Hbad Hmk) as Hrun.
    cbv zeta in Hrun.
    rewrite (resolve_from_url _ _ _ _ _ Hclicked Hurl Hrun). cbn [result events].
    destruct (stream_fault response) as [e|]; [discriminate|]. intros _.
    unfold errors, warnings. cbn [omap list_omap].
    rewrite !omap_app, !download_loop_silent by reflexivity.
    destruct (_ >? 0); split; reflexivity.
  - rewrite (resolve_from_upload _ _ _ Hclicked Hup).
    destruct (mkstemp (tmp_names w) ".mp4" (files w)) as [[path' rest]|];
      [|discriminate].
    intros _. split; reflexivity.
Qed.

Lemma downloads_reads : reads (B := string * string)
  (fun ev => match ev with
             | EvDownloadButton _ data file_name _ => Some (file_name, data)
             | _ => None
             end) [Artifact].
Proof. reads_kinds. Qed.

(** X20. [main] shows results only in a run that reported no error and no
    warning (lines 245-309): when a download is offered, the resolver, the
    poller, the extraction and the summarization have all ended without
    [st.error] or [st.warning]. *)
Theorem results_only_without_complaint inp w :
  let evs := events (main inp w) in
  downloads evs <> [] ->
  errors evs = [] /\ warnings evs = [].
Proof.
  cbv zeta. intros Hshown.
  destruct (str_truthy (api_key inp)) eqn:Hkey.
  2: { exfalso. apply Hshown. unfold main. rewrite Hkey. reflexivity. }
  assert (Hd0 : downloads (events (resolve inp w)) = []).
  { eapply omap_reads; [exact downloads_reads | | apply (resolve_only inp w)].
    disjoint_kinds. }
  pose proof (main_run inp w Hkey) as Hrun. cbv zeta in Hrun.
  destruct (resolve_outcome inp w)
    as [[Hres _]
       | [(Hres & _)
         | [(response & e & path & Hres & _)
           | (path & bytes & Hres & _)]]].
  1-3: exfalso; apply Hshown; rewrite Hrun, Hres; cbn [truthy events];
       unfold downloads in *; cbn [omap list_omap upload_header]; exact Hd0.
  clear Hrun. revert Hshown.
  rewrite (main_processed inp w path Hkey Hres). cbn [events].
  destruct (resolve_clean inp w path Hres) as [He0 Hw0].
  set (w1 := final (resolve inp w)).
  destruct (run_stages_run path w1) as (x & Hx & ->). cbv zeta in Hx.
  assert (Hd1 : downloads (events (upload_video_to_gemini path w1)) = []).
  { eapply omap_reads;
      [exact downloads_reads | | apply (upload_video_to_gemini_only path w1)].
    disjoint_kinds. }
  destruct x as [vf|]; cbn [events].
  2: { intros Hshown. exfalso. apply Hshown.
       unfold downloads in *. cbn [omap list_omap upload_header].
       rewrite omap_app, Hd0. cbn [app omap list_omap processing_header].
       rewrite omap_app, Hd1. reflexivity. }
  destruct (upload_video_to_gemini_clean path w1 vf Hx) as [He1 Hw1].
  set (evs1 := events (upload_video_to_gemini path w1)) in *.
  destruct (stage_results vf (final (upload_video_to_gemini path w1)))
    as [Hnone | (E & S & _ & He2 & Hw2)].
  { intros Hshown. exfalso. apply Hshown.
    unfold downloads in *. cbn [omap list_omap upload_header].
    rewrite omap_app, Hd0. cbn [app omap list_omap processing_header].
    rewrite !omap_app, Hd1, Hnone. reflexivity. }
  intros _. split.
  - unfold errors in *. cbn [omap list_omap upload_header].
    rewrite omap_app, He0. cbn [app omap list_omap processing_header].
    rewrite !omap_app, He1, He2. reflexivity.
  - unfold warnings in *. cbn [omap list_omap upload_header].
    rewrite omap_app, Hw0. cbn [app omap list_omap processing_header].
    rewrite !omap_app, Hw1, Hw2. reflexivity.
Qed.

Lemma results_only_without_complaint_witness :
  downloads (events (main Samples.upload_mov Samples.ready_world)) <> [] /\
  errors (events (main Samples.upload_mov Samples.ready_world)) = [] /\
  warnings (events (main Samples.upload_mov Samples.ready_world)) = [].
Proof.
  assert (H : downloads (events (main Samples.upload_mov Samples.ready_world)) <> [])
    by (vm_compute; discriminate).
  split; [exact H|].
  exact (results_only_without_complaint Samples.upload_mov Samples.ready_world H).
Defined.

Lemma resolve_keeps_generate_count inp : respects (keeps generate_count) (resolve inp).
Proof. unfold resolve, url_tab, upload_tab, download_video. frame. Qed.

Lemma upload_video_to_gemini_keeps_generation path :
  respects (keeps remote) (upload_video_to_gemini path) /\
  respects (keeps generate_count) (upload_video_to_gemini path).
Proof. split; unfold upload_video_to_gemini, poll_body; frame. Qed.

(** The stages when both generation calls answer with a text that is not
    empty. *)
Lemma extract_and_summarize_delivers vf w E Y :
  generate_content_reply (remote w) (generate_count w) (ReqVideo vf extract_prompt)
  = inr (mkGenResponse (inr E)) ->
  str_truthy E = true ->
  generate_content_reply (remote w) (S (generate_count w)) (ReqText (summary_prompt E))
  = inr (mkGenResponse (inr Y)) ->
  str_truthy Y = true ->
  downloads (events (extract_and_summarize vf w)) = artifacts E Y /\
  generate_requests (events (extract_and_summarize vf w))
  = [ReqVideo vf extract_prompt; ReqText (summary_prompt E)].
Proof.
  intros Hgen1 HE Hgen2 HS.
  pose proof (extract_and_summarize_run vf w) as Hrun. cbv zeta in Hrun.
  rewrite Hrun. clear Hrun.
  rewrite extract_text_from_video_result, !extract_text_from_video_run.
  cbv zeta. rewrite Hgen1. cbn [reply_text result final events]. rewrite HE.
  rewrite summarize_text_result, !summarize_text_run.
  cbv zeta. cbn [result final events set_generate_count remote generate_count].
  rewrite Hgen2. cbn [reply_text]. rewrite HS. cbn [events text].
  match goal with
  | |- context [show_results E Y ?w'] =>
      destruct (show_results_run E Y w') as (_ & _ & Hdl & Hreq)
  end.
  unfold downloads, generate_requests in *.
  rewrite !omap_app, Hdl, Hreq. split; reflexivity.
Qed.

(** X21. The pipeline delivers (lines 245-309).  With a key, when the
    resolver returns a path, the poller returns a handle for it, and the
    generation service answers the extraction and then the summarization
    with a text that is not empty, [main] returns having made exactly these
    two generation calls and offering the three downloads built from the two
    texts. *)
Theorem pipeline_delivers inp w path vf E Y :
  str_truthy (api_key inp) = true ->
  result (resolve inp w) = Ok (Some path) ->
  result (upload_video_to_gemini path (final (resolve inp w))) = Ok (Some vf) ->
  generate_content_reply (remote w) (generate_count w) (ReqVideo vf extract_prompt)
  = inr (mkGenResponse (inr E)) ->
  str_truthy E = true ->
  generate_content_reply (remote w) (S (generate_count w)) (ReqText (summary_prompt E))
  = inr (mkGenResponse (inr Y)) ->
  str_truthy Y = true ->
  result (main inp w) = Ok tt /\
  generate_requests (events (main inp w))
  = [ReqVideo vf extract_prompt; ReqText (summary_prompt E)] /\
  downloads (events (main inp w)) = artifacts E Y.
Proof.
  intros Hkey Hres Hpoll Hgen1 HE Hgen2 HS.
  rewrite (main_processed inp w path Hkey Hres). cbn [result events].
  set (w1 := final (resolve inp w)) in *.
  destruct (run_stages_run path w1) as (x & Hx & ->). cbv zeta in Hx.
  rewrite Hpoll in Hx. injection Hx as <-. cbn [events].
  set (w2 := final (upload_video_to_gemini path w1)).
  assert (Hremote : remote w2 = remote w).
  { transitivity (remote w1);
      [apply (upload_video_to_gemini_keeps_generation path)
      | apply (resolve_keeps_remote inp w)]. }
  assert (Hcount : generate_count w2 = generate_count w).
  { transitivity (generate_count w1);
      [apply (upload_video_to_gemini_keeps_generation path)
      | apply (resolve_keeps_generate_count inp w)]. }
  rewrite <- Hremote, <- Hcount in Hgen1, Hgen2.
  destruct (extract_and_summarize_delivers vf w2 E Y Hgen1 HE Hgen2 HS) as [Hdl Hreq].
  assert (Hd0 : downloads (events (resolve inp w)) = []).
  { eapply omap_reads; [exact downloads_reads | | apply (resolve_only inp w)].
    disjoint_kinds. }
  assert (Hd1 : downloads (events (upload_video_to_gemini path w1)) = []).
  { eapply omap_reads;
      [exact downloads_reads | | apply (upload_video_to_gemini_only path w1)].
    disjoint_kinds. }
  assert (Hgenerate : reads (B := GenRequest)
            (fun ev => match ev with EvGenerate request _ => Some request | _ => None end)
            [Generation]) by reads_kinds.
  assert (Hg0 : generate_requests (events (resolve inp w)) = []).
  { eapply omap_reads; [exact Hgenerate | | apply (resolve_only inp w)].
    disjoint_kinds. }
  assert (Hg1 : generate_requests (events (upload_video_to_gemini path w1)) = []).
  { eapply omap_reads;
      [exact Hgenerate | | apply (upload_video_to_gemini_only path w1)].
    disjoint_kinds. }
  split_and!.
  - reflexivity.
  - unfold generate_requests in *. cbn [omap list_omap upload_header].
    rewrite omap_app, Hg0. cbn [app omap list_omap processing_header].
    rewrite !omap_app, Hg1, Hreq. reflexivity.
  - unfold downloads in *. cbn [omap list_omap upload_header].
    rewrite omap_app, Hd0. cbn [app omap list_omap processing_header].
    rewrite !omap_app, Hd1, Hdl. reflexivity.
Qed.

Lemma pipeline_delivers_witness :
  result (resolve Samples.from_url Samples.slow_world) = Ok (Some "/tmp/tmpa1b2c3d4.mp4") /\
  result (upload_video_to_gemini "/tmp/tmpa1b2c3d4.mp4"
            (final (resolve Samples.from_url Samples.slow_world)))
  = Ok (Some Samples.active) /\
  downloads (events (main Samples.from_url Samples.slow_world))
  = artifacts "Speaker 1: Hello." "A greeting.".
Proof.
  assert (Hres : result (resolve Samples.from_url Samples.slow_world)
                 = Ok (Some "/tmp/tmpa1b2c3d4.mp4")) by (vm_compute; reflexivity).
  assert (Hpoll : result (upload_video_to_gemini "/tmp/tmpa1b2c3d4.mp4"
                            (final (resolve Samples.from_url Samples.slow_world)))
                  = Ok (Some Samples.active)) by (vm_compute; reflexivity).
  destruct (pipeline_delivers Samples.from_url Samples.slow_world _ _
              "Speaker 1: Hello." "A greeting." eq_refl Hres Hpoll eq_refl eq_refl
              eq_refl eq_refl) as (_ & _ & Hdl).
  split_and!; [exact Hres | exact Hpoll | exact Hdl].
Defined.
